(** * renpho-ble-scale: packet decoder, event emitter, session and supervisor

    A shallow embedding of [src/protocol.ts] (the packet decoder) and of the
    [RenphoScale] class and [runMessageLoop] (the event emitter, the session
    with its idle timer, and the reconnecting supervisor), followed by the
    properties established about them.

    Packets are JavaScript objects, kept as association lists so that a
    property reads as [undefined] where the decoder never set it.  A
    session is a record of the fields of the instance, of what its
    callbacks close over, and of the runtime and the GATT characteristics
    around it; methods run on it in a state-and-exception monad and leave
    a trace of what they emitted, wrote and logged.  Time is counted in
    milliseconds and passes only between events. *)

From Stdlib Require Import ZArith NArith List String Bool Lia.
From Stdlib Require Import Strings.Byte.
From Stdlib Require Import Floats.PrimFloat.
Import ListNotations.

Local Open Scope string_scope.
Local Open Scope list_scope.
Local Open Scope Z_scope.

(* ================================================================== *)
(** * JavaScript values *)
(* ================================================================== *)

Module JS.

(** A [Buffer] is a sequence of octets. *)
Definition Buffer := list byte.

Definition octet (b : byte) : Z := Z.of_N (Byte.to_N b).

Fixpoint pos2float (p : positive) : float :=
  match p with
  | xH => 1%float
  | xO q => PrimFloat.mul 2%float (pos2float q)
  | xI q => PrimFloat.add (PrimFloat.mul 2%float (pos2float q)) 1%float
  end.

(** The binary64 value of an integer (exact below 2^53). *)
Definition Z2float (z : Z) : float :=
  match z with
  | Z0 => 0%float
  | Zpos p => pos2float p
  | Zneg p => PrimFloat.opp (pos2float p)
  end.

(** A Number.  Every Number of the program is either an integer obtained
    from octets by [<<] and [+] (far below 2^53, where binary64 arithmetic
    is exact: kept as [Int]), or the result of a floating-point division
    (kept as the binary64 it is: [Dbl]). *)
Inductive number :=
| Int (z : Z)
| Dbl (x : float).

Definition toFloat (n : number) : float :=
  match n with
  | Int z => Z2float z
  | Dbl x => x
  end.

#[warnings="-register-all"]
Inductive value :=
| VUndefined
| VNumber (n : number)
| VBuffer (b : Buffer)
| VObject (o : list (string * value)).

(** An object: its own properties in insertion order. *)
Definition Object := list (string * value).

(** [o.k]: a property that is absent reads as [undefined]. *)
Fixpoint get (k : string) (o : Object) : value :=
  match o with
  | [] => VUndefined
  | (k', v) :: rest => if String.eqb k k' then v else get k rest
  end.

(** [o.k = v]: overwrite in place, or add as the last property. *)
Fixpoint set (k : string) (v : value) (o : Object) : Object :=
  match o with
  | [] => [(k, v)]
  | (k', v') :: rest =>
      if String.eqb k k' then (k', v) :: rest else (k', v') :: set k v rest
  end.

(** [buf[i]]: the octet at index [i], [undefined] outside the buffer. *)
Definition index (buf : Buffer) (i : Z) : value :=
  if i <? 0 then VUndefined
  else match nth_error buf (Z.to_nat i) with
       | Some b => VNumber (Int (octet b))
       | None => VUndefined
       end.

Definition wrap32 (z : Z) : Z :=
  let m := z mod 2 ^ 32 in
  if m <? 2 ^ 31 then m else m - 2 ^ 32.

(** ToInt32: [undefined] (NaN) converts to 0.  Doubles do not reach [<<]
    in this program and convert as NaN does. *)
Definition toInt32 (v : value) : Z :=
  match v with
  | VNumber (Int z) => wrap32 z
  | _ => 0
  end.

(** [a << k] for a literal shift count [k]. *)
Definition shl (a : value) (k : Z) : value :=
  VNumber (Int (wrap32 (Z.shiftl (toInt32 a) (k mod 32)))).

(** ToNumber, on the values that reach arithmetic: [undefined] is NaN. *)
Definition toNumber (v : value) : number :=
  match v with
  | VNumber n => n
  | _ => Dbl PrimFloat.nan
  end.

(** [a + b] on Numbers: exact on two integers, binary64 otherwise. *)
Definition add (a b : value) : value :=
  match toNumber a, toNumber b with
  | Int x, Int y => VNumber (Int (x + y))
  | x, y => VNumber (Dbl (PrimFloat.add (toFloat x) (toFloat y)))
  end.

(** [a / b]: binary64 division. *)
Definition div (a b : value) : value :=
  VNumber (Dbl (PrimFloat.div (toFloat (toNumber a)) (toFloat (toNumber b)))).

(** [a === b], for a Number literal [b]. *)
Definition strictEq (a : value) (b : Z) : bool :=
  match a with
  | VNumber (Int z) => z =? b
  | VNumber (Dbl x) => PrimFloat.eqb x (Z2float b)
  | _ => false
  end.

End JS.

Import JS.

(* ================================================================== *)
(** * protocol.ts *)
(* ================================================================== *)

(** The three packet types of [protocol.ts], and the [default] case of the
    [switch] on [packetId] ("Unknown packet"). *)
Inductive PacketKind :=
| FirstPacket        (* packetId 0x12 *)
| SecondPacket       (* packetId 0x14 *)
| WeightDataPacket   (* packetId 0x10 *)
| UnknownPacket.

(** The [switch (packet.packetId)] shared by [parseIncomingPacket] and
    [handlePacket]. *)
Definition switchPacketId (p : Object) : PacketKind :=
  let packetId := get "packetId" p in
  if strictEq packetId 0x12 then FirstPacket
  else if strictEq packetId 0x14 then SecondPacket
  else if strictEq packetId 0x10 then WeightDataPacket
  else UnknownPacket.

Definition parseIncomingPacket (buf : Buffer) : Object :=
  let packetId := index buf 0 in
  let len := index buf 1 in
  let checksum := index buf (Z.of_nat (List.length buf) - 1) in
  let packet : Object :=
    [("packetId", packetId); ("len", len); ("checksum", checksum);
     ("data", VBuffer buf)] in
  match switchPacketId packet with
  | FirstPacket => packet
  | SecondPacket => packet
  | WeightDataPacket =>
      let packet := set "scaleType" (index buf 2) packet in
      let packet :=
        set "weight"
            (div (add (shl (index buf 3) 8) (index buf 4))
                 (VNumber (Int 100)))
            packet in
      packet
  | UnknownPacket => packet
  end.

(* ================================================================== *)
(** * The RenphoScale class: state *)
(* ================================================================== *)

(** [EventName = keyof EventTree].  [getListeners] throws "Invalid event" for
    any other string; the type excludes those. *)
Inductive EventName := liveupdate | measurement | data | timeout.

Definition EventName_eqb (a b : EventName) : bool :=
  match a, b with
  | liveupdate, liveupdate | measurement, measurement
  | data, data | timeout, timeout => true
  | _, _ => false
  end.

(** The functions that get registered as listeners.  Two listeners are the
    same function ([fn === handler]) exactly when they are equal here.
    - [External id throws]: a listener supplied by a collaborator; the
      model records each of its invocations, after which the listener
      returns or, if [throws] is set, throws;
    - [wrappedHandler]: the closure [once] creates, one per call of [once];
    - [resetTimerListener]: [() => { resetTimer(); }] of [startListening],
      closed over [timeoutSecs];
    - [raiseFlagListener]: [() => { if (raiseFlag) raiseFlag(); }], the two
      closures [connectAndHandle] registers, one per event. *)
Inductive Handler :=
| External (id : nat) (throws : bool)
| wrappedHandler (serial : nat) (eventName : EventName) (handler : Handler)
| resetTimerListener (timeoutSecs : N)
| raiseFlagListener (eventName : EventName).

Fixpoint Handler_eqb (a b : Handler) : bool :=
  match a, b with
  | External i t, External j t' => Nat.eqb i j && Bool.eqb t t'
  | wrappedHandler s e h, wrappedHandler s' e' h' =>
      Nat.eqb s s' && EventName_eqb e e' && Handler_eqb h h'
  | resetTimerListener t, resetTimerListener t' => N.eqb t t'
  | raiseFlagListener e, raiseFlagListener e' => EventName_eqb e e'
  | _, _ => false
  end.

(** [listeners: Record<EventName, Array<...>>]. *)
Record Listeners := {
  l_liveupdate : list Handler;
  l_measurement : list Handler;
  l_data : list Handler;
  l_timeout : list Handler
}.

Definition listenersOf (eventName : EventName) (l : Listeners) : list Handler :=
  match eventName with
  | liveupdate => l_liveupdate l
  | measurement => l_measurement l
  | data => l_data l
  | timeout => l_timeout l
  end.

Definition withListeners (eventName : EventName) (x : list Handler)
    (l : Listeners) : Listeners :=
  match eventName with
  | liveupdate =>
      {| l_liveupdate := x; l_measurement := l_measurement l;
         l_data := l_data l; l_timeout := l_timeout l |}
  | measurement =>
      {| l_liveupdate := l_liveupdate l; l_measurement := x;
         l_data := l_data l; l_timeout := l_timeout l |}
  | data =>
      {| l_liveupdate := l_liveupdate l; l_measurement := l_measurement l;
         l_data := x; l_timeout := l_timeout l |}
  | timeout =>
      {| l_liveupdate := l_liveupdate l; l_measurement := l_measurement l;
         l_data := l_data l; l_timeout := x |}
  end.

(** What the GATT server does when asked: whether the service and
    characteristic lookups, [startNotifications], [writeValue] and
    [stopNotifications] resolve ([true]) or reject. *)
Record Link := {
  lookupOk : bool;
  startOk : bool;
  writeOk : bool;
  stopOk : bool
}.

(** The promise [connectAndHandle] waits on: [raiseFlag] is unassigned until
    the promise is created, and calling it resolves the promise. *)
Inductive Promise := Unassigned | Waiting | Resolved.

(** What can be observed of a session, in the order it happens. *)
Inductive Obs :=
| Emit (eventName : EventName) (args : list value)  (* a call of [emit] *)
| Invoke (id : nat) (args : list value)   (* an external listener ran *)
| WriteValue (buf : Buffer) (ok : bool)   (* [char.writeValue(buf)] *)
| OffValueChanged              (* [eventChar.off("valuechanged", ...)] *)
| StopNotifications (ok : bool)           (* [eventChar.stopNotifications()] *)
| Log (level : string) (msg : string)
| Uncaught (e : string).      (* an exception escaped a timer callback *)

(** One [RenphoScale] instance together with what it closes over and talks
    to:
    - [listeners], [timeoutHandle], [eventChar] (set or not): its fields;
    - [didTimeout]: the variable of [startListening] shared by
      [handleValueChange] and [handleTimeout] ([runMessageLoop] calls
      [startListening] once per instance, and so there is one);
    - [clock] (milliseconds), [pending] (timer id, due time), [fresh] (the
      next timer or closure identity): the JavaScript runtime;
    - [valuechanged] ([handleValueChange] is registered on the notify
      characteristic), [notifying], [link]: the GATT side;
    - [raiseFlag]: the promise of [connectAndHandle];
    - [trace]: the observations so far. *)
Record World := {
  listeners : Listeners;
  timeoutHandle : option nat;
  eventChar : bool;
  didTimeout : bool;
  clock : N;
  pending : list (nat * N);
  fresh : nat;
  valuechanged : bool;
  notifying : bool;
  link : Link;
  raiseFlag : Promise;
  trace : list Obs
}.

Definition set_listeners (x : Listeners) (w : World) : World :=
  {| listeners := x; timeoutHandle := timeoutHandle w;
     eventChar := eventChar w; didTimeout := didTimeout w; clock := clock w;
     pending := pending w; fresh := fresh w; valuechanged := valuechanged w;
     notifying := notifying w; link := link w; raiseFlag := raiseFlag w;
     trace := trace w |}.

Definition set_timeoutHandle (x : option nat) (w : World) : World :=
  {| listeners := listeners w; timeoutHandle := x; eventChar := eventChar w;
     didTimeout := didTimeout w; clock := clock w; pending := pending w;
     fresh := fresh w; valuechanged := valuechanged w;
     notifying := notifying w; link := link w; raiseFlag := raiseFlag w;
     trace := trace w |}.

Definition set_eventChar (x : bool) (w : World) : World :=
  {| listeners := listeners w; timeoutHandle := timeoutHandle w;
     eventChar := x; didTimeout := didTimeout w; clock := clock w;
     pending := pending w; fresh := fresh w; valuechanged := valuechanged w;
     notifying := notifying w; link := link w; raiseFlag := raiseFlag w;
     trace := trace w |}.

Definition set_didTimeout (x : bool) (w : World) : World :=
  {| listeners := listeners w; timeoutHandle := timeoutHandle w;
     eventChar := eventChar w; didTimeout := x; clock := clock w;
     pending := pending w; fresh := fresh w; valuechanged := valuechanged w;
     notifying := notifying w; link := link w; raiseFlag := raiseFlag w;
     trace := trace w |}.

Definition set_clock (x : N) (w : World) : World :=
  {| listeners := listeners w; timeoutHandle := timeoutHandle w;
     eventChar := eventChar w; didTimeout := didTimeout w; clock := x;
     pending := pending w; fresh := fresh w; valuechanged := valuechanged w;
     notifying := notifying w; link := link w; raiseFlag := raiseFlag w;
     trace := trace w |}.

Definition set_pending (x : list (nat * N)) (w : World) : World :=
  {| listeners := listeners w; timeoutHandle := timeoutHandle w;
     eventChar := eventChar w; didTimeout := didTimeout w; clock := clock w;
     pending := x; fresh := fresh w; valuechanged := valuechanged w;
     notifying := notifying w; link := link w; raiseFlag := raiseFlag w;
     trace := trace w |}.

Definition set_fresh (x : nat) (w : World) : World :=
  {| listeners := listeners w; timeoutHandle := timeoutHandle w;
     eventChar := eventChar w; didTimeout := didTimeout w; clock := clock w;
     pending := pending w; fresh := x; valuechanged := valuechanged w;
     notifying := notifying w; link := link w; raiseFlag := raiseFlag w;
     trace := trace w |}.

Definition set_valuechanged (x : bool) (w : World) : World :=
  {| listeners := listeners w; timeoutHandle := timeoutHandle w;
     eventChar := eventChar w; didTimeout := didTimeout w; clock := clock w;
     pending := pending w; fresh := fresh w; valuechanged := x;
     notifying := notifying w; link := link w; raiseFlag := raiseFlag w;
     trace := trace w |}.

Definition set_notifying (x : bool) (w : World) : World :=
  {| listeners := listeners w; timeoutHandle := timeoutHandle w;
     eventChar := eventChar w; didTimeout := didTimeout w; clock := clock w;
     pending := pending w; fresh := fresh w; valuechanged := valuechanged w;
     notifying := x; link := link w; raiseFlag := raiseFlag w;
     trace := trace w |}.

Definition set_link (x : Link) (w : World) : World :=
  {| listeners := listeners w; timeoutHandle := timeoutHandle w;
     eventChar := eventChar w; didTimeout := didTimeout w; clock := clock w;
     pending := pending w; fresh := fresh w; valuechanged := valuechanged w;
     notifying := notifying w; link := x; raiseFlag := raiseFlag w;
     trace := trace w |}.

Definition set_raiseFlag (x : Promise) (w : World) : World :=
  {| listeners := listeners w; timeoutHandle := timeoutHandle w;
     eventChar := eventChar w; didTimeout := didTimeout w; clock := clock w;
     pending := pending w; fresh := fresh w; valuechanged := valuechanged w;
     notifying := notifying w; link := link w; raiseFlag := x;
     trace := trace w |}.

Definition set_trace (x : list Obs) (w : World) : World :=
  {| listeners := listeners w; timeoutHandle := timeoutHandle w;
     eventChar := eventChar w; didTimeout := didTimeout w; clock := clock w;
     pending := pending w; fresh := fresh w; valuechanged := valuechanged w;
     notifying := notifying w; link := link w; raiseFlag := raiseFlag w;
     trace := x |}.

(* ================================================================== *)
(** * Computations over a session: state and exceptions *)
(* ================================================================== *)

Inductive Result (A : Type) :=
| Ok (a : A)
| Threw (e : string).

Arguments Ok {A} a.
Arguments Threw {A} e.

(** A method body: it runs on a [World], changes it, and returns or throws
    (an [async] method: resolves or rejects).  An awaited call has completed
    when the next statement runs, and a method runs to its end before the
    next event is handled: what else might happen to the session while a
    method is suspended in an [await] is not followed. *)
Definition M (A : Type) : Type := World -> Result A * World.

Definition ret {A} (a : A) : M A := fun w => (Ok a, w).

Definition bind {A B} (m : M A) (k : A -> M B) : M B :=
  fun w =>
    match m w with
    | (Ok a, w') => k a w'
    | (Threw e, w') => (Threw e, w')
    end.

Definition throw {A} (e : string) : M A := fun w => (Threw e, w).

(** [try { m } catch (err) { h err }], and [m.catch(h)] on a promise. *)
Definition tryCatch {A} (m : M A) (h : string -> M A) : M A :=
  fun w =>
    match m w with
    | (Ok a, w') => (Ok a, w')
    | (Threw e, w') => h e w'
    end.

Definition gets {A} (f : World -> A) : M A := fun w => (Ok (f w), w).

Definition modify (f : World -> World) : M unit := fun w => (Ok tt, f w).

Declare Scope js_scope.
Delimit Scope js_scope with js.
Notation "x <- c1 ;; c2" := (bind c1 (fun x => c2))
  (at level 61, c1 at next level, right associativity) : js_scope.
Notation "c1 ;; c2" := (bind c1 (fun _ => c2))
  (at level 61, right associativity) : js_scope.
Local Open Scope js_scope.

Definition when (b : bool) (m : M unit) : M unit := if b then m else ret tt.

Definition observe (o : Obs) : M unit :=
  modify (fun w => set_trace (trace w ++ [o]) w).

Definition log (level msg : string) : M unit := observe (Log level msg).

(** The world a computation leaves behind, and its outcome. *)
Definition exec {A} (m : M A) (w : World) : World := snd (m w).
Definition outcome {A} (m : M A) (w : World) : Result A := fst (m w).

(* ================================================================== *)
(** * The event emitter *)
(* ================================================================== *)

Definition getListeners (eventName : EventName) : M (list Handler) :=
  gets (fun w => listenersOf eventName (listeners w)).

(** The array returned by [getListeners] is the one stored in
    [this.listeners]: [push] and [splice] on it change the session. *)
Definition setListeners (eventName : EventName) (l : list Handler) : M unit :=
  modify (fun w => set_listeners (withListeners eventName l (listeners w)) w).

Fixpoint findIndex {A} (p : A -> bool) (l : list A) : option nat :=
  match l with
  | [] => None
  | x :: rest =>
      if p x then Some O
      else match findIndex p rest with
           | Some i => Some (S i)
           | None => None
           end
  end.

(** [l.splice(start, count)]: what is left of [l]. *)
Definition splice {A} (start count : nat) (l : list A) : list A :=
  firstn start l ++ skipn (start + count) l.

Definition on (eventName : EventName) (handler : option Handler) : M unit :=
  match handler with
  | Some h =>
      l <- getListeners eventName ;;
      setListeners eventName (l ++ [h])
  | None => ret tt
  end.

Definition off (eventName : EventName) (handler : option Handler) : M unit :=
  listeners <- getListeners eventName ;;
  match handler with
  | Some h =>
      match findIndex (fun fn => Handler_eqb fn h) listeners with
      | Some index => setListeners eventName (splice index 1 listeners)
      | None => ret tt
      end
  | None =>
      setListeners eventName (splice 0 (List.length listeners) listeners)
  end.

Definition once (eventName : EventName) (handler : option Handler) : M unit :=
  match handler with
  | None => ret tt
  | Some h =>
      serial <- gets fresh ;;
      modify (set_fresh (S serial)) ;;
      on eventName (Some (wrappedHandler serial eventName h))
  end.

(** ** Timers *)

Definition setTimeout (ms : N) : M nat :=
  id <- gets fresh ;;
  modify (set_fresh (S id)) ;;
  modify (fun w => set_pending (pending w ++ [(id, (clock w + ms)%N)]) w) ;;
  ret id.

Definition clearTimeout (id : nat) : M unit :=
  modify (fun w =>
    set_pending (filter (fun t => negb (Nat.eqb (fst t) id)) (pending w)) w).

(** [resetTimer] of [startListening]. *)
Definition resetTimer (timeoutSecs : N) : M unit :=
  h <- gets timeoutHandle ;;
  match h with
  | Some id => clearTimeout id ;; modify (set_timeoutHandle None)
  | None => ret tt
  end ;;
  id <- setTimeout (timeoutSecs * 1000)%N ;;
  modify (set_timeoutHandle (Some id)).

(** ** Calling a listener: [fn(...args)] *)

Fixpoint callHandler (fn : Handler) (args : list value) : M unit :=
  match fn with
  | External id throws =>
      observe (Invoke id args) ;;
      if throws then throw "listener threw" else ret tt
  | wrappedHandler _ eventName handler =>
      off eventName (Some fn) ;;
      callHandler handler args
  | resetTimerListener timeoutSecs => resetTimer timeoutSecs
  | raiseFlagListener _ =>
      p <- gets raiseFlag ;;
      match p with
      | Unassigned => ret tt
      | _ => modify (set_raiseFlag Resolved)
      end
  end.

(** [array.forEach(fn)] on the stored array: the length is read once, and
    each index below it is visited if the array still has it, with the
    element found there at that moment. *)
Fixpoint forEach (eventName : EventName) (fn : Handler -> M unit)
    (k remaining : nat) : M unit :=
  match remaining with
  | O => ret tt
  | S remaining' =>
      l <- getListeners eventName ;;
      match nth_error l k with
      | Some h => fn h
      | None => ret tt
      end ;;
      forEach eventName fn (S k) remaining'
  end.

Definition emit (eventName : EventName) (args : list value) : M unit :=
  observe (Emit eventName args) ;;
  l <- getListeners eventName ;;
  forEach eventName (fun fn => callHandler fn args) 0 (List.length l).

(* ================================================================== *)
(** * The session *)
(* ================================================================== *)

Definition magicBytesForFirstPacket : Buffer :=
  [x13; x09; x15; x01; x10; x00; x00; x00; x42].

Definition magicBytesForSecondPacket : Buffer :=
  [x20; x08; x15; x09; x0b; xac; x29; x26].

Definition stopPacket : Buffer := [x1f; x05; x15; x10; x49].

Definition writeValue (buf : Buffer) : M unit :=
  ok <- gets (fun w => writeOk (link w)) ;;
  observe (WriteValue buf ok) ;;
  if ok then ret tt else throw "writeValue rejected".

Definition sendCommand (buf : Buffer) : M unit :=
  log "silly" "SEND" ;;
  writeValue buf.

(** [p.data[i]]: a TypeError when [p.data] is [undefined]. *)
Definition dataIndex (p : Object) (i : Z) : M value :=
  match get "data" p with
  | VBuffer buf => ret (index buf i)
  | VUndefined => throw "TypeError"
  | _ => ret VUndefined
  end.

Definition handlePacket (p : Object) : M unit :=
  log "silly" "RECV" ;;
  emit data [VObject p] ;;
  match switchPacketId p with
  | FirstPacket =>
      log "debug" "Received handshake packet 1/2" ;;
      sendCommand magicBytesForFirstPacket
  | SecondPacket =>
      log "debug" "Received handshake packet 2/2" ;;
      sendCommand magicBytesForSecondPacket
  | WeightDataPacket =>
      flag <- dataIndex p 5 ;;
      if strictEq flag 0 then
        emit liveupdate [get "weightValue" p]
      else if strictEq flag 1 then
        log "debug" "Received completed measurement packet" ;;
        sendCommand stopPacket ;;
        emit measurement [get "weightValue" p]
      else ret tt
  | UnknownPacket => log "warn" "Unknown packet"
  end.

Definition handleValueChange (buf : Buffer) : M unit :=
  timedOut <- gets didTimeout ;;
  if timedOut then ret tt
  else
    tryCatch (handlePacket (parseIncomingPacket buf))
             (fun err => log "warn" "Error while handling packet").

Definition stopNotifications : M unit :=
  ok <- gets (fun w => stopOk (link w)) ;;
  observe (StopNotifications ok) ;;
  if ok then modify (set_notifying false)
  else throw "stopNotifications rejected".

Definition stopListening : M unit :=
  ec <- gets eventChar ;;
  if negb ec then ret tt
  else
    stopNotifications ;;
    modify (set_eventChar false).

Definition destroy : M unit :=
  tryCatch
    (h <- gets timeoutHandle ;;
     match h with
     | Some id => clearTimeout id ;; modify (set_timeoutHandle None)
     | None => ret tt
     end ;;
     stopListening)
    (fun err => log "debug" "Error during destroy(), but that's fine").

Definition handleTimeout : M unit :=
  log "warn" "timeout" ;;
  modify (set_didTimeout true) ;;
  emit timeout [] ;;
  observe OffValueChanged ;;
  modify (set_valuechanged false) ;;
  destroy.

Definition startListening (timeoutSecs : N) : M unit :=
  ec <- gets eventChar ;;
  if ec then ret tt
  else
    log "info" "Listening for data packets..." ;;
    ok <- gets (fun w => lookupOk (link w)) ;;
    (if ok then ret tt else throw "characteristic lookup rejected") ;;
    modify (set_didTimeout false) ;;
    modify (set_valuechanged true) ;;
    ok <- gets (fun w => startOk (link w)) ;;
    (if ok then modify (set_notifying true)
     else throw "startNotifications rejected") ;;
    modify (set_eventChar true) ;;
    resetTimer timeoutSecs ;;
    on data (Some (resetTimerListener timeoutSecs)).

(* ================================================================== *)
(** * The runtime: notifications and the passing of time *)
(* ================================================================== *)

(** The pending timer that is due first, among those due by [t]. *)
Fixpoint nextDue (t : N) (timers : list (nat * N)) : option (nat * N) :=
  match timers with
  | [] => None
  | (id, due) :: rest =>
      match nextDue t rest with
      | Some (id', due') =>
          if (due <=? due')%N then Some (id, due) else Some (id', due')
      | None => if (due <=? t)%N then Some (id, due) else None
      end
  end.

(** Run the timers due by [t], each at its due time.  Every timer of a
    session runs [handleTimeout].  The callback of [setTimeout] has no
    [try] around it and the program installs no handler for uncaught
    exceptions: an exception that escapes [handleTimeout] is reported by
    Node and ends the process, so that no later timer runs. *)
Fixpoint runTimers (fuel : nat) (t : N) : M unit :=
  match fuel with
  | O => ret tt
  | S fuel' =>
      timers <- gets pending ;;
      match nextDue t timers with
      | Some (id, due) =>
          clearTimeout id ;;
          modify (set_clock due) ;;
          tryCatch handleTimeout (fun e => observe (Uncaught e) ;; throw e) ;;
          runTimers fuel' t
      | None => ret tt
      end
  end.

Definition elapse (ms : N) : M unit :=
  now <- gets clock ;;
  timers <- gets pending ;;
  runTimers (List.length timers) (now + ms)%N ;;
  modify (set_clock (now + ms)%N).

(** What happens to a session from outside. *)
Inductive Event :=
| Notify (buf : Buffer)   (* the notify characteristic reports a value *)
| Elapse (ms : N).        (* time passes *)

Definition step (e : Event) : M unit :=
  match e with
  | Notify buf =>
      sub <- gets (fun w => valuechanged w && notifying w) ;;
      when sub (handleValueChange buf)
  | Elapse ms => elapse ms
  end.

(** The events one after the other.  A step that throws is the end of
    the process (an uncaught exception in a timer callback): [run] stops
    there, and the world it leaves is the one in which the process
    ended. *)
Fixpoint run (events : list Event) : M unit :=
  match events with
  | [] => ret tt
  | e :: rest => step e ;; run rest
  end.

(** A new [RenphoScale] on a GATT server that behaves as [l]. *)
Definition newScale (l : Link) : World :=
  {| listeners := {| l_liveupdate := []; l_measurement := [];
                     l_data := []; l_timeout := [] |};
     timeoutHandle := None; eventChar := false; didTimeout := false;
     clock := 0%N; pending := []; fresh := O;
     valuechanged := false; notifying := false; link := l;
     raiseFlag := Unassigned; trace := [] |}.

Definition goodLink : Link :=
  {| lookupOk := true; startOk := true; writeOk := true; stopOk := true |}.

(* ================================================================== *)
(** * runMessageLoop *)
(* ================================================================== *)

(** What [opts.onConnect] does with the scale it is given: it subscribes
    listeners of its own, and returns or throws. *)
Inductive Registration :=
| RegisterOn (eventName : EventName) (id : nat) (throws : bool)
    (* [scale.on(e, h)] *)
| RegisterOnce (eventName : EventName) (id : nat) (throws : bool).
    (* [scale.once(e, h)] *)

Record OnConnect := {
  registrations : list Registration;
  throws : bool
}.

Record Opts := {
  onConnect : option OnConnect;
  runOnce : bool                 (* [opts.once] *)
}.

Definition register (r : Registration) : M unit :=
  match r with
  | RegisterOn e id t => on e (Some (External id t))
  | RegisterOnce e id t => once e (Some (External id t))
  end.

Fixpoint registerAll (rs : list Registration) : M unit :=
  match rs with
  | [] => ret tt
  | r :: rest => register r ;; registerAll rest
  end.

(** [opts.onConnect?.(scale)]. *)
Definition callOnConnect (opts : Opts) : M unit :=
  match onConnect opts with
  | None => ret tt
  | Some f =>
      registerAll (registrations f) ;;
      if throws f then throw "onConnect threw" else ret tt
  end.

(** One pass through the loop, as the outside world decides it: whether
    [RenphoScale.connect] resolves, how the GATT server of the device
    behaves, and what happens to the session while [connectAndHandle]
    waits for its promise. *)
Record Attempt := {
  connectOk : bool;
  gatt : Link;
  events : list Event
}.

(** What [runMessageLoop] does, in order. *)
Inductive LoopObs :=
| Connect                 (* [RenphoScale.connect] is called *)
| Created (session : nat) (* ... and resolved with a new instance *)
| Flagged (session : nat) (* the awaited promise resolved *)
| Warn (e : string)       (* [logger.warn(err.toString())] *)
| NextIteration           (* [logger.debug("Next iteration!")] *)
| Delay                   (* [delay(1)] *)
| Info                    (* [logger.info("Destroying bluetooth connection")] *)
| Destroy (session : nat) (* [scale.destroy()] through the destructor *)
| DestroyBluetooth.       (* [destroyBluetooth()] *)

(** The variables of [runMessageLoop]: every instance created so far (as it
    was last left), the session whose destructor [destroyScaleSession]
    holds, and what the loop has done. *)
Record Loop := {
  sessions : list World;
  destroyScaleSession : option nat;
  did : list LoopObs
}.

Definition note (o : LoopObs) (s : Loop) : Loop :=
  {| sessions := sessions s; destroyScaleSession := destroyScaleSession s;
     did := did s ++ [o] |}.

Definition addSession (w : World) (s : Loop) : Loop :=
  {| sessions := sessions s ++ [w];
     destroyScaleSession := destroyScaleSession s; did := did s |}.

Definition setDestructor (i : nat) (s : Loop) : Loop :=
  {| sessions := sessions s; destroyScaleSession := Some i; did := did s |}.

Fixpoint replaceNth {A} (i : nat) (x : A) (l : list A) : list A :=
  match l, i with
  | [], _ => []
  | _ :: rest, O => x :: rest
  | y :: rest, S j => y :: replaceNth j x rest
  end.

Definition updateSession (i : nat) (f : World -> World) (s : Loop) : Loop :=
  match nth_error (sessions s) i with
  | Some w =>
      {| sessions := replaceNth i (f w) (sessions s);
         destroyScaleSession := destroyScaleSession s; did := did s |}
  | None => s
  end.

(** An awaited promise resolves, rejects, or stays pending for ever; or
    the process ends on an uncaught exception while it is awaited. *)
Inductive Await (A : Type) :=
| Resolves (a : A)
| Rejects (e : string)
| Pending
| Exits (e : string).

Arguments Resolves {A} a.
Arguments Rejects {A} e.
Arguments Pending {A}.
Arguments Exits {A} e.

(** The session while [connectAndHandle] awaits its promise: events happen
    until [raiseFlag] has been called.  The function goes on after the
    event in which the promise was resolved has been handled to its end;
    when that event ends the process (a [timeout] listener threw after
    the promise was resolved), it never goes on. *)
Fixpoint awaitFlag (events : list Event) : M unit :=
  match events with
  | [] => ret tt
  | e :: rest =>
      p <- gets raiseFlag ;;
      match p with
      | Resolved => ret tt
      | _ => step e ;; awaitFlag rest
      end
  end.

(** The part of [connectAndHandle] between [RenphoScale.connect] and the
    [await] of the promise. *)
Definition setUp (opts : Opts) : M unit :=
  on timeout (Some (raiseFlagListener timeout)) ;;
  on measurement (Some (raiseFlagListener measurement)) ;;
  callOnConnect opts ;;
  startListening 10 ;;
  modify (set_raiseFlag Waiting).

(** [connectAndHandle]; it resolves with the session the returned
    destructor [() => { scale.destroy(); }] is closed over. *)
Definition connectAndHandle (opts : Opts) (a : Attempt) (s : Loop)
    : Await nat * Loop :=
  let s := note Connect s in
  if negb (connectOk a) then (Rejects "connect rejected", s)
  else
    let scale := List.length (sessions s) in
    let s := note (Created scale) s in
    match setUp opts (newScale (gatt a)) with
    | (Threw e, w) => (Rejects e, addSession w s)
    | (Ok _, w) =>
        match awaitFlag (events a) w with
        | (Threw e, w') => (Exits e, addSession w' s)
        | (Ok _, w') =>
            match raiseFlag w' with
            | Resolved =>
                (Resolves scale, note (Flagged scale) (addSession w' s))
            | _ => (Pending, addSession w' s)
            end
        end
    end.

(** How far [runMessageLoop] got. *)
Inductive Status :=
| Returned               (* the loop was left and the function returned *)
| Failed (e : string)    (* the function rejected *)
| Looping                (* still inside [while (true)] *)
| Exited (e : string).   (* the process ended on an uncaught exception *)

(** [while (true) { ... }], one [Attempt] per pass.  When the attempts are
    used up the run is cut off inside the loop.  When the process ends
    during a pass, nothing of the function runs any more. *)
Fixpoint while (opts : Opts) (script : list Attempt) (s : Loop)
    : Status * Loop :=
  match script with
  | [] => (Looping, s)
  | a :: rest =>
      match connectAndHandle opts a s with
      | (Resolves scale, s) =>
          let s := setDestructor scale s in
          if runOnce opts then (Returned, s)
          else while opts rest (note Delay (note NextIteration s))
      | (Rejects e, s) =>
          while opts rest (note Delay (note NextIteration (note (Warn e) s)))
      | (Pending, s) => (Looping, s)
      | (Exits e, s) => (Exited e, s)
      end
  end.

(** The [finally] block. *)
Definition finally (s : Loop) : Loop :=
  let s := note Info s in
  let s :=
    match destroyScaleSession s with
    | Some scale => updateSession scale (exec destroy) (note (Destroy scale) s)
    | None => s
    end in
  note DestroyBluetooth s.

Definition runMessageLoop (adapterOk : bool) (opts : Opts)
    (script : list Attempt) : Status * Loop :=
  let s := {| sessions := []; destroyScaleSession := None; did := [] |} in
  let (status, s) :=
    if adapterOk then while opts script s
    else (Failed "defaultAdapter rejected", s) in
  match status with
  | Looping | Exited _ => (status, s)
  | Returned | Failed _ => (status, finally s)
  end.

(* ================================================================== *)
(** * Vocabulary of the specification *)
(* ================================================================== *)

(** The unsigned 16-bit number whose big-endian representation is the two
    octets [hi], [lo] (the data model's [bigEndianUint16]). *)
Definition bigEndianUint16 (hi lo : byte) : Z := 256 * octet hi + octet lo.

(** [flag] of [handlePacket]: [p.data[5]]. *)
Definition flagOf (p : Object) : value :=
  match get "data" p with
  | VBuffer buf => index buf 5
  | _ => VUndefined
  end.

(** The test [flag === 1] by which [handlePacket] takes a weight packet for
    a completed measurement (the data model's [settled]). *)
Definition settled (p : Object) : bool := strictEq (flagOf p) 1.

(** The observations of one kind in a stretch of trace. *)
Definition write1 (o : Obs) : list Buffer :=
  match o with
  | WriteValue b _ => [b]
  | _ => []
  end.

Definition writes (t : list Obs) : list Buffer := flat_map write1 t.

Definition emission1 (e : EventName) (o : Obs) : list (list value) :=
  match o with
  | Emit e' args => if EventName_eqb e e' then [args] else []
  | _ => []
  end.

Definition emissions (e : EventName) (t : list Obs) : list (list value) :=
  flat_map (emission1 e) t.

Definition invocations (t : list Obs) : list (nat * list value) :=
  flat_map (fun o => match o with Invoke i a => [(i, a)] | _ => [] end) t.

Definition unsubscriptions (t : list Obs) : nat :=
  List.length (filter (fun o =>
    match o with OffValueChanged => true | _ => false end) t).

Definition stops (t : list Obs) : nat :=
  List.length (filter (fun o =>
    match o with StopNotifications _ => true | _ => false end) t).

(** The specification's table of answers, to compare the writes of
    [handlePacket] with. *)
Module Spec.

(** The frames the specification has the session send for a packet. *)
Definition sends (k : PacketKind) (isSettled : bool) : list Buffer :=
  match k with
  | FirstPacket => [magicBytesForFirstPacket]
  | SecondPacket => [magicBytesForSecondPacket]
  | WeightDataPacket => if isSettled then [stopPacket] else []
  | UnknownPacket => []
  end.

End Spec.

(* ================================================================== *)
(** * Vocabulary of the proofs *)
(* ================================================================== *)

Definition isInvoke (o : Obs) : Prop :=
  match o with
  | Invoke _ _ => True
  | _ => False
  end.

(** Invocations and log entries. *)
Definition isAside (o : Obs) : Prop :=
  match o with
  | Invoke _ _ | Log _ _ => True
  | _ => False
  end.

(** Listeners that return normally, however they are wrapped. *)
Fixpoint peaceful (h : Handler) : Prop :=
  match h with
  | External _ throws => throws = false
  | wrappedHandler _ _ h' => peaceful h'
  | _ => True
  end.

(** Listeners come and go by [on], [once] and [off] only: while packets
    and timers are handled, every listener array keeps or loses
    elements, so that what holds of all listeners goes on holding. *)
Definition Shrinks (w w' : World) : Prop :=
  forall (e : EventName) (P : Handler -> Prop),
    Forall P (listenersOf e (listeners w)) ->
    Forall P (listenersOf e (listeners w')).

(** What running listeners can change: the listener arrays, the timer and
    the promise, and the trace, which grows by invocations only. *)
Record Quiet (w w' : World) : Prop := {
  q_eventChar : eventChar w' = eventChar w;
  q_didTimeout : didTimeout w' = didTimeout w;
  q_clock : clock w' = clock w;
  q_valuechanged : valuechanged w' = valuechanged w;
  q_notifying : notifying w' = notifying w;
  q_link : link w' = link w;
  q_trace : exists d, trace w' = trace w ++ d /\ Forall isInvoke d
}.

(** What handling a packet leaves alone. *)
Record Steady (w w' : World) : Prop := {
  s_eventChar : eventChar w' = eventChar w;
  s_didTimeout : didTimeout w' = didTimeout w;
  s_clock : clock w' = clock w;
  s_valuechanged : valuechanged w' = valuechanged w;
  s_notifying : notifying w' = notifying w;
  s_link : link w' = link w
}.

(** What [destroy] adds to the trace, for a session whose [eventChar] is
    set or not, on a link on which [stopNotifications] resolves or not. *)
Definition stopped (listening ok : bool) : list Obs :=
  if listening then
    if ok then [StopNotifications true]
    else [StopNotifications false;
          Log "debug" "Error during destroy(), but that's fine"]
  else [].

(** Observations other than a write and other than an emission of [data],
    [liveupdate] or [measurement]. *)
Definition noPacketEffect (o : Obs) : Prop :=
  match o with
  | Emit timeout _ => True
  | Emit _ _ => False
  | WriteValue _ _ => False
  | _ => True
  end.

(** Counting what the loop did. *)
Definition connects (l : list LoopObs) : nat :=
  List.length
    (filter (fun o => match o with Connect => true | _ => false end) l).

Definition warnings (l : list LoopObs) : nat :=
  List.length
    (filter (fun o => match o with Warn _ => true | _ => false end) l).

Definition delays (l : list LoopObs) : nat :=
  List.length (filter (fun o => match o with Delay => true | _ => false end) l).

Definition destroys (l : list LoopObs) : list nat :=
  flat_map (fun o => match o with Destroy i => [i] | _ => [] end) l.

Definition flagged (l : list LoopObs) : list nat :=
  flat_map (fun o => match o with Flagged i => [i] | _ => [] end) l.

Definition releases (l : list LoopObs) : nat :=
  List.length (filter (fun o =>
    match o with DestroyBluetooth => true | _ => false end) l).

(** What the catch path of the loop adds after a rejected attempt, and what
    the retry path adds after a session has ended. *)
Definition caught (e : string) : list LoopObs :=
  [Warn e; NextIteration; Delay].
Definition retried : list LoopObs := [NextIteration; Delay].

(** Listeners other than the wrappers of [once]. *)
Definition plain (h : Handler) : Prop :=
  match h with
  | wrappedHandler _ _ _ => False
  | _ => True
  end.

(** Listeners that do not reset the timer, however they are wrapped. *)
Fixpoint timerFree (h : Handler) : Prop :=
  match h with
  | resetTimerListener _ => False
  | wrappedHandler _ _ h' => timerFree h'
  | _ => True
  end.

(** Calling the listeners of a list one after the other. *)
Fixpoint callAll (l : list Handler) (args : list value) : M unit :=
  match l with
  | [] => ret tt
  | h :: rest => callHandler h args ;; callAll rest args
  end.

(** Every pending timer is the one [timeoutHandle] holds. *)
Definition Tidy (w : World) : Prop :=
  forall t, In t (pending w) -> timeoutHandle w = Some (fst t).

(** Subscriptions of listeners that return normally. *)
Definition calm (r : Registration) : Prop :=
  match r with
  | RegisterOn _ _ throws | RegisterOnce _ _ throws => throws = false
  end.

Definition calmOpts (opts : Opts) : Prop :=
  match onConnect opts with
  | Some f => Forall calm (registrations f)
  | None => True
  end.

Definition allPeaceful (w : World) : Prop :=
  forall e, Forall peaceful (listenersOf e (listeners w)).

(* ================================================================== *)
(** * Event names at run time *)
(* ================================================================== *)

(** [REGISTERED_LISTENERS] of [getListeners]. *)
Definition REGISTERED_LISTENERS : list string :=
  ["liveupdate"; "measurement"; "data"; "timeout"].

(** [array.includes(x)], on strings. *)
Definition includes (l : list string) (x : string) : bool :=
  existsb (String.eqb x) l.

(** The key of [this.listeners] a string is, if it is one. *)
Definition eventNameOf (name : string) : option EventName :=
  if String.eqb name "liveupdate" then Some liveupdate
  else if String.eqb name "measurement" then Some measurement
  else if String.eqb name "data" then Some data
  else if String.eqb name "timeout" then Some timeout
  else None.

(** The methods of the emitter as they run on any string, the types
    erased: those that call [getListeners] have the name checked first,
    and then run as above. *)
Module Untyped.

(** [getListeners]: the array returned is the one stored under the key, and
    the key stands for it.  A name that passed the check and were no key of
    [this.listeners] would give [undefined], whose use is a TypeError. *)
Definition getListeners (eventName : string) : M EventName :=
  if negb (includes REGISTERED_LISTENERS eventName) then
    throw ("Invalid event: " ++ eventName)
  else
    match eventNameOf eventName with
    | Some e => ret e
    | None => throw "TypeError"
    end.

Definition emit (eventName : string) (args : list value) : M unit :=
  e <- getListeners eventName ;;
  emit e args.

Definition on (eventName : string) (handler : option Handler) : M unit :=
  match handler with
  | Some h =>
      e <- getListeners eventName ;;
      on e (Some h)
  | None => ret tt
  end.

(** The wrapper is passed to [on], which is where the name is checked. *)
Definition once (eventName : string) (handler : option Handler) : M unit :=
  match handler with
  | None => ret tt
  | Some h =>
      e <- getListeners eventName ;;
      once e (Some h)
  end.

Definition off (eventName : string) (handler : option Handler) : M unit :=
  e <- getListeners eventName ;;
  off e handler.

End Untyped.

(* ================================================================== *)
(** * Further vocabulary of the proofs *)
(* ================================================================== *)

(** ** Octets and frames *)

(** A check on all octets, by their bits. *)
Definition forall_bool (f : bool -> bool) : bool := f true && f false.

Definition forall_byte (f : byte -> bool) : bool :=
  forall_bool (fun b0 => forall_bool (fun b1 =>
  forall_bool (fun b2 => forall_bool (fun b3 =>
  forall_bool (fun b4 => forall_bool (fun b5 =>
  forall_bool (fun b6 => forall_bool (fun b7 =>
    f (Byte.of_bits (b0, (b1, (b2, (b3, (b4, (b5, (b6, b7)))))))))))))))).

(** The largest weight two octets can hold: 65535 hundredths. *)
Definition maxWeight : float := PrimFloat.div 65535%float 100%float.

(** The frames a session writes in answer to a frame, by the first octet
    of the frame and its flag octet. *)
Definition answers (buf : Buffer) : list Buffer :=
  match nth_error buf 0 with
  | Some b =>
      if Byte.eqb b x12 then [magicBytesForFirstPacket]
      else if Byte.eqb b x14 then [magicBytesForSecondPacket]
      else if Byte.eqb b x10 then
        match nth_error buf 5 with
        | Some f => if Byte.eqb f x01 then [stopPacket] else []
        | None => []
        end
      else []
  | None => []
  end.

(** The events of a stretch of frames, each arriving some time after the
    one before. *)
Definition arrivals (frames : list (N * Buffer)) : list Event :=
  flat_map (fun f => [Elapse (fst f); Notify (snd f)]) frames.

(** The [switch] of [handlePacket], on its own: what [handlePacket] does
    once the packet has been emitted as [data]. *)
Definition dispatch (p : Object) : M unit :=
  match switchPacketId p with
  | FirstPacket =>
      log "debug" "Received handshake packet 1/2" ;;
      sendCommand magicBytesForFirstPacket
  | SecondPacket =>
      log "debug" "Received handshake packet 2/2" ;;
      sendCommand magicBytesForSecondPacket
  | WeightDataPacket =>
      flag <- dataIndex p 5 ;;
      if strictEq flag 0 then
        emit liveupdate [get "weightValue" p]
      else if strictEq flag 1 then
        log "debug" "Received completed measurement packet" ;;
        sendCommand stopPacket ;;
        emit measurement [get "weightValue" p]
      else ret tt
  | UnknownPacket => log "warn" "Unknown packet"
  end.

(** ** Links that fail *)

(** A GATT server that rejects every write. *)
Definition deafLink : Link :=
  {| lookupOk := true; startOk := true; writeOk := false; stopOk := true |}.

(** A GATT server on which [stopNotifications] rejects. *)
Definition stuckLink : Link :=
  {| lookupOk := true; startOk := true; writeOk := true; stopOk := false |}.

(** A GATT server on which [startNotifications] rejects. *)
Definition muteLink : Link :=
  {| lookupOk := true; startOk := false; writeOk := true; stopOk := true |}.

(** ** Listeners *)

(** External listeners that return normally, by their identities. *)
Definition externals (ids : list nat) : list Handler :=
  map (fun id => External id false) ids.

(** The invocations of the listeners [ids], in order, with [args]. *)
Definition invoked (ids : list nat) (args : list value) : list Obs :=
  map (fun id => Invoke id args) ids.

(** No once-wrapper is registered. *)
Definition NoOnce (w : World) : Prop :=
  forall e, Forall plain (listenersOf e (listeners w)).

(** Listeners are added at the end of the arrays, and none is removed. *)
Definition Appends (w w' : World) : Prop :=
  forall e, exists added,
    listenersOf e (listeners w') = listenersOf e (listeners w) ++ added.

(** The first listener of the event is the one that raises the flag. *)
Definition Headed (e : EventName) (w : World) : Prop :=
  exists tl, listenersOf e (listeners w) = raiseFlagListener e :: tl.

(** The listeners that raise the flag stay where they are. *)
Definition HeadKept (w w' : World) : Prop :=
  forall e, Headed e w -> Headed e w'.

(** ** Sessions before and after *)

(** At most one timer is pending, and [timeoutHandle] holds it. *)
Definition SingleTimer (w : World) : Prop :=
  pending w = [] \/
  exists id due, pending w = [(id, due)] /\ timeoutHandle w = Some id.

(** A session that is closed in some respect stays closed in it: its
    [eventChar] stays unset, its timed-out flag set, its listener off the
    characteristic and the characteristic silent. *)
Record StaysClosed (w w' : World) : Prop := {
  c_eventChar : eventChar w = false -> eventChar w' = false;
  c_didTimeout : didTimeout w = true -> didTimeout w' = true;
  c_valuechanged : valuechanged w = false -> valuechanged w' = false;
  c_notifying : notifying w = false -> notifying w' = false;
  c_link : link w' = link w
}.

(** The trace is only ever added to. *)
Definition Grows (w w' : World) : Prop :=
  exists d, trace w' = trace w ++ d.

(** The promise only ever moves towards being resolved. *)
Record FlagKept (w w' : World) : Prop := {
  f_assigned : raiseFlag w <> Unassigned -> raiseFlag w' <> Unassigned;
  f_resolved : raiseFlag w = Resolved -> raiseFlag w' = Resolved
}.

(** What setting a session up keeps: the link, and the listeners
    registered so far, each at its place. *)
Definition SetUpKeeps (w w' : World) : Prop :=
  link w' = link w /\ Appends w w'.

(** A listening session whose timer has just been set: it has not timed
    out, no once-wrapper is registered, its [data] listeners are external
    listeners that return normally followed by the listener of
    [startListening], and no other listener resets the timer. *)
Record Alive (secs : N) (ids : list nat) (w : World) : Prop := {
  a_didTimeout : didTimeout w = false;
  a_valuechanged : valuechanged w = true;
  a_notifying : notifying w = true;
  a_noOnce : NoOnce w;
  a_data : l_data (listeners w) = externals ids ++ [resetTimerListener secs];
  a_liveupdate : Forall timerFree (l_liveupdate (listeners w));
  a_measurement : Forall timerFree (l_measurement (listeners w));
  a_timer : exists id,
      timeoutHandle w = Some id /\
      pending w = [(id, (clock w + secs * 1000)%N)]
}.

(** ** The loop *)

(** The destructor the loop has stored is that of a session it
    created. *)
Definition Stored (s : Loop) : Prop :=
  forall i, destroyScaleSession s = Some i ->
            (i < List.length (sessions s))%nat.

(* ================================================================== *)
(** * Properties of the decoder *)
(* ================================================================== *)

Lemma octet_range (b : byte) : 0 <= octet b < 256.
Proof.
  unfold octet. pose proof (Byte.to_N_bounded b). lia.
Qed.

Lemma wrap32_small (z : Z) : 0 <= z < 2 ^ 31 -> wrap32 z = z.
Proof.
  intros H. unfold wrap32.
  rewrite Z.mod_small by lia.
  destruct (Z.ltb_spec z (2 ^ 31)); lia.
Qed.

(** [<<] by 8 on an octet is multiplication by 256: no wrap-around. *)
Lemma shl8_octet (b : byte) :
  shl (VNumber (Int (octet b))) 8 = VNumber (Int (256 * octet b)).
Proof.
  pose proof (octet_range b) as R.
  unfold shl, toInt32.
  rewrite (wrap32_small (octet b)) by lia.
  change (8 mod 32) with 8.
  rewrite Z.shiftl_mul_pow2 by lia.
  change (2 ^ 8) with 256.
  rewrite wrap32_small by lia.
  do 2 f_equal. lia.
Qed.

Lemma strictEq_octet (b c : byte) :
  strictEq (VNumber (Int (octet b))) (octet c) = Byte.eqb b c.
Proof.
  unfold strictEq.
  destruct (Byte.eqb b c) eqn:E.
  - apply Byte.byte_dec_bl in E. subst. apply Z.eqb_refl.
  - apply Z.eqb_neq. intros H.
    assert (b = c).
    { apply (f_equal Z.to_N) in H. unfold octet in H.
      rewrite !N2Z.id in H.
      pose proof (Byte.of_to_N b) as Hb. pose proof (Byte.of_to_N c) as Hc.
      rewrite H in Hb. congruence. }
    subst. rewrite (Byte.byte_dec_lb eq_refl) in E. discriminate.
Qed.

Lemma index_head (b : byte) (rest : Buffer) :
  index (b :: rest) 0 = VNumber (Int (octet b)).
Proof. reflexivity. Qed.

Lemma index_nth (buf : Buffer) (n : nat) (b : byte) :
  nth_error buf n = Some b -> index buf (Z.of_nat n) = VNumber (Int (octet b)).
Proof.
  intros H. unfold index.
  destruct (Z.ltb_spec (Z.of_nat n) 0); [lia|].
  now rewrite Nat2Z.id, H.
Qed.

Lemma index_beyond (buf : Buffer) (n : nat) :
  nth_error buf n = None -> index buf (Z.of_nat n) = VUndefined.
Proof.
  intros H. unfold index.
  destruct (Z.ltb_spec (Z.of_nat n) 0); [reflexivity|].
  now rewrite Nat2Z.id, H.
Qed.

(** The [switch] of the decoder looks at the first octet only. *)
Lemma switchPacketId_first (buf : Buffer) (o : Object) :
  get "packetId" o = index buf 0 ->
  switchPacketId o =
    match buf with
    | [] => UnknownPacket
    | b :: _ =>
        if Byte.eqb b x12 then FirstPacket
        else if Byte.eqb b x14 then SecondPacket
        else if Byte.eqb b x10 then WeightDataPacket
        else UnknownPacket
    end.
Proof.
  intros H. unfold switchPacketId. rewrite H.
  destruct buf as [|b rest]; [reflexivity|].
  rewrite index_head.
  change 0x12 with (octet x12). change 0x14 with (octet x14).
  change 0x10 with (octet x10).
  now rewrite !strictEq_octet.
Qed.

Lemma parse_fields (buf : Buffer) :
  let p := parseIncomingPacket buf in
  get "packetId" p = index buf 0 /\
  get "len" p = index buf 1 /\
  get "checksum" p = index buf (Z.of_nat (List.length buf) - 1) /\
  get "data" p = VBuffer buf.
Proof.
  unfold parseIncomingPacket.
  destruct (switchPacketId _); cbn; auto.
Qed.

Lemma parse_kind (buf : Buffer) :
  switchPacketId (parseIncomingPacket buf) =
    match buf with
    | [] => UnknownPacket
    | b :: _ =>
        if Byte.eqb b x12 then FirstPacket
        else if Byte.eqb b x14 then SecondPacket
        else if Byte.eqb b x10 then WeightDataPacket
        else UnknownPacket
    end.
Proof.
  apply switchPacketId_first. apply parse_fields.
Qed.

Lemma parse_weight (buf : Buffer) :
  switchPacketId (parseIncomingPacket buf) = WeightDataPacket ->
  get "weight" (parseIncomingPacket buf)
  = div (add (shl (index buf 3) 8) (index buf 4)) (VNumber (Int 100)).
Proof.
  intros K.
  assert (K0 : switchPacketId
                 [("packetId", index buf 0); ("len", index buf 1);
                  ("checksum", index buf (Z.of_nat (List.length buf) - 1));
                  ("data", VBuffer buf)] = WeightDataPacket).
  { rewrite (switchPacketId_first buf) by reflexivity.
    rewrite parse_kind in K. exact K. }
  unfold parseIncomingPacket. rewrite K0. reflexivity.
Qed.

(** C6, as the decoder has it.  [parseIncomingPacket] is a function of the
    buffer alone and returns a packet for every buffer (no operation in it
    can throw): the packet carries the buffer as [data] and the octets where
    there are some, and it is an unknown packet exactly when the buffer is
    empty or its first octet is none of 0x12, 0x14, 0x10, whatever the
    length. *)
Theorem parseIncomingPacket_total (buf : Buffer) :
  let p := parseIncomingPacket buf in
  get "data" p = VBuffer buf /\
  get "packetId" p = index buf 0 /\
  get "len" p = index buf 1 /\
  get "checksum" p = index buf (Z.of_nat (List.length buf) - 1) /\
  (switchPacketId p = UnknownPacket <->
   forall b, nth_error buf 0 = Some b -> b <> x12 /\ b <> x14 /\ b <> x10).
Proof.
  cbv zeta.
  destruct (parse_fields buf) as (Hid & Hlen & Hck & Hdata).
  do 4 (split; [assumption|]).
  split.
  - intros K b Hb. rewrite parse_kind in K.
    destruct buf as [|b0 rest]; [discriminate|].
    injection Hb as ->.
    repeat split; intros ->; cbn in K; discriminate.
  - intros H. rewrite parse_kind.
    destruct buf as [|b rest]; [reflexivity|].
    destruct (H b eq_refl) as (H1 & H2 & H3).
    destruct (Byte.eqb b x12) eqn:E1;
      [apply Byte.byte_dec_bl in E1; contradiction|].
    destruct (Byte.eqb b x14) eqn:E2;
      [apply Byte.byte_dec_bl in E2; contradiction|].
    destruct (Byte.eqb b x10) eqn:E3;
      [apply Byte.byte_dec_bl in E3; contradiction|].
    reflexivity.
Qed.

(** C6, as stated, fails: a one-octet buffer holding 0x12 is shorter than
    three octets and is decoded as the first handshake packet. *)
Lemma short_buffer_recognized :
  (List.length [x12] < 3)%nat /\
  switchPacketId (parseIncomingPacket [x12]) = FirstPacket /\
  switchPacketId (parseIncomingPacket [x12]) <> UnknownPacket.
Proof.
  repeat split; [cbn; lia | discriminate].
Qed.

(** A frame with id 0x10 that has octets 3, 4 and 5. *)
Lemma decode_weight_frame (buf : Buffer) (hi lo f : byte) :
  nth_error buf 0 = Some x10 ->
  nth_error buf 3 = Some hi ->
  nth_error buf 4 = Some lo ->
  nth_error buf 5 = Some f ->
  switchPacketId (parseIncomingPacket buf) = WeightDataPacket /\
  get "weight" (parseIncomingPacket buf)
  = VNumber (Dbl (PrimFloat.div (Z2float (bigEndianUint16 hi lo))
                                100%float)) /\
  settled (parseIncomingPacket buf) = Byte.eqb f x01.
Proof.
  intros H0 H3 H4 H5.
  assert (K : switchPacketId (parseIncomingPacket buf) = WeightDataPacket).
  { rewrite parse_kind. destruct buf; [discriminate|].
    injection H0 as ->. reflexivity. }
  split; [exact K|]. split.
  - rewrite (parse_weight buf K).
    pose proof (index_nth buf 3 hi H3) as E3.
    pose proof (index_nth buf 4 lo H4) as E4.
    change (Z.of_nat 3) with 3 in E3. change (Z.of_nat 4) with 4 in E4.
    rewrite E3, E4, shl8_octet. reflexivity.
  - unfold settled, flagOf.
    destruct (parse_fields buf) as (_ & _ & _ & ->).
    pose proof (index_nth buf 5 f H5) as E5.
    change (Z.of_nat 5) with 5 in E5. rewrite E5.
    change 1 with (octet x01). apply strictEq_octet.
Qed.

(** C7.  A frame with id 0x10 that has octets 3, 4 and 5 is decoded with
    [weight] the binary64 quotient of the big-endian 16-bit number in
    octets 3 and 4 by 100, and it counts as settled exactly when octet 5
    is 1; with octets 0x04, 0x4C and flag 0 the weight is 11 and the
    packet is not settled. *)
Theorem weight_packet_decoded :
  (forall (buf : Buffer) (hi lo f : byte),
      nth_error buf 0 = Some x10 ->
      nth_error buf 3 = Some hi ->
      nth_error buf 4 = Some lo ->
      nth_error buf 5 = Some f ->
      let p := parseIncomingPacket buf in
      switchPacketId p = WeightDataPacket /\
      get "weight" p
      = VNumber (Dbl (PrimFloat.div (Z2float (bigEndianUint16 hi lo))
                                    100%float)) /\
      settled p = Byte.eqb f x01) /\
  (forall (buf : Buffer),
      nth_error buf 0 = Some x10 ->
      nth_error buf 3 = Some x04 ->
      nth_error buf 4 = Some x4c ->
      nth_error buf 5 = Some x00 ->
      let p := parseIncomingPacket buf in
      get "weight" p = VNumber (Dbl 11%float) /\ settled p = false).
Proof.
  split; [exact decode_weight_frame|].
  intros buf H0 H3 H4 H5.
  destruct (decode_weight_frame buf x04 x4c x00 H0 H3 H4 H5) as (_ & W & S).
  cbv zeta. rewrite W, S. split; reflexivity.
Qed.

(** The frame of the example: 1100 hundredths, still settling. *)
Lemma weight_packet_decoded_witness :
  get "weight" (parseIncomingPacket [x10; x07; x15; x04; x4c; x00; x7e])
  = VNumber (Dbl 11%float) /\
  settled (parseIncomingPacket [x10; x07; x15; x04; x4c; x00; x7e]) = false.
Proof.
  apply (proj2 weight_packet_decoded [x10; x07; x15; x04; x4c; x00; x7e]);
    reflexivity.
Defined.

(* ================================================================== *)
(** * Properties of the event emitter *)
(* ================================================================== *)

Lemma Quiet_refl (w : World) : Quiet w w.
Proof.
  constructor; try reflexivity.
  exists []. now rewrite app_nil_r.
Qed.

Lemma Quiet_trans (a b c : World) : Quiet a b -> Quiet b c -> Quiet a c.
Proof.
  intros [e1 t1 c1 v1 n1 l1 (d1 & T1 & F1)] [e2 t2 c2 v2 n2 l2 (d2 & T2 & F2)].
  constructor; try congruence.
  exists (d1 ++ d2). split.
  - now rewrite T2, T1, app_assoc.
  - now apply Forall_app.
Qed.

Lemma Shrinks_refl (w : World) : Shrinks w w.
Proof. intros e P F. exact F. Qed.

Lemma Shrinks_trans (a b c : World) :
  Shrinks a b -> Shrinks b c -> Shrinks a c.
Proof. intros H1 H2 e P F. apply H2, H1, F. Qed.

(** A change that leaves the listeners alone. *)
Lemma Shrinks_same (w w' : World) : listeners w' = listeners w -> Shrinks w w'.
Proof. intros E e P F. now rewrite E. Qed.

Ltac quiet_now :=
  constructor; cbn; try reflexivity;
  first [ exists []; split; [now rewrite app_nil_r | constructor]
        | eexists; split; [reflexivity | repeat constructor] ].

Lemma Forall_firstn {A} (P : A -> Prop) (n : nat) (l : list A) :
  Forall P l -> Forall P (firstn n l).
Proof.
  intros H. revert n. induction H; intros [|n]; cbn; auto.
Qed.

Lemma Forall_skipn {A} (P : A -> Prop) (n : nat) (l : list A) :
  Forall P l -> Forall P (skipn n l).
Proof.
  intros H. revert n. induction H; intros [|n]; cbn; auto.
Qed.

Lemma Forall_splice {A} (P : A -> Prop) (i n : nat) (l : list A) :
  Forall P l -> Forall P (splice i n l).
Proof.
  intros H. unfold splice. apply Forall_app.
  split; [now apply Forall_firstn | now apply Forall_skipn].
Qed.

Lemma listenersOf_with (e e' : EventName) (x : list Handler)
    (L : Listeners) :
  listenersOf e' (withListeners e x L)
  = if EventName_eqb e e' then x else listenersOf e' L.
Proof. destruct e, e'; reflexivity. Qed.

Lemma EventName_eqb_eq (e e' : EventName) :
  EventName_eqb e e' = true -> e = e'.
Proof. destruct e, e'; intros H; congruence || discriminate. Qed.

Lemma Shrinks_splice (e : EventName) (i n : nat) (w : World) :
  Shrinks w (set_listeners
               (withListeners e (splice i n (listenersOf e (listeners w)))
                              (listeners w)) w).
Proof.
  intros e' P F. cbn [listeners set_listeners]. rewrite listenersOf_with.
  destruct (EventName_eqb e e') eqn:E; [|exact F].
  apply EventName_eqb_eq in E. subst e'. now apply Forall_splice.
Qed.

(** [off] returns normally and changes the listeners only, by removal. *)
Lemma off_spec (e : EventName) (h : option Handler) (w : World) :
  exists w',
    off e h w = (Ok tt, w') /\ Quiet w w' /\ Shrinks w w' /\
    pending w' = pending w /\ timeoutHandle w' = timeoutHandle w /\
    fresh w' = fresh w.
Proof.
  unfold off, bind, getListeners, gets, setListeners, modify, ret.
  destruct h as [h|].
  - destruct (findIndex _ _) as [i|]; eexists; (split; [reflexivity|]).
    + split; [quiet_now|]. split; [apply Shrinks_splice|]. repeat split.
    + split; [apply Quiet_refl|]. split; [apply Shrinks_refl|].
      repeat split.
  - eexists. split; [reflexivity|].
    split; [quiet_now|]. split; [apply Shrinks_splice|]. repeat split.
Qed.

Lemma resetTimer_spec (secs : N) (w : World) :
  exists w',
    resetTimer secs w = (Ok tt, w') /\ Quiet w w' /\
    listeners w' = listeners w.
Proof.
  unfold resetTimer, bind, gets, modify, ret, setTimeout, clearTimeout.
  destruct (timeoutHandle w); cbn; eexists; (split; [reflexivity|]);
    (split; [quiet_now | reflexivity]).
Qed.

(** Calling a listener changes what listeners may change, and returns
    normally when the listener is one that does. *)
Lemma callHandler_spec (h : Handler) (args : list value) (w : World) :
  exists r w',
    callHandler h args w = (r, w') /\ Quiet w w' /\ Shrinks w w' /\
    (peaceful h -> r = Ok tt).
Proof.
  revert w. induction h as [id t|serial e h IH|secs|e]; intros w.
  - cbn [callHandler]. unfold bind, observe, modify, throw, ret.
    destruct t; eexists; eexists; (split; [reflexivity|]);
      (split; [quiet_now|]); (split; [now apply Shrinks_same|]);
      cbn; congruence.
  - cbn [callHandler]. unfold bind.
    destruct (off_spec e (Some (wrappedHandler serial e h)) w)
      as (w1 & -> & Q1 & S1 & _).
    destruct (IH w1) as (r & w' & -> & Q & S & P).
    exists r, w'. split; [reflexivity|].
    split; [eapply Quiet_trans; eauto|].
    split; [eapply Shrinks_trans; eauto|]. exact P.
  - cbn [callHandler].
    destruct (resetTimer_spec secs w) as (w' & -> & Q & L).
    exists (Ok tt), w'. split; [reflexivity|]. split; [exact Q|].
    split; [now apply Shrinks_same | reflexivity].
  - cbn [callHandler]. unfold bind, gets, modify, ret.
    destruct (raiseFlag w); cbn; eexists; eexists; (split; [reflexivity|]);
      (split; [solve [apply Quiet_refl | quiet_now]|]);
      (split; [now apply Shrinks_same | reflexivity]).
Qed.

Lemma forEach_spec (e : EventName) (args : list value) (n k : nat)
    (w : World) :
  exists r w',
    forEach e (fun fn => callHandler fn args) k n w = (r, w') /\
    Quiet w w' /\ Shrinks w w' /\
    (Forall peaceful (listenersOf e (listeners w)) -> r = Ok tt).
Proof.
  revert k w. induction n as [|n IH]; intros k w.
  - exists (Ok tt), w. split; [reflexivity|].
    split; [apply Quiet_refl|]. split; [apply Shrinks_refl | reflexivity].
  - cbn [forEach]. unfold bind at 1. unfold getListeners, gets.
    unfold bind at 1.
    destruct (nth_error _ k) as [h|] eqn:N.
    + destruct (callHandler_spec h args w) as (r1 & w1 & -> & Q1 & S1 & P1).
      destruct r1 as [[]|err].
      * destruct (IH (S k) w1) as (r2 & w2 & -> & Q2 & S2 & P2).
        exists r2, w2. split; [reflexivity|].
        split; [eapply Quiet_trans; eauto|].
        split; [eapply Shrinks_trans; eauto|].
        intros F. apply P2. now apply S1.
      * exists (Threw err), w1. split; [reflexivity|].
        split; [exact Q1|]. split; [exact S1|].
        intros F. apply P1.
        rewrite Forall_forall in F. apply F. eapply nth_error_In; eauto.
    + unfold ret at 1. apply IH.
Qed.

(** [emit] records the emission, runs listeners, and touches nothing but
    what listeners may touch; it returns normally when the listeners do. *)
Lemma emit_spec (e : EventName) (args : list value) (w : World) :
  exists r w' d,
    emit e args w = (r, w')
    /\ trace w' = trace w ++ Emit e args :: d
    /\ Forall isInvoke d
    /\ Quiet (set_trace (trace w ++ [Emit e args]) w) w'
    /\ Shrinks w w'
    /\ (Forall peaceful (listenersOf e (listeners w)) -> r = Ok tt).
Proof.
  unfold emit, bind at 1, observe, modify. unfold bind at 1.
  unfold getListeners, gets. cbn [listeners set_trace].
  destruct (forEach_spec e args
              (List.length (listenersOf e (listeners w))) 0
              (set_trace (trace w ++ [Emit e args]) w))
    as (r & w' & E & Q & S & P).
  rewrite E.
  destruct (q_trace _ _ Q) as (d & T & F). cbn in T.
  exists r, w', d.
  split; [reflexivity|]. split; [now rewrite T, <- app_assoc|].
  split; [exact F|]. split; [exact Q|]. split; [exact S | exact P].
Qed.

(** The same, for listeners that return normally. *)
Lemma emit_ok (e : EventName) (args : list value) (w : World) :
  Forall peaceful (listenersOf e (listeners w)) ->
  exists w' d,
    emit e args w = (Ok tt, w')
    /\ trace w' = trace w ++ Emit e args :: d
    /\ Forall isInvoke d
    /\ Quiet (set_trace (trace w ++ [Emit e args]) w) w'
    /\ Shrinks w w'.
Proof.
  intros F.
  destruct (emit_spec e args w) as (r & w' & d & E & T & Fd & Q & S & P).
  rewrite (P F) in E. exists w', d.
  split; [exact E|]. split; [exact T|]. split; [exact Fd|].
  split; [exact Q | exact S].
Qed.

Lemma skipn_nth {A} (l : list A) (k : nat) (x : A) :
  nth_error l k = Some x -> skipn k l = x :: skipn (S k) l.
Proof.
  revert k. induction l as [|y ys IH]; intros [|k] N; try discriminate.
  - cbn in N. injection N as ->. reflexivity.
  - cbn in N. cbn [skipn]. now apply IH.
Qed.

Lemma callHandler_plain (h : Handler) (args : list value) (w : World) :
  plain h ->
  exists r w', callHandler h args w = (r, w') /\ listeners w' = listeners w.
Proof.
  destruct h as [id t|serial e h|secs|e]; cbn [plain]; intros P;
    try contradiction.
  - cbn [callHandler]. unfold bind, observe, modify, throw, ret.
    destruct t; eexists; eexists; split; reflexivity.
  - cbn [callHandler].
    unfold resetTimer, bind, gets, modify, ret, setTimeout, clearTimeout.
    destruct (timeoutHandle w); eexists; eexists; split; reflexivity.
  - cbn [callHandler]. unfold bind, gets, modify, ret.
    destruct (raiseFlag w); eexists; eexists; split; reflexivity.
Qed.

(** When none of the listeners of an event is a once-wrapper, [forEach]
    calls the listeners registered at the call, one after the other, until
    one of them throws. *)
Lemma forEach_plain (e : EventName) (args : list value) (l : list Handler)
    (n k : nat) (w : World) :
  Forall plain l ->
  listenersOf e (listeners w) = l ->
  (k + n = List.length l)%nat ->
  forEach e (fun fn => callHandler fn args) k n w
  = callAll (skipn k l) args w.
Proof.
  intros P. revert k w. induction n as [|n IH]; intros k w L Hk.
  - cbn. now rewrite skipn_all2 by lia.
  - cbn [forEach]. unfold bind at 1. unfold getListeners, gets.
    unfold bind at 1. rewrite L.
    destruct (nth_error l k) as [h|] eqn:N;
      [|apply nth_error_None in N; lia].
    rewrite (skipn_nth l k h N). cbn [callAll]. unfold bind.
    assert (Ph : plain h).
    { rewrite Forall_forall in P. apply P. eapply nth_error_In; eauto. }
    destruct (callHandler_plain h args w Ph) as (r & w1 & -> & L1).
    destruct r as [[]|err]; [|reflexivity].
    apply IH; [now rewrite L1 | lia].
Qed.

(** Without once-wrappers among them, [emit] calls the listeners
    registered for the event when it is called, in the order of their
    registration and with the arguments of the emission, up to the first
    that throws. *)
Lemma emit_plain (e : EventName) (args : list value) (w : World) :
  Forall plain (listenersOf e (listeners w)) ->
  emit e args w
  = (observe (Emit e args) ;;
     callAll (listenersOf e (listeners w)) args)%js w.
Proof.
  intros P. unfold emit, bind, observe, modify, getListeners, gets.
  cbn [listeners set_trace].
  now rewrite (forEach_plain e args (listenersOf e (listeners w))).
Qed.

Lemma callAll_external (ids : list nat) (args : list value) (w : World) :
  callAll (map (fun id => External id false) ids) args w
  = (Ok tt, set_trace (trace w ++ map (fun id => Invoke id args) ids) w).
Proof.
  revert w. induction ids as [|id ids IH]; intros w.
  - cbn. rewrite app_nil_r. now destruct w.
  - cbn [map callAll callHandler]. unfold bind, observe, modify, ret.
    rewrite IH. cbn. now rewrite <- app_assoc.
Qed.

Lemma callAll_app (a b : list Handler) (args : list value) (w : World) :
  callAll (a ++ b) args w = (callAll a args ;; callAll b args)%js w.
Proof.
  revert w. induction a as [|h a IH]; intros w; [reflexivity|].
  cbn [app callAll]. unfold bind.
  destruct (callHandler h args w) as [[[]|err] w1]; [|reflexivity].
  rewrite IH. reflexivity.
Qed.

Lemma Forall_plain_external (ids : list nat) :
  Forall plain (map (fun id => External id false) ids).
Proof.
  apply Forall_forall. intros h Hin. apply in_map_iff in Hin.
  destruct Hin as (id & <- & _). exact I.
Qed.

(** With external listeners that return normally and were registered with
    [on], [emit] calls each of them once, in the order of registration,
    with the arguments of the emission. *)
Lemma emit_external (e : EventName) (args : list value) (ids : list nat)
    (w : World) :
  listenersOf e (listeners w) = map (fun id => External id false) ids ->
  emit e args w
  = (Ok tt,
     set_trace (trace w ++ Emit e args :: map (fun id => Invoke id args) ids)
               w).
Proof.
  intros L.
  rewrite emit_plain by (rewrite L; apply Forall_plain_external).
  unfold bind, observe, modify. rewrite L, callAll_external.
  unfold set_trace. cbn. now rewrite <- app_assoc.
Qed.

(** C4 at the failing input.  After [scale.once("data", h1)] and
    [scale.on("data", h2)] two listeners are registered for [data]; one
    emission calls [h1] only: the wrapper takes itself out of the array
    [forEach] is walking, [h2] moves to the index already visited, and is
    not called. *)
Theorem emit_skips_listener_after_once :
  let w := exec (once data (Some (External 1 false)) ;;
                 on data (Some (External 2 false)))%js (newScale goodLink) in
  let w' := exec (emit data [VNumber (Int 7)]) w in
  listenersOf data (listeners w)
  = [wrappedHandler 0 data (External 1 false); External 2 false] /\
  outcome (emit data [VNumber (Int 7)]) w = Ok tt /\
  invocations (trace w') = [(1%nat, [VNumber (Int 7)])] /\
  listenersOf data (listeners w') = [External 2 false].
Proof.
  cbv zeta. repeat split.
Qed.

(* ================================================================== *)
(** * Properties of packet handling *)
(* ================================================================== *)

Lemma writes_app (a b : list Obs) : writes (a ++ b) = writes a ++ writes b.
Proof. apply flat_map_app. Qed.

Lemma writes_cons (o : Obs) (t : list Obs) :
  writes (o :: t) = write1 o ++ writes t.
Proof. reflexivity. Qed.

Lemma writes_nil : writes [] = [].
Proof. reflexivity. Qed.

Lemma emissions_app (e : EventName) (a b : list Obs) :
  emissions e (a ++ b) = emissions e a ++ emissions e b.
Proof. apply flat_map_app. Qed.

Lemma emissions_cons (e : EventName) (o : Obs) (t : list Obs) :
  emissions e (o :: t) = emission1 e o ++ emissions e t.
Proof. reflexivity. Qed.

Lemma emissions_nil (e : EventName) : emissions e [] = [].
Proof. reflexivity. Qed.

Lemma isInvoke_isAside (d : list Obs) : Forall isInvoke d -> Forall isAside d.
Proof. apply Forall_impl. intros []; cbn; tauto. Qed.

Lemma writes_asides (d : list Obs) : Forall isAside d -> writes d = [].
Proof.
  induction 1 as [|o d H _ IH]; [reflexivity|].
  destruct o; try contradiction; exact IH.
Qed.

Lemma emissions_asides (e : EventName) (d : list Obs) :
  Forall isAside d -> emissions e d = [].
Proof.
  induction 1 as [|o d H _ IH]; [reflexivity|].
  destruct o; try contradiction; exact IH.
Qed.

Lemma writes_invokes (d : list Obs) : Forall isInvoke d -> writes d = [].
Proof. intros F. now apply writes_asides, isInvoke_isAside. Qed.

Lemma emissions_invokes (e : EventName) (d : list Obs) :
  Forall isInvoke d -> emissions e d = [].
Proof. intros F. now apply emissions_asides, isInvoke_isAside. Qed.

(** Reading the writes and emissions off a trace given by its pieces. *)
Ltac summarize :=
  repeat first
    [ rewrite writes_app | rewrite emissions_app
    | rewrite writes_cons | rewrite emissions_cons
    | rewrite writes_nil | rewrite emissions_nil ];
  repeat match goal with
  | F : Forall isInvoke ?d |- context [writes ?d] =>
      rewrite (writes_invokes d F)
  | F : Forall isInvoke ?d |- context [emissions ?e ?d] =>
      rewrite (emissions_invokes e d F)
  | F : Forall isAside ?d |- context [writes ?d] =>
      rewrite (writes_asides d F)
  | F : Forall isAside ?d |- context [emissions ?e ?d] =>
      rewrite (emissions_asides e d F)
  end;
  cbn [write1 emission1 EventName_eqb app].

Lemma Quiet_Steady (w w' : World) : Quiet w w' -> Steady w w'.
Proof. intros []. now constructor. Qed.

Lemma Steady_refl (w : World) : Steady w w.
Proof. now constructor. Qed.

Lemma Steady_trans (a b c : World) : Steady a b -> Steady b c -> Steady a c.
Proof. intros [] []. constructor; congruence. Qed.

Ltac steady_from Q :=
  destruct Q; constructor; cbn in *; congruence.

(** No packet has a [weightValue] property: the decoder stores the weight
    under [weight]. *)
Lemma parse_no_weightValue (buf : Buffer) :
  get "weightValue" (parseIncomingPacket buf) = VUndefined.
Proof.
  unfold parseIncomingPacket. destruct (switchPacketId _); reflexivity.
Qed.

Lemma dataIndex_parse (buf : Buffer) (i : Z) (w : World) :
  dataIndex (parseIncomingPacket buf) i w = (Ok (index buf i), w).
Proof.
  unfold dataIndex. destruct (parse_fields buf) as (_ & _ & _ & ->).
  reflexivity.
Qed.

(** [sendCommand] calls [writeValue] once, and rejects if the link does. *)
Lemma sendCommand_spec (buf : Buffer) (w : World) :
  sendCommand buf w
  = (if writeOk (link w) then Ok tt else Threw "writeValue rejected",
     set_trace (trace w ++ [Log "silly" "SEND";
                            WriteValue buf (writeOk (link w))]) w).
Proof.
  unfold sendCommand, writeValue, bind, gets, log, observe, modify, ret,
    throw.
  cbn [link set_trace trace].
  destruct (writeOk (link w)); unfold set_trace; cbn;
    now rewrite <- app_assoc.
Qed.

(** Handling a frame, whatever its kind.  In a session that has not timed
    out and whose [data] listeners return normally, the frame is emitted as
    [data] and exactly the frames of the specification's table are written;
    [liveupdate] is emitted for flag 0, [measurement] for flag 1 once the
    stop packet has been written, each with [p.weightValue], which no
    packet has.  Nothing of this escapes [handleValueChange] as an
    exception. *)
Lemma handleValueChange_spec (buf : Buffer) (w : World) :
  didTimeout w = false ->
  Forall peaceful (l_data (listeners w)) ->
  let p := parseIncomingPacket buf in
  exists w' d,
    handleValueChange buf w = (Ok tt, w') /\
    Steady w w' /\ Shrinks w w' /\
    trace w' = trace w ++ d /\
    writes d = Spec.sends (switchPacketId p) (settled p) /\
    emissions data d = [[VObject p]] /\
    emissions timeout d = [] /\
    emissions liveupdate d =
      (match switchPacketId p with
       | WeightDataPacket =>
           if strictEq (flagOf p) 0 then [[VUndefined]] else []
       | _ => []
       end) /\
    emissions measurement d =
      (match switchPacketId p with
       | WeightDataPacket =>
           if (settled p && writeOk (link w))%bool then [[VUndefined]]
           else []
       | _ => []
       end).
Proof.
  intros Hd Pd. cbv zeta.
  unfold handleValueChange, bind at 1, gets. rewrite Hd.
  unfold tryCatch, handlePacket, bind at 1, log, observe, modify.
  unfold bind at 1.
  destruct (emit_ok data [VObject (parseIncomingPacket buf)]
              (set_trace (trace w ++ [Log "silly" "RECV"]) w) Pd)
    as (w2 & d1 & E & T & F & Q & Sh).
  rewrite E. cbn [trace set_trace] in T.
  assert (L : link w2 = link w) by (rewrite (q_link _ _ Q); reflexivity).
  assert (S2 : Steady w w2) by steady_from Q.
  assert (Sh2 : Shrinks w w2) by exact Sh.
  clear E Q Sh.
  destruct (switchPacketId (parseIncomingPacket buf)) eqn:K.
  - unfold bind, log, observe, modify. rewrite sendCommand_spec.
    cbn [link set_trace trace]. rewrite L.
    destruct (writeOk (link w)); eexists; eexists;
      (split; [reflexivity|]);
      (split; [apply (Steady_trans _ _ _ S2); now constructor|]);
      (split; [exact Sh2|]);
      (split; [cbn [trace set_trace]; rewrite T, <- !app_assoc;
               reflexivity|]);
      summarize; repeat split.
  - unfold bind, log, observe, modify. rewrite sendCommand_spec.
    cbn [link set_trace trace]. rewrite L.
    destruct (writeOk (link w)); eexists; eexists;
      (split; [reflexivity|]);
      (split; [apply (Steady_trans _ _ _ S2); now constructor|]);
      (split; [exact Sh2|]);
      (split; [cbn [trace set_trace]; rewrite T, <- !app_assoc;
               reflexivity|]);
      summarize; repeat split.
  - unfold bind at 1. rewrite dataIndex_parse.
    unfold settled, flagOf.
    destruct (parse_fields buf) as (_ & _ & _ & ->).
    rewrite parse_no_weightValue.
    destruct (nth_error buf 5) as [f|] eqn:N5.
    + pose proof (index_nth buf 5 f N5) as E5.
      change (Z.of_nat 5) with 5 in E5. rewrite E5.
      change 0 with (octet x00) at 1 2. change 1 with (octet x01) at 1 2 3.
      rewrite !strictEq_octet.
      destruct (Byte.eqb f x00) eqn:F0.
      * apply Byte.byte_dec_bl in F0. subst f. cbn [Byte.eqb andb].
        destruct (emit_spec liveupdate [VUndefined] w2)
          as (r3 & w3 & d2 & E3 & T3 & F3 & Q3 & Sh3 & _).
        rewrite E3.
        destruct r3 as [[]|err]; eexists; eexists;
          (split; [reflexivity|]);
          (split; [apply (Steady_trans _ _ _ S2); steady_from Q3|]);
          (split; [exact (Shrinks_trans _ _ _ Sh2 Sh3)|]);
          (split; [cbn [trace set_trace]; rewrite T3, T, <- !app_assoc;
                   reflexivity|]);
          summarize; repeat split.
      * destruct (Byte.eqb f x01) eqn:F1; cbn [andb].
        -- unfold bind at 1 2, log, observe, modify.
           rewrite sendCommand_spec. cbn [link set_trace trace]. rewrite L.
           destruct (writeOk (link w)) eqn:Hw.
           ++ match goal with
              | |- context [emit measurement ?a ?x] =>
                  destruct (emit_spec measurement a x)
                    as (r3 & w3 & d2 & E3 & T3 & F3 & Q3 & Sh3 & _)
              end.
              rewrite E3. cbn [trace set_trace] in T3.
              destruct r3 as [[]|err]; eexists; eexists;
                (split; [reflexivity|]);
                (split; [apply (Steady_trans _ _ _ S2); steady_from Q3|]);
                (split; [exact (Shrinks_trans _ _ _ Sh2 Sh3)|]);
                (split; [cbn [trace set_trace]; rewrite T3, T, <- !app_assoc;
                         reflexivity|]);
                summarize; repeat split.
           ++ eexists. eexists.
              split; [reflexivity|].
              split; [apply (Steady_trans _ _ _ S2); now constructor|].
              split; [exact Sh2|].
              split; [cbn [trace set_trace]; rewrite T, <- !app_assoc;
                      reflexivity|].
              summarize. repeat split.
        -- unfold ret. exists w2. eexists.
           split; [reflexivity|]. split; [exact S2|]. split; [exact Sh2|].
           split; [rewrite T, <- !app_assoc; reflexivity|].
           summarize. repeat split.
    + pose proof (index_beyond buf 5 N5) as E5.
      change (Z.of_nat 5) with 5 in E5. rewrite E5.
      cbn [strictEq andb]. unfold ret. exists w2. eexists.
      split; [reflexivity|]. split; [exact S2|]. split; [exact Sh2|].
      split; [rewrite T, <- !app_assoc; reflexivity|].
      summarize. repeat split.
  - unfold log, observe, modify. eexists. eexists.
    split; [reflexivity|].
    split; [apply (Steady_trans _ _ _ S2); now constructor|].
    split; [exact Sh2|].
    split; [cbn [trace set_trace]; rewrite T, <- !app_assoc; reflexivity|].
    summarize. repeat split.
Qed.

(** C1 on the code.  A session that has not timed out, whose [data]
    listeners return normally, on a link that accepts writes, handles a
    weight frame whose flag octet is 1 with exactly one write, the stop
    packet, exactly one [measurement] emission and no [liveupdate]; the
    payload of that emission is [p.weightValue], which is [undefined], and
    not the decoded weight, which the packet holds as [p.weight]. *)
Theorem settled_packet_measurement (buf : Buffer) (hi lo : byte)
    (w : World) :
  didTimeout w = false ->
  Forall peaceful (l_data (listeners w)) ->
  writeOk (link w) = true ->
  nth_error buf 0 = Some x10 ->
  nth_error buf 3 = Some hi ->
  nth_error buf 4 = Some lo ->
  nth_error buf 5 = Some x01 ->
  exists d,
    trace (exec (handleValueChange buf) w) = trace w ++ d /\
    writes d = [stopPacket] /\
    emissions liveupdate d = [] /\
    emissions measurement d = [[VUndefined]] /\
    get "weight" (parseIncomingPacket buf)
    = VNumber (Dbl (PrimFloat.div (Z2float (bigEndianUint16 hi lo))
                                  100%float)) /\
    emissions measurement d <> [[get "weight" (parseIncomingPacket buf)]].
Proof.
  intros Hd Pd Hw H0 H3 H4 H5.
  destruct (decode_weight_frame buf hi lo x01 H0 H3 H4 H5) as (K & W & St).
  destruct (handleValueChange_spec buf w Hd Pd)
    as (w' & d & E & _ & _ & T & Wr & _ & _ & Lv & Ms).
  rewrite K, St, Hw in *. cbn [Spec.sends Byte.eqb andb] in *.
  assert (F0 : strictEq (flagOf (parseIncomingPacket buf)) 0 = false).
  { unfold flagOf. destruct (parse_fields buf) as (_ & _ & _ & ->).
    pose proof (index_nth buf 5 x01 H5) as E5.
    change (Z.of_nat 5) with 5 in E5. now rewrite E5. }
  rewrite F0 in Lv.
  unfold exec. rewrite E. cbn [snd].
  exists d. rewrite W, Ms. repeat split; auto. discriminate.
Qed.

(** The failing input of C1: the frame [10 07 15 04 4c 01 7e], which
    decodes to the weight 11, arrives at a session that has just started
    listening; [measurement] is emitted once, with [undefined]. *)
Lemma settled_packet_measurement_witness :
  exists d,
    trace (exec (handleValueChange [x10; x07; x15; x04; x4c; x01; x7e])
                (exec (startListening 10) (newScale goodLink)))
    = trace (exec (startListening 10) (newScale goodLink)) ++ d /\
    writes d = [stopPacket] /\
    emissions liveupdate d = [] /\
    emissions measurement d = [[VUndefined]] /\
    get "weight" (parseIncomingPacket [x10; x07; x15; x04; x4c; x01; x7e])
    = VNumber (Dbl (PrimFloat.div (Z2float (bigEndianUint16 x04 x4c))
                                  100%float)) /\
    emissions measurement d
    <> [[get "weight"
           (parseIncomingPacket [x10; x07; x15; x04; x4c; x01; x7e])]].
Proof.
  apply (settled_packet_measurement
           [x10; x07; x15; x04; x4c; x01; x7e] x04 x4c
           (exec (startListening 10) (newScale goodLink)));
    try reflexivity.
  repeat constructor.
Defined.

Lemma step_Notify (buf : Buffer) (w : World) :
  valuechanged w = true -> notifying w = true ->
  step (Notify buf) w = handleValueChange buf w.
Proof.
  intros Hv Hn. cbn [step]. unfold bind, gets. now rewrite Hv, Hn.
Qed.

(** C8.  A listening session whose [data] listeners return normally and
    that receives a frame with id 0x12 and then a frame with id 0x14 calls
    [writeValue] exactly twice, with the 9-octet and then the 8-octet
    handshake answer, as the specification's table has it, whether or not
    the writes are accepted; it emits [data] for each of the two packets
    and nothing else.  The class keeps no lifecycle state: what is left of
    the session is as before, still subscribed to the characteristic and
    not timed out. *)
Theorem handshake_two_writes (init ack : Buffer) (w : World) :
  valuechanged w = true -> notifying w = true -> didTimeout w = false ->
  Forall peaceful (l_data (listeners w)) ->
  nth_error init 0 = Some x12 ->
  nth_error ack 0 = Some x14 ->
  let w' := exec (run [Notify init; Notify ack]) w in
  outcome (run [Notify init; Notify ack]) w = Ok tt /\
  (exists d,
      trace w' = trace w ++ d /\
      writes d = [[x13; x09; x15; x01; x10; x00; x00; x00; x42];
                  [x20; x08; x15; x09; x0b; xac; x29; x26]] /\
      writes d = flat_map (fun buf =>
                   Spec.sends (switchPacketId (parseIncomingPacket buf))
                              (settled (parseIncomingPacket buf)))
                 [init; ack] /\
      emissions data d = [[VObject (parseIncomingPacket init)];
                          [VObject (parseIncomingPacket ack)]] /\
      emissions liveupdate d = [] /\ emissions measurement d = [] /\
      emissions timeout d = []) /\
  Steady w w' /\
  valuechanged w' = true /\ notifying w' = true /\ didTimeout w' = false.
Proof.
  intros Hv Hn Hd Pd Hi Ha.
  assert (Ki : switchPacketId (parseIncomingPacket init) = FirstPacket).
  { rewrite parse_kind. destruct init; [discriminate|].
    injection Hi as ->. reflexivity. }
  assert (Ka : switchPacketId (parseIncomingPacket ack) = SecondPacket).
  { rewrite parse_kind. destruct ack; [discriminate|].
    injection Ha as ->. reflexivity. }
  destruct (handleValueChange_spec init w Hd Pd)
    as (w1 & d1 & E1 & S1 & Sh1 & T1 & W1 & Dt1 & Tm1 & Lv1 & Ms1).
  assert (Hd1 : didTimeout w1 = false) by (destruct S1; congruence).
  assert (Pd1 : Forall peaceful (l_data (listeners w1)))
    by exact (Sh1 data peaceful Pd).
  destruct (handleValueChange_spec ack w1 Hd1 Pd1)
    as (w2 & d2 & E2 & S2 & _ & T2 & W2 & Dt2 & Tm2 & Lv2 & Ms2).
  rewrite Ki in *. rewrite Ka in *. cbn [Spec.sends] in *.
  cbv zeta. unfold outcome, exec. cbn [run]. unfold bind.
  rewrite (step_Notify init w Hv Hn), E1.
  rewrite (step_Notify ack w1) by (destruct S1; congruence).
  rewrite E2. cbn [fst snd ret].
  split; [reflexivity|].
  pose proof (Steady_trans _ _ _ S1 S2) as S.
  split; [|split; [exact S | destruct S; repeat split; congruence]].
  exists (d1 ++ d2).
  split; [now rewrite T2, T1, app_assoc|].
  rewrite writes_app, !emissions_app, W1, W2, Dt1, Dt2, Tm1, Tm2, Lv1, Lv2,
    Ms1, Ms2.
  split; [reflexivity|].
  split; [cbn [flat_map]; rewrite Ki, Ka; reflexivity|].
  repeat split.
Qed.

(** A session that has just started listening receives the two handshake
    frames. *)
Lemma handshake_two_writes_witness :
  let w := exec (startListening 10) (newScale goodLink) in
  let w' := exec (run [Notify [x12; x00; x00]; Notify [x14; x00; x00]]) w in
  (exists d,
      trace w' = trace w ++ d /\
      writes d = [[x13; x09; x15; x01; x10; x00; x00; x00; x42];
                  [x20; x08; x15; x09; x0b; xac; x29; x26]]) /\
  valuechanged w' = true /\ notifying w' = true /\ didTimeout w' = false.
Proof.
  cbv zeta.
  destruct (handshake_two_writes [x12; x00; x00] [x14; x00; x00]
              (exec (startListening 10) (newScale goodLink))
              eq_refl eq_refl eq_refl
              ltac:(repeat constructor) eq_refl eq_refl)
    as (_ & (d & T & W & _) & _ & L).
  split; [exists d; split; assumption | exact L].
Defined.

(** C8, as stated, fails for the sessions in which a [data] listener
    throws: [emit("data", p)] is the first statement of [handlePacket],
    the exception leaves it before the [switch] is reached, and neither
    handshake frame is answered.  Here the on-connect callback registered
    such a listener before the session started listening. *)
Lemma handshake_unanswered_when_data_listener_throws :
  let w := exec (on data (Some (External 1 true)) ;; startListening 10)%js
                (newScale goodLink) in
  let init := [x12; x00; x00] in
  let ack := [x14; x00; x00] in
  let w' := exec (run [Notify init; Notify ack]) w in
  valuechanged w = true /\ notifying w = true /\ didTimeout w = false /\
  exists d,
    trace w' = trace w ++ d /\
    writes d = [] /\
    d = [Log "silly" "RECV";
         Emit data [VObject (parseIncomingPacket init)];
         Invoke 1 [VObject (parseIncomingPacket init)];
         Log "warn" "Error while handling packet";
         Log "silly" "RECV";
         Emit data [VObject (parseIncomingPacket ack)];
         Invoke 1 [VObject (parseIncomingPacket ack)];
         Log "warn" "Error while handling packet"].
Proof.
  cbv zeta. do 3 (split; [reflexivity|]).
  eexists. split; [|split]; [| |reflexivity]; reflexivity.
Qed.

(* ================================================================== *)
(** * Properties of teardown and of the idle timer *)
(* ================================================================== *)

(** [destroy], case by case: it always returns; it clears the timer,
    calls [stopNotifications] if [eventChar] is set, and unsets
    [eventChar] if that call resolved; it leaves the listeners alone. *)
Lemma destroy_spec (w : World) :
  exists w',
    destroy w = (Ok tt, w') /\
    listeners w' = listeners w /\
    didTimeout w' = didTimeout w /\
    clock w' = clock w /\
    valuechanged w' = valuechanged w /\
    link w' = link w /\
    raiseFlag w' = raiseFlag w /\
    timeoutHandle w' = None /\
    pending w' =
      match timeoutHandle w with
      | Some id => filter (fun t => negb (Nat.eqb (fst t) id)) (pending w)
      | None => pending w
      end /\
    eventChar w' = (eventChar w && negb (stopOk (link w)))%bool /\
    notifying w' =
      (if (eventChar w && stopOk (link w))%bool then false
       else notifying w) /\
    trace w' = trace w ++ stopped (eventChar w) (stopOk (link w)).
Proof.
  destruct w as [L th ec dt ck pd fr vc nt [lo so wo sto] rf tr].
  unfold destroy, tryCatch, stopListening, stopNotifications, clearTimeout,
    bind, gets, modify, observe, log, ret, throw.
  destruct th, ec, sto; cbn; eexists;
    (split; [reflexivity|]); cbn;
    rewrite ?app_nil_r, <- ?app_assoc; repeat split.
Qed.

Lemma isInvoke_noPacketEffect (d : list Obs) :
  Forall isInvoke d -> Forall noPacketEffect d.
Proof.
  apply Forall_impl. intros []; cbn; tauto.
Qed.

Lemma stopped_noPacketEffect (a b : bool) :
  Forall noPacketEffect (stopped a b).
Proof. destruct a, b; repeat constructor. Qed.

Lemma noPacketEffect_writes (d : list Obs) :
  Forall noPacketEffect d -> writes d = [].
Proof.
  induction 1 as [|o d H _ IH]; [reflexivity|].
  destruct o; try contradiction; exact IH.
Qed.

Lemma noPacketEffect_emissions (e : EventName) (d : list Obs) :
  e <> timeout -> Forall noPacketEffect d -> emissions e d = [].
Proof.
  intros He. induction 1 as [|o d H _ IH]; [reflexivity|].
  destruct o as [e' args| | | | | |]; try contradiction; try exact IH.
  cbn. destruct e'; try contradiction. destruct e; try congruence; exact IH.
Qed.

(** [handleTimeout] in a session whose [timeout] listeners return
    normally: the flag is set, [timeout] is emitted once, the listener is
    taken off the characteristic once, and [destroy] runs. *)
Lemma handleTimeout_spec (w : World) :
  Forall peaceful (l_timeout (listeners w)) ->
  exists w' d,
    handleTimeout w = (Ok tt, w') /\
    Forall isInvoke d /\
    didTimeout w' = true /\
    valuechanged w' = false /\
    timeoutHandle w' = None /\
    link w' = link w /\
    clock w' = clock w /\
    eventChar w' = (eventChar w && negb (stopOk (link w)))%bool /\
    trace w' = trace w ++ [Log "warn" "timeout"; Emit timeout []] ++ d
                 ++ [OffValueChanged]
                 ++ stopped (eventChar w) (stopOk (link w)).
Proof.
  intros P.
  unfold handleTimeout, bind, log, observe, modify.
  match goal with
  | |- context [emit timeout [] ?x] =>
      destruct (emit_ok timeout [] x P) as (w1 & d & E & T & F & Q & _)
  end.
  rewrite E.
  match goal with
  | |- context [destroy ?x] =>
      destruct (destroy_spec x)
        as (w2 & D & _ & Dt & Dc & Dv & Dl & _ & Dh & _ & De & _ & Dtr)
  end.
  rewrite D. exists w2, d.
  split; [reflexivity|]. split; [exact F|].
  destruct Q as [qe qd qc qv qn ql _]. cbn in *.
  repeat split; try congruence.
  rewrite Dtr, T, qe, ql. repeat rewrite <- app_assoc. reflexivity.
Qed.

(** [handleTimeout] whatever the listeners do: the flag is set before
    anything else, and neither a write nor an emission other than
    [timeout] takes place, also when a listener throws and the rest of
    the teardown is skipped. *)
Lemma handleTimeout_flag (w : World) :
  exists r w' d,
    handleTimeout w = (r, w') /\
    didTimeout w' = true /\
    trace w' = trace w ++ d /\
    Forall noPacketEffect d.
Proof.
  unfold handleTimeout, bind at 1 2, log, observe, modify. unfold bind at 1.
  match goal with
  | |- context [emit timeout [] ?x] =>
      destruct (emit_spec timeout [] x)
        as (r & w1 & d & E & T & F & Q & _)
  end.
  rewrite E. cbn [trace set_trace set_didTimeout] in T.
  assert (Hd : didTimeout w1 = true)
    by (rewrite (q_didTimeout _ _ Q); reflexivity).
  destruct r as [[]|err].
  - unfold bind, observe, modify.
    match goal with
    | |- context [destroy ?x] =>
        destruct (destroy_spec x)
          as (w2 & D & _ & Dt & _ & _ & _ & _ & _ & _ & _ & _ & Dtr)
    end.
    rewrite D. eexists. eexists. eexists. split; [reflexivity|].
    split; [rewrite Dt; exact Hd|].
    split; [rewrite Dtr; cbn [trace set_trace set_valuechanged];
            rewrite T, <- !app_assoc; reflexivity|].
    constructor; [exact I|]. constructor; [exact I|].
    apply Forall_app. split; [now apply isInvoke_noPacketEffect|].
    constructor; [exact I|]. apply stopped_noPacketEffect.
  - eexists. eexists. eexists. split; [reflexivity|].
    split; [exact Hd|].
    split; [rewrite T, <- !app_assoc; reflexivity|].
    constructor; [exact I|]. constructor; [exact I|].
    now apply isInvoke_noPacketEffect.
Qed.

Lemma handleValueChange_after_timeout (buf : Buffer) (w : World) :
  didTimeout w = true -> handleValueChange buf w = (Ok tt, w).
Proof.
  intros H. unfold handleValueChange, bind, gets. now rewrite H.
Qed.

Lemma runTimers_after_timeout (fuel : nat) (t : N) (w : World) :
  exists r w' d,
    runTimers fuel t w = (r, w') /\
    (didTimeout w = true -> didTimeout w' = true) /\
    trace w' = trace w ++ d /\
    Forall noPacketEffect d.
Proof.
  revert w. induction fuel as [|fuel IH]; intros w.
  - exists (Ok tt), w, []. cbn. rewrite app_nil_r. repeat split; auto.
  - cbn [runTimers]. unfold bind at 1. unfold gets.
    destruct (nextDue t (pending w)) as [[id due]|].
    + unfold bind, clearTimeout, modify, tryCatch.
      match goal with
      | |- context [handleTimeout ?x] =>
          destruct (handleTimeout_flag x) as (r & w1 & d1 & E & Hd & T & F)
      end.
      rewrite E. cbn [trace set_clock set_pending] in T.
      destruct r as [[]|err].
      * destruct (IH w1) as (r2 & w2 & d2 & E2 & Hd2 & T2 & F2).
        rewrite E2. exists r2, w2, (d1 ++ d2).
        split; [reflexivity|]. split; [auto|].
        split; [now rewrite T2, T, <- app_assoc|].
        now apply Forall_app.
      * unfold observe, modify, throw.
        eexists. eexists. exists (d1 ++ [Uncaught err]).
        split; [reflexivity|]. cbn [didTimeout trace set_trace].
        split; [auto|].
        split; [rewrite T, <- !app_assoc; reflexivity|].
        apply Forall_app. split; [exact F|].
        constructor; [exact I | constructor].
    + exists (Ok tt), w, []. unfold ret. rewrite app_nil_r.
      repeat split; auto.
Qed.

Lemma step_after_timeout (e : Event) (w : World) :
  didTimeout w = true ->
  exists r w' d,
    step e w = (r, w') /\
    didTimeout w' = true /\
    trace w' = trace w ++ d /\
    Forall noPacketEffect d.
Proof.
  intros H. destruct e as [buf|ms]; cbn [step].
  - unfold bind, gets, when.
    destruct (valuechanged w && notifying w)%bool.
    + rewrite handleValueChange_after_timeout by exact H.
      exists (Ok tt), w, []. rewrite app_nil_r. repeat split; auto.
    + exists (Ok tt), w, []. unfold ret. rewrite app_nil_r.
      repeat split; auto.
  - unfold elapse, bind, gets.
    destruct (runTimers_after_timeout (List.length (pending w))
                (clock w + ms)%N w) as (r & w1 & d & E & Hd & T & F).
    rewrite E. unfold modify.
    destruct r as [[]|err]; eexists; eexists; exists d;
      (split; [reflexivity|]); cbn; repeat split; auto.
Qed.

Lemma run_after_timeout (events : list Event) (w : World) :
  didTimeout w = true ->
  exists r w' d,
    run events w = (r, w') /\
    didTimeout w' = true /\
    trace w' = trace w ++ d /\
    Forall noPacketEffect d.
Proof.
  revert w. induction events as [|e rest IH]; intros w H.
  - exists (Ok tt), w, []. cbn. rewrite app_nil_r. repeat split; auto.
  - cbn [run]. unfold bind.
    destruct (step_after_timeout e w H)
      as (r1 & w1 & d1 & E1 & H1 & T1 & F1).
    rewrite E1. destruct r1 as [[]|err].
    + destruct (IH w1 H1) as (r2 & w2 & d2 & E2 & H2 & T2 & F2).
      rewrite E2. exists r2, w2, (d1 ++ d2).
      split; [reflexivity|]. split; [exact H2|]. split.
      * now rewrite T2, T1, app_assoc.
      * now apply Forall_app.
    + exists (Threw err), w1, d1. repeat split; auto.
Qed.

(** C10.  [handleTimeout] sets the flag before anything else, whatever
    the [timeout] listeners do and whether or not [stopNotifications]
    resolves; from then on a call of [handleValueChange] changes nothing
    at all, and whatever happens to the session afterwards, nothing is
    written and no [data], [liveupdate] or [measurement] is emitted. *)
Theorem notifications_after_timeout_dropped :
  (forall w, didTimeout (exec handleTimeout w) = true) /\
  (forall w buf,
      didTimeout w = true -> handleValueChange buf w = (Ok tt, w)) /\
  (forall w events,
      didTimeout w = true ->
      let w' := exec (run events) w in
      didTimeout w' = true /\
      exists d,
        trace w' = trace w ++ d /\
        writes d = [] /\
        emissions data d = [] /\
        emissions liveupdate d = [] /\
        emissions measurement d = []).
Proof.
  split; [|split].
  - intros w. unfold exec.
    destruct (handleTimeout_flag w) as (r & w' & d & E & H & _).
    now rewrite E.
  - intros w buf H. now apply handleValueChange_after_timeout.
  - intros w events H. cbv zeta. unfold exec.
    destruct (run_after_timeout events w H)
      as (r & w' & d & E & H' & T & F).
    rewrite E. cbn [snd]. split; [exact H'|].
    exists d. split; [exact T|].
    split; [now apply noPacketEffect_writes|].
    repeat split; apply noPacketEffect_emissions; auto; discriminate.
Qed.

(** A session on a link that rejects [stopNotifications] stays idle for
    ten seconds: the timer fires, the unsubscription fails and the
    characteristic goes on notifying.  A frame handed to
    [handleValueChange] afterwards changes nothing, and the frames and
    the time that follow leave no trace of packet handling. *)
Lemma notifications_after_timeout_dropped_witness :
  let w := exec (run [Elapse 10000])
                (exec (startListening 10)
                      (newScale {| lookupOk := true; startOk := true;
                                   writeOk := true; stopOk := false |})) in
  let frame := [x10; x07; x15; x04; x4c; x01; x7e] in
  let w' := exec (run [Notify frame; Notify [x12; x00; x00]; Elapse 20000;
                      Notify [x14; x00; x00]]) w in
  (didTimeout w = true /\ notifying w = true /\ eventChar w = true) /\
  handleValueChange frame w = (Ok tt, w) /\
  didTimeout w' = true /\
  exists d,
    trace w' = trace w ++ d /\
    writes d = [] /\
    emissions data d = [] /\
    emissions liveupdate d = [] /\
    emissions measurement d = [].
Proof.
  cbv zeta. split; [repeat split|]. split.
  - apply (proj1 (proj2 notifications_after_timeout_dropped)).
    reflexivity.
  - apply (proj2 (proj2 notifications_after_timeout_dropped)
             (exec (run [Elapse 10000])
                   (exec (startListening 10)
                         (newScale {| lookupOk := true; startOk := true;
                                      writeOk := true;
                                      stopOk := false |})))).
    reflexivity.
Defined.

(** A [timeout] listener that throws: the exception escapes
    [handleTimeout] before the listener on the characteristic is removed
    and before [destroy] is called, and the process ends there, with the
    flag set. *)
Example throwing_timeout_listener_is_uncaught :
  let w := exec (on timeout (Some (External 1 true)) ;;
                 startListening 10)%js (newScale goodLink) in
  let w' := exec (run [Elapse 10000]) w in
  outcome (run [Elapse 10000; Notify [x12; x00; x00]]) w
  = Threw "listener threw" /\
  exec (run [Elapse 10000; Notify [x12; x00; x00]]) w = w' /\
  didTimeout w' = true /\ valuechanged w' = true /\ notifying w' = true /\
  trace w'
  = [Log "info" "Listening for data packets..."; Log "warn" "timeout";
     Emit timeout []; Invoke 1 []; Uncaught "listener threw"].
Proof. cbv zeta. repeat (split; [vm_compute; reflexivity|]). reflexivity. Qed.

Lemma destroy_noop (w : World) :
  timeoutHandle w = None -> eventChar w = false -> destroy w = (Ok tt, w).
Proof.
  destruct w. cbn. intros -> ->. reflexivity.
Qed.

Lemma destroy_iter (w : World) (n : nat) :
  timeoutHandle w = None -> eventChar w = false ->
  Nat.iter n (exec destroy) w = w.
Proof.
  intros Hh He. induction n as [|n IH]; [reflexivity|].
  rewrite Nat.iter_succ, IH. unfold exec.
  now rewrite (destroy_noop w Hh He).
Qed.

Lemma emissions_stopped (e : EventName) (a b : bool) :
  emissions e (stopped a b) = [].
Proof. destruct a, b; reflexivity. Qed.

Lemma stops_stopped (a b : bool) :
  stops (stopped a b) = if a then 1%nat else 0%nat.
Proof. destruct a, b; reflexivity. Qed.

(** C5, as the class has it.  [destroy] never throws, however the link
    behaves.  It cancels the timer of the session, calls
    [stopNotifications] once if [eventChar] is set and not at all
    otherwise, emits nothing, and leaves every listener registered.  Once
    [stopNotifications] has resolved, [eventChar] is unset and any number
    of further calls change nothing and observe nothing. *)
Theorem destroy_idempotent (w : World) :
  let w1 := exec destroy w in
  outcome destroy w = Ok tt /\
  outcome destroy w1 = Ok tt /\
  timeoutHandle w1 = None /\
  (forall id due, timeoutHandle w = Some id -> ~ In (id, due) (pending w1)) /\
  listeners w1 = listeners w /\
  (exists d,
      trace w1 = trace w ++ d /\
      (forall e, emissions e d = []) /\
      stops d = if eventChar w then 1%nat else 0%nat) /\
  (stopOk (link w) = true ->
   eventChar w1 = false /\
   forall n, Nat.iter n (exec destroy) w1 = w1).
Proof.
  cbv zeta. unfold exec at 1 2 3 4 5 6 7, outcome.
  destruct (destroy_spec w)
    as (w1 & D & Hl & _ & _ & _ & Hk & _ & Hh & Hp & He & _ & Ht).
  rewrite D. cbn [fst snd].
  destruct (destroy_spec w1) as (w2 & D2 & _).
  rewrite D2. cbn [fst].
  do 3 (split; [reflexivity || assumption|]).
  split.
  { intros id due Hid Hin. rewrite Hp, Hid in Hin.
    apply filter_In in Hin. destruct Hin as [_ Hne]. cbn in Hne.
    now rewrite Nat.eqb_refl in Hne. }
  split; [exact Hl|].
  split.
  { eexists. split; [exact Ht|]. split.
    - intros e. apply emissions_stopped.
    - apply stops_stopped. }
  intros Hs. rewrite Hs, andb_false_r in He. split; [exact He|].
  intros n. change (fun w0 : World => snd (destroy w0)) with (exec destroy).
  unfold exec at 2 3. rewrite D. cbn [snd]. now apply destroy_iter.
Qed.

(** A listening session with its timer armed is destroyed twice. *)
Lemma destroy_idempotent_witness :
  let w := exec (startListening 10) (newScale goodLink) in
  let w1 := exec destroy w in
  eventChar w1 = false /\ forall n, Nat.iter n (exec destroy) w1 = w1.
Proof.
  apply (proj2 (proj2 (proj2 (proj2 (proj2 (proj2
           (destroy_idempotent
              (exec (startListening 10) (newScale goodLink))))))))).
  reflexivity.
Defined.

(** C5, as stated, fails: [destroy] does not clear the event
    registrations.  A listener registered for [liveupdate], and the
    listener [startListening] registers for [data], are still registered
    after [destroy]. *)
Lemma destroy_keeps_listeners :
  let w := exec (on liveupdate (Some (External 1 false)) ;;
                 startListening 10)%js (newScale goodLink) in
  listenersOf liveupdate (listeners (exec destroy w)) = [External 1 false] /\
  listenersOf data (listeners (exec destroy w)) = [resetTimerListener 10] /\
  listenersOf liveupdate (listeners (exec destroy w)) <> [].
Proof.
  cbv zeta. repeat split. discriminate.
Qed.

(** C9 at the failing input.  The on-connect callback subscribes to the
    first packet with [scale.once("data", h)]; the session then listens
    with a ten-second window.  A frame arrives after nine seconds and is
    emitted as [data], but the once-wrapper removes itself from the array
    being walked and the listener that resets the timer is skipped: the
    timer is still due at ten seconds, and [timeout] is emitted one second
    after the notification.  With [scale.on] in place of [scale.once] the
    same frame moves the deadline to nineteen seconds. *)
Theorem once_data_listener_blocks_timer_reset :
  let frame := [x10; x07; x15; x04; x4c; x00; x7e] in
  let session (r : Registration) :=
    exec (setUp {| onConnect := Some {| registrations := [r];
                                        throws := false |};
                   runOnce := false |}) (newScale goodLink) in
  let w0 := session (RegisterOnce data 1 false) in
  let w1 := exec (run [Elapse 9000; Notify frame]) w0 in
  let w2 := exec (run [Elapse 1000]) w1 in
  listenersOf data (listeners w0)
  = [wrappedHandler 0 data (External 1 false); resetTimerListener 10] /\
  map snd (pending w0) = [10000%N] /\
  clock w1 = 9000%N /\
  emissions data (trace w1) = [[VObject (parseIncomingPacket frame)]] /\
  emissions timeout (trace w1) = [] /\
  map snd (pending w1) = [10000%N] /\
  clock w2 = 10000%N /\
  emissions timeout (trace w2) = [[]] /\
  map snd (pending (exec (run [Elapse 9000; Notify frame])
                         (session (RegisterOn data 1 false)))) = [19000%N].
Proof.
  cbv zeta. repeat split.
Qed.

(* ================================================================== *)
(** * The idle timer *)
(* ================================================================== *)

Lemma Tidy_filter (w : World) (id : nat) :
  Tidy w -> timeoutHandle w = Some id ->
  filter (fun t => negb (Nat.eqb (fst t) id)) (pending w) = [].
Proof.
  intros T H. unfold Tidy in T.
  induction (pending w) as [|t rest IH]; [reflexivity|].
  cbn. assert (Ht : fst t = id).
  { specialize (T t (or_introl eq_refl)). congruence. }
  rewrite Ht, Nat.eqb_refl. cbn. apply IH.
  intros t' Hin. apply T. now right.
Qed.

Lemma Tidy_none (w : World) :
  Tidy w -> timeoutHandle w = None -> pending w = [].
Proof.
  intros T H. destruct (pending w) as [|t rest] eqn:P; [reflexivity|].
  specialize (T t). rewrite P in T. specialize (T (or_introl eq_refl)).
  congruence.
Qed.

(** [resetTimer] leaves exactly one timer pending, due a full window from
    now. *)
Lemma resetTimer_armed (secs : N) (w : World) :
  Tidy w ->
  exists w',
    resetTimer secs w = (Ok tt, w') /\
    timeoutHandle w' = Some (fresh w) /\
    pending w' = [(fresh w, (clock w + secs * 1000)%N)] /\
    listeners w' = listeners w /\
    Tidy w'.
Proof.
  intros T.
  unfold resetTimer, bind, gets, modify, ret, setTimeout, clearTimeout.
  destruct (timeoutHandle w) as [id|] eqn:H.
  - eexists. split; [reflexivity|]. cbn.
    rewrite (Tidy_filter w id T H). cbn.
    repeat split. intros t [<-|[]]. reflexivity.
  - eexists. split; [reflexivity|]. cbn.
    rewrite (Tidy_none w T H). cbn.
    repeat split. intros t [<-|[]]. reflexivity.
Qed.

Lemma callHandler_tidy (h : Handler) (args : list value) (w : World) :
  Tidy w -> Tidy (exec (callHandler h args) w).
Proof.
  revert w. induction h as [id t|serial e h IH|secs|e]; intros w T.
  - unfold exec. cbn [callHandler]. unfold bind, observe, modify, throw, ret.
    destruct t; exact T.
  - unfold exec. cbn [callHandler]. unfold bind.
    destruct (off_spec e (Some (wrappedHandler serial e h)) w)
      as (w1 & -> & _ & _ & P1 & H1 & _).
    apply (IH w1). intros t Hin. rewrite P1 in Hin. rewrite H1. now apply T.
  - unfold exec. cbn [callHandler].
    destruct (resetTimer_armed secs w T) as (w' & -> & _ & _ & _ & T').
    exact T'.
  - unfold exec. cbn [callHandler]. unfold bind, gets, modify, ret.
    destruct (raiseFlag w); exact T.
Qed.

Lemma forEach_tidy (e : EventName) (args : list value) (n k : nat)
    (w : World) :
  Tidy w -> Tidy (exec (forEach e (fun fn => callHandler fn args) k n) w).
Proof.
  revert k w. induction n as [|n IH]; intros k w T; [exact T|].
  unfold exec. cbn [forEach]. unfold bind at 1. unfold getListeners, gets.
  unfold bind at 1.
  destruct (nth_error _ k) as [h|].
  - pose proof (callHandler_tidy h args w T) as T1. unfold exec in T1.
    destruct (callHandler h args w) as [[[]|err] w1]; cbn [snd] in T1 |- *.
    + apply (IH (S k) w1 T1).
    + exact T1.
  - unfold ret at 1. apply (IH (S k) w T).
Qed.

Lemma emit_tidy (e : EventName) (args : list value) (w : World) :
  Tidy w -> Tidy (exec (emit e args) w).
Proof.
  intros T. unfold exec, emit, bind, observe, modify, getListeners, gets.
  apply forEach_tidy. exact T.
Qed.

Lemma handleTimeout_clears (w : World) :
  Forall peaceful (l_timeout (listeners w)) ->
  Tidy w -> pending (exec handleTimeout w) = [].
Proof.
  intros P T. unfold exec, handleTimeout, bind, log, observe, modify.
  match goal with
  | |- context [emit timeout [] ?x] =>
      pose proof (emit_tidy timeout [] x T) as T1;
      destruct (emit_ok timeout [] x P) as (w1 & d & E & _)
  end.
  unfold exec in T1. rewrite E in T1 |- *. cbn [snd] in T1.
  match goal with
  | |- context [destroy ?x] =>
      destruct (destroy_spec x)
        as (w2 & D & _ & _ & _ & _ & _ & _ & _ & Pw & _)
  end.
  rewrite D. cbn [snd]. rewrite Pw. cbn [timeoutHandle pending set_trace
    set_valuechanged].
  destruct (timeoutHandle w1) as [id|] eqn:H.
  - now apply Tidy_filter.
  - now apply Tidy_none.
Qed.

Lemma nextDue_In (t : N) (timers : list (nat * N)) (id : nat) (due : N) :
  nextDue t timers = Some (id, due) -> In (id, due) timers /\ (due <= t)%N.
Proof.
  revert id due. induction timers as [|[i d] rest IH]; intros id due H;
    [discriminate|].
  cbn [nextDue] in H.
  destruct (nextDue t rest) as [[i' d']|].
  - destruct (IH i' d' eq_refl) as (Hin & Hle).
    destruct (N.leb_spec d d'); injection H as <- <-.
    + split; [now left | lia].
    + split; [now right | exact Hle].
  - destruct (N.leb_spec d t); [|discriminate].
    injection H as <- <-. split; [now left | assumption].
Qed.

Lemma nextDue_None (t : N) (timers : list (nat * N)) :
  nextDue t timers = None -> forall x, In x timers -> (t < snd x)%N.
Proof.
  induction timers as [|[i d] rest IH]; intros H x Hin; [contradiction|].
  cbn [nextDue] in H.
  destruct (nextDue t rest) as [[i' d']|].
  - destruct (N.leb_spec d d'); discriminate.
  - destruct (N.leb_spec d t); [discriminate|].
    destruct Hin as [<-|Hin]; [exact H0 | now apply IH].
Qed.

Lemma nextDue_some (t : N) (timers : list (nat * N)) :
  (exists x, In x timers /\ (snd x <= t)%N) ->
  exists id due,
    nextDue t timers = Some (id, due) /\ In (id, due) timers /\ (due <= t)%N.
Proof.
  intros (x & Hin & Hx).
  destruct (nextDue t timers) as [[id due]|] eqn:E.
  - exists id, due. split; [reflexivity|]. now apply nextDue_In.
  - pose proof (nextDue_None t timers E x Hin). lia.
Qed.

Lemma unsubscriptions_app (a b : list Obs) :
  unsubscriptions (a ++ b) = (unsubscriptions a + unsubscriptions b)%nat.
Proof. unfold unsubscriptions. now rewrite filter_app, length_app. Qed.

Lemma stops_app (a b : list Obs) : stops (a ++ b) = (stops a + stops b)%nat.
Proof. unfold stops. now rewrite filter_app, length_app. Qed.

Lemma unsubscriptions_invokes (d : list Obs) :
  Forall isInvoke d -> unsubscriptions d = 0%nat.
Proof.
  induction 1 as [|o d H _ IH]; [reflexivity|].
  destruct o; try contradiction. exact IH.
Qed.

Lemma stops_invokes (d : list Obs) : Forall isInvoke d -> stops d = 0%nat.
Proof.
  induction 1 as [|o d H _ IH]; [reflexivity|].
  destruct o; try contradiction. exact IH.
Qed.

Lemma runTimers_idle (fuel : nat) (t : N) (w : World) :
  pending w = [] -> runTimers fuel t w = (Ok tt, w).
Proof.
  intros P. destruct fuel; [reflexivity|].
  cbn [runTimers]. unfold bind, gets. now rewrite P.
Qed.

(** The timer of an idle session fires once: [timeout] is emitted once,
    the listener is taken off the characteristic once, [stopNotifications]
    is called once if the session was listening, and no timer is left. *)
Lemma elapse_fires_once (w : World) (ms : N) :
  Tidy w ->
  Forall peaceful (l_timeout (listeners w)) ->
  (exists t, In t (pending w) /\ (snd t <= clock w + ms)%N) ->
  exists w' d,
    elapse ms w = (Ok tt, w') /\
    pending w' = [] /\
    didTimeout w' = true /\
    trace w' = trace w ++ d /\
    emissions timeout d = [[]] /\
    unsubscriptions d = 1%nat /\
    stops d = if eventChar w then 1%nat else 0%nat.
Proof.
  intros T Pt Due.
  destruct (nextDue_some _ _ Due) as (id & due & N & Hin & Hle).
  unfold elapse, bind at 1 2 3, gets.
  destruct (pending w) as [|t0 rest] eqn:P; [contradiction|].
  cbn [List.length runTimers]. unfold bind at 1, gets. rewrite P, N.
  unfold bind at 1 2 3, clearTimeout, modify. rewrite P.
  assert (Hh : timeoutHandle w = Some id).
  { apply (T (id, due)). now rewrite P. }
  pose proof (Tidy_filter w id T Hh) as Fl. rewrite P in Fl. rewrite Fl.
  unfold tryCatch.
  match goal with
  | |- context [handleTimeout ?x] =>
      assert (Tx : Tidy x) by (intros ? []);
      pose proof (handleTimeout_clears x Pt Tx) as Cl;
      destruct (handleTimeout_spec x Pt)
        as (w1 & d & E & F & Hd & _ & _ & _ & _ & _ & Tr)
  end.
  unfold exec in Cl. rewrite E in Cl |- *. cbn [snd] in Cl.
  rewrite (runTimers_idle _ _ w1 Cl).
  eexists. eexists. split; [reflexivity|].
  cbn [pending didTimeout trace set_clock].
  split; [exact Cl|]. split; [exact Hd|]. split; [exact Tr|].
  cbn [eventChar link set_clock set_pending].
  rewrite !unsubscriptions_app, !stops_app,
    (unsubscriptions_invokes d F), (stops_invokes d F).
  summarize. rewrite emissions_stopped, stops_stopped.
  repeat split. destruct (eventChar w), (stopOk (link w)); reflexivity.
Qed.

(** After that nothing happens any more. *)
Lemma closed_session_silent (events : list Event) (w : World) :
  pending w = [] -> didTimeout w = true ->
  exists w',
    run events w = (Ok tt, w') /\
    trace w' = trace w /\ pending w' = [] /\ didTimeout w' = true.
Proof.
  revert w. induction events as [|e rest IH]; intros w P H.
  - exists w. repeat split; auto.
  - cbn [run]. unfold bind.
    assert (S : exists w1, step e w = (Ok tt, w1) /\ trace w1 = trace w /\
                           pending w1 = [] /\ didTimeout w1 = true).
    { destruct e as [buf|ms]; cbn [step].
      - unfold bind, gets, when.
        destruct (valuechanged w && notifying w)%bool.
        + rewrite handleValueChange_after_timeout by exact H.
          exists w. repeat split; auto.
        + exists w. repeat split; auto.
      - unfold elapse, bind, gets. rewrite P. cbn [List.length runTimers].
        unfold ret, modify. eexists. split; [reflexivity|].
        cbn. repeat split; auto. }
    destruct S as (w1 & -> & T1 & P1 & H1).
    destruct (IH w1 P1 H1) as (w2 & -> & T2 & P2 & H2).
    exists w2. repeat split; auto. congruence.
Qed.

(** In a listening session whose [timeout] listeners return normally and
    whose timer comes due while time passes, [timeout] is emitted exactly
    once and the subscription is removed exactly once, whatever happens
    afterwards. *)
Lemma idle_session_times_out_once (w : World) (ms : N)
    (events : list Event) :
  Tidy w ->
  Forall peaceful (l_timeout (listeners w)) ->
  eventChar w = true ->
  (exists t, In t (pending w) /\ (snd t <= clock w + ms)%N) ->
  exists d,
    trace (exec (run (Elapse ms :: events)) w) = trace w ++ d /\
    emissions timeout d = [[]] /\
    unsubscriptions d = 1%nat /\
    stops d = 1%nat.
Proof.
  intros T Pt Ec Due.
  destruct (elapse_fires_once w ms T Pt Due)
    as (w1 & d & E & P & H & Tr & Em & Un & St).
  destruct (closed_session_silent events w1 P H) as (w2 & R & T2 & _).
  unfold exec. cbn [run step]. unfold bind. rewrite E, R. cbn [snd].
  exists d. rewrite T2, Ec in *. repeat split; auto.
Qed.

(** [startListening] on a link that works: the session is subscribed, the
    timer is armed for a full window, and the listener that resets it is
    the last [data] listener. *)
Lemma startListening_armed (secs : N) (w : World) :
  eventChar w = false ->
  lookupOk (link w) = true ->
  startOk (link w) = true ->
  Tidy w ->
  exists w',
    startListening secs w = (Ok tt, w') /\
    eventChar w' = true /\ didTimeout w' = false /\
    valuechanged w' = true /\ notifying w' = true /\
    pending w' = [(fresh w, (clock w + secs * 1000)%N)] /\
    Tidy w' /\
    clock w' = clock w /\
    listeners w'
    = withListeners data (l_data (listeners w) ++ [resetTimerListener secs])
                    (listeners w).
Proof.
  intros Ec Lo So T.
  assert (P : match timeoutHandle w with
              | Some id =>
                  filter (fun t => negb (Nat.eqb (fst t) id)) (pending w)
              | None => pending w
              end = []).
  { destruct (timeoutHandle w) eqn:H;
      [now apply Tidy_filter | now apply Tidy_none]. }
  destruct w as [L th ec dt ck pd fr vc nt [lo so wo sto] rf tr].
  cbn in Ec, Lo, So, P. subst ec lo so.
  unfold startListening, resetTimer, setTimeout, clearTimeout, on,
    getListeners, setListeners, bind, gets, modify, log, observe, ret.
  destruct th as [id|]; cbn in P |- *; rewrite P;
    (eexists; split; [reflexivity|]); cbn;
    repeat split; intros t [<-|[]]; reflexivity.
Qed.

(** Listeners that do not reset the timer leave it as it is. *)
Lemma callHandler_timerFree (h : Handler) (args : list value) (w : World) :
  timerFree h ->
  exists r w',
    callHandler h args w = (r, w') /\
    pending w' = pending w /\ timeoutHandle w' = timeoutHandle w /\
    fresh w' = fresh w /\ Shrinks w w'.
Proof.
  revert w. induction h as [id t|serial e h IH|secs|e]; intros w F;
    cbn [timerFree] in F; try contradiction.
  - cbn [callHandler]. unfold bind, observe, modify, throw, ret.
    destruct t; eexists; eexists; (split; [reflexivity|]);
      repeat split; now apply Shrinks_same.
  - cbn [callHandler]. unfold bind.
    destruct (off_spec e (Some (wrappedHandler serial e h)) w)
      as (w1 & -> & _ & Sh1 & P1 & H1 & F1).
    destruct (IH w1 F) as (r & w2 & -> & P2 & H2 & F2 & Sh2).
    exists r, w2. split; [reflexivity|].
    repeat split; try congruence. eapply Shrinks_trans; eauto.
  - cbn [callHandler]. unfold bind, gets, modify, ret.
    destruct (raiseFlag w); eexists; eexists; (split; [reflexivity|]);
      repeat split; now apply Shrinks_same.
Qed.

Lemma forEach_timerFree (e : EventName) (args : list value) (n k : nat)
    (w : World) :
  Forall timerFree (listenersOf e (listeners w)) ->
  exists r w',
    forEach e (fun fn => callHandler fn args) k n w = (r, w') /\
    pending w' = pending w /\ timeoutHandle w' = timeoutHandle w /\
    fresh w' = fresh w.
Proof.
  revert k w. induction n as [|n IH]; intros k w F.
  - exists (Ok tt), w. repeat split.
  - cbn [forEach]. unfold bind at 1. unfold getListeners, gets.
    unfold bind at 1.
    destruct (nth_error _ k) as [h|] eqn:N.
    + assert (Fh : timerFree h).
      { rewrite Forall_forall in F. apply F. eapply nth_error_In; eauto. }
      destruct (callHandler_timerFree h args w Fh)
        as (r & w1 & -> & P1 & H1 & F1 & Sh).
      destruct r as [[]|err].
      * destruct (IH (S k) w1 (Sh e timerFree F))
          as (r2 & w2 & -> & P2 & H2 & F2).
        exists r2, w2. repeat split; congruence.
      * exists (Threw err), w1. repeat split; assumption.
    + unfold ret at 1. apply (IH (S k) w F).
Qed.

Lemma emit_timerFree (e : EventName) (args : list value) (w : World) :
  Forall timerFree (listenersOf e (listeners w)) ->
  exists r w',
    emit e args w = (r, w') /\
    pending w' = pending w /\ timeoutHandle w' = timeoutHandle w /\
    fresh w' = fresh w.
Proof.
  intros F. unfold emit, bind at 1, observe, modify. unfold bind at 1.
  unfold getListeners, gets. cbn [listeners set_trace].
  destruct (forEach_timerFree e args
              (List.length (listenersOf e (listeners w))) 0
              (set_trace (trace w ++ [Emit e args]) w) F)
    as (r & w' & -> & P & H & Fr).
  exists r, w'. repeat split; assumption.
Qed.

(** In a session that has not timed out, whose [data] listeners are
    external listeners registered with [on] that return normally, followed
    by the listener of [startListening], a frame of any kind leaves the
    timer due a full window after its arrival. *)
Lemma notification_resets_deadline (buf : Buffer) (w : World)
    (ids : list nat) (secs : N) :
  didTimeout w = false ->
  Tidy w ->
  l_data (listeners w)
  = map (fun id => External id false) ids ++ [resetTimerListener secs] ->
  Forall timerFree (l_liveupdate (listeners w)) ->
  Forall timerFree (l_measurement (listeners w)) ->
  exists w',
    handleValueChange buf w = (Ok tt, w') /\
    pending w' = [(fresh w, (clock w + secs * 1000)%N)] /\
    timeoutHandle w' = Some (fresh w).
Proof.
  intros Hd T Ld Fl Fm.
  assert (Pl : Forall plain (map (fun id => External id false) ids
                             ++ [resetTimerListener secs])).
  { apply Forall_app. split; [apply Forall_plain_external|].
    repeat constructor. }
  unfold handleValueChange, bind at 1, gets. rewrite Hd.
  unfold tryCatch, handlePacket, bind at 1, log, observe, modify.
  unfold bind at 1.
  rewrite emit_plain by (cbn; rewrite Ld; exact Pl).
  cbn [listenersOf listeners set_trace]. rewrite Ld.
  unfold bind at 1, observe, modify.
  rewrite callAll_app. unfold bind at 1. rewrite callAll_external.
  cbn [callAll callHandler]. unfold bind at 1.
  match goal with
  | |- context [resetTimer secs ?x] =>
      assert (Tx : Tidy x) by exact T;
      destruct (resetTimer_armed secs x Tx) as (w2 & -> & H2 & P2 & L2 & T2)
  end.
  cbn [fresh clock set_trace] in H2, P2. cbn [listeners set_trace] in L2.
  unfold ret at 1.
  destruct (switchPacketId (parseIncomingPacket buf)).
  - unfold bind, log, observe, modify. rewrite sendCommand_spec.
    destruct (writeOk _); eexists; (split; [reflexivity|]); cbn; auto.
  - unfold bind, log, observe, modify. rewrite sendCommand_spec.
    destruct (writeOk _); eexists; (split; [reflexivity|]); cbn; auto.
  - unfold bind at 1. rewrite dataIndex_parse.
    destruct (strictEq (index buf 5) 0).
    + destruct (emit_timerFree liveupdate
                  [get "weightValue" (parseIncomingPacket buf)] w2
                  ltac:(cbn; rewrite L2; exact Fl))
        as (r4 & w4 & -> & P4 & H4 & _).
      destruct r4 as [[]|err];
        eexists; (split; [reflexivity|]); cbn; split; congruence.
    + destruct (strictEq (index buf 5) 1);
        [|eexists; split; [reflexivity|]; auto].
      unfold bind at 1 2, log, observe, modify. rewrite sendCommand_spec.
      cbn [link set_trace trace].
      destruct (writeOk (link w2)).
      * match goal with
        | |- context [emit measurement ?a ?x] =>
            destruct (emit_timerFree measurement a x
                        ltac:(cbn; rewrite L2; exact Fm))
              as (r4 & w4 & -> & P4 & H4 & _)
        end.
        cbn in P4, H4.
        destruct r4 as [[]|err];
          eexists; (split; [reflexivity|]); cbn; split; congruence.
      * eexists. split; [reflexivity|]. cbn. auto.
  - unfold log, observe, modify. eexists. split; [reflexivity|]. cbn. auto.
Qed.

(* ================================================================== *)
(** * Sessions as runMessageLoop sets them up *)
(* ================================================================== *)

(** Subscribing listeners touches neither the timer nor the link, and
    subscribing listeners that return normally leaves only such
    listeners. *)
Lemma registerAll_spec (rs : list Registration) (w : World) :
  exists w',
    registerAll rs w = (Ok tt, w') /\
    eventChar w' = eventChar w /\ link w' = link w /\
    timeoutHandle w' = timeoutHandle w /\ pending w' = pending w /\
    clock w' = clock w /\ trace w' = trace w /\
    (Forall calm rs -> allPeaceful w -> allPeaceful w').
Proof.
  revert w. induction rs as [|r rs IH]; intros w.
  - exists w. repeat split; auto.
  - cbn [registerAll]. unfold bind.
    assert (R : exists w1, register r w = (Ok tt, w1) /\
                  eventChar w1 = eventChar w /\ link w1 = link w /\
                  timeoutHandle w1 = timeoutHandle w /\
                  pending w1 = pending w /\ clock w1 = clock w /\
                  trace w1 = trace w /\
                  (calm r -> allPeaceful w -> allPeaceful w1)).
    { destruct r as [e id t|e id t]; cbn [register calm];
        unfold once, on, bind, getListeners, setListeners, gets, modify;
        eexists; (split; [reflexivity|]);
        do 6 (split; [reflexivity|]);
        intros -> A e'; cbn [listeners set_listeners set_fresh];
        rewrite listenersOf_with;
        (destruct (EventName_eqb e e') eqn:Ee; [|apply A]);
        apply Forall_app; (split; [apply A|]); repeat constructor. }
    destruct R as (w1 & -> & E1 & L1 & H1 & P1 & C1 & T1 & A1).
    destruct (IH w1) as (w2 & -> & E2 & L2 & H2 & P2 & C2 & T2 & A2).
    exists w2. repeat split; try congruence.
    intros F A. inversion F; subst. auto.
Qed.

(** [setUp] rejects exactly when the on-connect callback throws, a lookup
    rejects or [startNotifications] rejects; otherwise it leaves a
    listening session with its timer due in ten seconds. *)
Lemma setUp_spec (opts : Opts) (l : Link) :
  let failing :=
    (match onConnect opts with Some f => throws f | None => false end
     || negb (lookupOk l) || negb (startOk l))%bool in
  exists r w,
    setUp opts (newScale l) = (r, w) /\
    if failing then exists e, r = Threw e
    else r = Ok tt /\
         eventChar w = true /\ didTimeout w = false /\
         valuechanged w = true /\ notifying w = true /\
         Tidy w /\ clock w = 0%N /\
         map snd (pending w) = [10000%N] /\
         raiseFlag w = Waiting /\
         (calmOpts opts -> allPeaceful w).
Proof.
  cbv zeta.
  set (w0 := exec (on timeout (Some (raiseFlagListener timeout)) ;;
                   on measurement (Some (raiseFlagListener measurement)))%js
                  (newScale l)).
  assert (E0 : setUp opts (newScale l)
               = (callOnConnect opts ;;
                  (startListening 10 ;; modify (set_raiseFlag Waiting)))%js w0)
    by reflexivity.
  rewrite E0. clear E0.
  assert (A0 : allPeaceful w0) by (intros []; repeat constructor).
  assert (C : exists w1,
             callOnConnect opts w0
             = (if match onConnect opts with
                   | Some f => throws f
                   | None => false
                   end
                then Threw "onConnect threw" else Ok tt, w1) /\
             eventChar w1 = false /\ link w1 = l /\
             timeoutHandle w1 = None /\ pending w1 = [] /\
             clock w1 = 0%N /\
             (calmOpts opts -> allPeaceful w1)).
  { unfold callOnConnect, calmOpts. destruct (onConnect opts) as [f|].
    - unfold bind.
      destruct (registerAll_spec (registrations f) w0)
        as (w1 & -> & E1 & L1 & H1 & P1 & C1 & _ & A1).
      exists w1. split; [destruct (throws f); reflexivity|].
      repeat split; auto.
    - exists w0. repeat split. auto. }
  destruct C as (w1 & C & E1 & L1 & H1 & P1 & C1 & A1).
  unfold bind at 1. rewrite C.
  destruct (match onConnect opts with
            | Some f => throws f
            | None => false
            end).
  { cbn [orb]. eexists. eexists. split; [reflexivity|]. now eexists. }
  cbn [orb]. unfold bind at 1.
  destruct (lookupOk l) eqn:Lo; cbn [negb orb].
  - destruct (startOk l) eqn:So; cbn [negb].
    + assert (T1 : Tidy w1) by (intros t Hin; rewrite P1 in Hin; destruct Hin).
      destruct (startListening_armed 10 w1 E1
                  ltac:(rewrite L1; exact Lo) ltac:(rewrite L1; exact So) T1)
        as (w2 & -> & E2 & D2 & V2 & N2 & P2 & T2 & C2 & L2).
      unfold modify. eexists. eexists. split; [reflexivity|].
      cbn. rewrite P2, C1. repeat split; auto; try congruence.
      intros Co e. cbn [listeners set_raiseFlag]. rewrite L2.
      rewrite listenersOf_with.
      destruct (EventName_eqb data e) eqn:Ee; [|now apply A1].
      apply Forall_app. split; [apply (A1 Co data)|repeat constructor].
    + unfold startListening, bind, gets, log, observe, modify, ret, throw.
      rewrite E1. cbn [link set_trace]. rewrite L1, Lo.
      cbn [link set_trace set_didTimeout set_valuechanged]. rewrite L1, So.
      eexists. eexists. split; [reflexivity|]. now eexists.
  - unfold startListening, bind, gets, log, observe, modify, ret, throw.
    rewrite E1. cbn [link set_trace]. rewrite L1, Lo.
    eexists. eexists. split; [reflexivity|]. now eexists.
Qed.

(** The sessions of [runMessageLoop]: whatever listeners the on-connect
    callback subscribes, a session that gets no
    notification within its ten seconds emits [timeout] exactly once (its
    listeners returning normally), has
    its listener taken off the characteristic once and
    [stopNotifications] called once, whatever happens afterwards. *)
Lemma supervised_session_times_out_once (opts : Opts) (l : Link) (ms : N)
    (events : list Event) :
  calmOpts opts ->
  outcome (setUp opts) (newScale l) = Ok tt ->
  (10000 <= ms)%N ->
  let w := exec (setUp opts) (newScale l) in
  exists d,
    trace (exec (run (Elapse ms :: events)) w) = trace w ++ d /\
    emissions timeout d = [[]] /\
    unsubscriptions d = 1%nat /\
    stops d = 1%nat.
Proof.
  intros Co O Hms. cbv zeta. unfold outcome, exec in *.
  destruct (setUp_spec opts l) as (r & w & E & H).
  rewrite E in O |- *. cbn [fst snd] in O |- *. subst r.
  destruct (_ || _ || _)%bool; [destruct H as (e & H); discriminate|].
  destruct H as (_ & Ec & _ & _ & _ & T & C & P & _ & A).
  apply idle_session_times_out_once; auto; [exact (A Co timeout)|].
  destruct (pending w) as [|[id due] rest]; [discriminate|].
  cbn in P. injection P as -> _. exists (id, 10000%N).
  split; [now left|]. cbn. lia.
Qed.

(** The errors that make a pass reject. *)
Lemma connectAndHandle_rejects (opts : Opts) (a : Attempt) (s : Loop) :
  connectOk a = false \/
  (exists f, onConnect opts = Some f /\ throws f = true) \/
  lookupOk (gatt a) = false \/ startOk (gatt a) = false ->
  exists e, fst (connectAndHandle opts a s) = Rejects e.
Proof.
  intros H. unfold connectAndHandle.
  destruct (connectOk a) eqn:Co; cbn [negb]; [|now eexists].
  destruct (setUp_spec opts (gatt a)) as (r & w & -> & F).
  assert (B : (match onConnect opts with
               | Some f => throws f
               | None => false
               end || negb (lookupOk (gatt a)) || negb (startOk (gatt a)))%bool
              = true).
  { destruct H as [H|[(f & -> & ->)|[->| ->]]];
      [discriminate|reflexivity| |];
      rewrite ?orb_true_r; reflexivity. }
  rewrite B in F. destruct F as (e & ->). now eexists.
Qed.

(* ================================================================== *)
(** * Properties of runMessageLoop *)
(* ================================================================== *)

Lemma connects_app (a b : list LoopObs) :
  connects (a ++ b) = (connects a + connects b)%nat.
Proof. unfold connects. now rewrite filter_app, length_app. Qed.

Lemma warnings_app (a b : list LoopObs) :
  warnings (a ++ b) = (warnings a + warnings b)%nat.
Proof. unfold warnings. now rewrite filter_app, length_app. Qed.

Lemma delays_app (a b : list LoopObs) :
  delays (a ++ b) = (delays a + delays b)%nat.
Proof. unfold delays. now rewrite filter_app, length_app. Qed.

Lemma releases_app (a b : list LoopObs) :
  releases (a ++ b) = (releases a + releases b)%nat.
Proof. unfold releases. now rewrite filter_app, length_app. Qed.

Lemma destroys_app (a b : list LoopObs) :
  destroys (a ++ b) = destroys a ++ destroys b.
Proof. apply flat_map_app. Qed.

Lemma flagged_app (a b : list LoopObs) :
  flagged (a ++ b) = flagged a ++ flagged b.
Proof. apply flat_map_app. Qed.

(** One pass of [connectAndHandle]: [RenphoScale.connect] is called once;
    the pass rejects without a session, rejects or stays pending with a
    session that did not end, or resolves with a session that ended.  It
    never destroys anything, and it does not touch the stored
    destructor. *)
Lemma connectAndHandle_spec (opts : Opts) (a : Attempt) (s : Loop) :
  exists r s' x,
    connectAndHandle opts a s = (r, s') /\
    did s' = did s ++ Connect :: x /\
    destroyScaleSession s' = destroyScaleSession s /\
    connects x = 0%nat /\ warnings x = 0%nat /\ delays x = 0%nat /\
    destroys x = [] /\ releases x = 0%nat /\
    (connectOk a = false -> r = Rejects "connect rejected" /\ x = []) /\
    match r with
    | Resolves i =>
        connectOk a = true /\ i = List.length (sessions s) /\
        flagged x = [i]
    | _ => flagged x = []
    end.
Proof.
  unfold connectAndHandle.
  destruct (connectOk a).
  - cbn [negb].
    destruct (setUp opts (newScale (gatt a))) as [[[]|e] w].
    + destruct (awaitFlag (events a) w) as [[[]|e] w'];
        [destruct (raiseFlag w')|];
        eexists; eexists; eexists; (split; [reflexivity|]); cbn;
        rewrite <- ?app_assoc; repeat split; try discriminate.
    + eexists; eexists; eexists; (split; [reflexivity|]); cbn;
        rewrite <- ?app_assoc; repeat split; discriminate.
  - eexists; eexists; exists []; (split; [reflexivity|]); cbn;
      repeat split.
Qed.

(** The loop, pass by pass. *)
Lemma while_rejects (opts : Opts) (a : Attempt) (rest : list Attempt)
    (s s' : Loop) (e : string) :
  connectAndHandle opts a s = (Rejects e, s') ->
  while opts (a :: rest) s
  = while opts rest (note Delay (note NextIteration (note (Warn e) s'))).
Proof. intros H. cbn [while]. now rewrite H. Qed.

Lemma while_resolves (opts : Opts) (a : Attempt) (rest : list Attempt)
    (s s' : Loop) (i : nat) :
  connectAndHandle opts a s = (Resolves i, s') ->
  while opts (a :: rest) s
  = if runOnce opts then (Returned, setDestructor i s')
    else while opts rest (note Delay (note NextIteration (setDestructor i s'))).
Proof. intros H. cbn [while]. now rewrite H. Qed.

(** With run-once unset the function never returns: it destroys no
    session and releases nothing, and it makes one connection attempt per
    pass until a pass waits on its session for ever, or the process ends
    during a pass. *)
Lemma while_forever (opts : Opts) (script : list Attempt) (s : Loop) :
  runOnce opts = false ->
  exists x,
    (fst (while opts script s) = Looping \/
     exists e, fst (while opts script s) = Exited e) /\
    did (snd (while opts script s)) = did s ++ x /\
    destroys x = [] /\ releases x = 0%nat /\
    (connects x <= List.length script)%nat.
Proof.
  intros Ho. revert s. induction script as [|a rest IH]; intros s.
  - exists []. cbn. rewrite app_nil_r. repeat split; auto.
  - cbn [while].
    destruct (connectAndHandle_spec opts a s)
      as (r & s' & x & E & D & _ & C & _ & _ & Ds & Rl & _ & _).
    rewrite E. destruct r as [i|e| |e].
    + rewrite Ho.
      destruct (IH (note Delay (note NextIteration (setDestructor i s'))))
        as (y & St & Dy & Dsy & Rly & Cy).
      exists ((Connect :: x) ++ retried ++ y).
      split; [exact St|]. split.
      { rewrite Dy. cbn. rewrite D. now rewrite <- !app_assoc. }
      rewrite !destroys_app, !releases_app, !connects_app.
      change (destroys (Connect :: x)) with (destroys x).
      change (releases (Connect :: x)) with (releases x).
      change (connects (Connect :: x)) with (S (connects x)).
      rewrite Ds, Dsy, Rl, Rly, C. cbn. repeat split; auto. lia.
    + destruct (IH (note Delay (note NextIteration (note (Warn e) s'))))
        as (y & St & Dy & Dsy & Rly & Cy).
      exists ((Connect :: x) ++ caught e ++ y).
      split; [exact St|]. split.
      { rewrite Dy. cbn. rewrite D. now rewrite <- !app_assoc. }
      rewrite !destroys_app, !releases_app, !connects_app.
      change (destroys (Connect :: x)) with (destroys x).
      change (releases (Connect :: x)) with (releases x).
      change (connects (Connect :: x)) with (S (connects x)).
      rewrite Ds, Dsy, Rl, Rly, C. cbn. repeat split; auto. lia.
    + exists (Connect :: x). cbn [fst snd].
      change (destroys (Connect :: x)) with (destroys x).
      change (releases (Connect :: x)) with (releases x).
      change (connects (Connect :: x)) with (S (connects x)).
      rewrite C. cbn. repeat split; auto. lia.
    + exists (Connect :: x). cbn [fst snd].
      change (destroys (Connect :: x)) with (destroys x).
      change (releases (Connect :: x)) with (releases x).
      change (connects (Connect :: x)) with (S (connects x)).
      rewrite C. cbn. repeat split; eauto. lia.
Qed.

Lemma runMessageLoop_forever (opts : Opts) (script : list Attempt) :
  runOnce opts = false ->
  (fst (runMessageLoop true opts script) = Looping \/
   exists e, fst (runMessageLoop true opts script) = Exited e) /\
  destroys (did (snd (runMessageLoop true opts script))) = [] /\
  releases (did (snd (runMessageLoop true opts script))) = 0%nat.
Proof.
  intros Ho. unfold runMessageLoop.
  destruct (while_forever opts script
              {| sessions := []; destroyScaleSession := None; did := [] |} Ho)
    as (x & St & D & Ds & Rl & _).
  destruct (while opts script _) as [status s]. cbn [fst snd] in *.
  cbn [app] in D.
  destruct St as [->|(e & ->)]; cbn [fst snd]; rewrite D; eauto.
Qed.

(** With run-once set the loop is left by the first pass that resolves,
    with the destructor of that session stored; passes that reject are
    retried, and nothing is destroyed inside the loop. *)
Lemma while_once (opts : Opts) (script : list Attempt) (s : Loop) :
  runOnce opts = true ->
  exists x,
    did (snd (while opts script s)) = did s ++ x /\
    destroys x = [] /\ releases x = 0%nat /\
    match fst (while opts script s) with
    | Returned =>
        exists i, flagged x = [i] /\
                  destroyScaleSession (snd (while opts script s)) = Some i /\
                  connects x = S (warnings x)
    | Looping | Exited _ =>
        flagged x = [] /\
        destroyScaleSession (snd (while opts script s))
        = destroyScaleSession s
    | Failed _ => False
    end.
Proof.
  intros Ho. revert s. induction script as [|a rest IH]; intros s.
  - exists []. cbn. rewrite app_nil_r. repeat split; auto.
  - cbn [while].
    destruct (connectAndHandle_spec opts a s)
      as (r & s' & x & E & D & Dd & C & W & _ & Ds & Rl & _ & Fl).
    rewrite E. destruct r as [i|e| |e].
    + rewrite Ho. cbn [fst snd setDestructor did destroyScaleSession].
      exists (Connect :: x). split; [exact D|].
      change (destroys (Connect :: x)) with (destroys x).
      change (releases (Connect :: x)) with (releases x).
      change (flagged (Connect :: x)) with (flagged x).
      change (connects (Connect :: x)) with (S (connects x)).
      change (warnings (Connect :: x)) with (warnings x).
      destruct Fl as (_ & _ & Fl).
      repeat split; auto. exists i. repeat split; auto; lia.
    + destruct (IH (note Delay (note NextIteration (note (Warn e) s'))))
        as (y & Dy & Dsy & Rly & M).
      exists ((Connect :: x) ++ caught e ++ y).
      split.
      { rewrite Dy. cbn. rewrite D. now rewrite <- !app_assoc. }
      rewrite !destroys_app, !releases_app.
      change (destroys (Connect :: x)) with (destroys x).
      change (releases (Connect :: x)) with (releases x).
      rewrite Ds, Dsy, Rl, Rly.
      split; [reflexivity|]. split; [reflexivity|].
      destruct (fst (while opts rest _)); auto.
      * destruct M as (i & Fi & Di & Ci). exists i.
        rewrite !flagged_app, !connects_app, !warnings_app.
        change (flagged (Connect :: x)) with (flagged x).
        change (connects (Connect :: x)) with (S (connects x)).
        change (warnings (Connect :: x)) with (warnings x).
        rewrite Fl, Fi, C, W. cbn. repeat split; auto; lia.
      * destruct M as (Fy & Dy'). rewrite !flagged_app.
        change (flagged (Connect :: x)) with (flagged x).
        rewrite Fl, Fy. cbn in *. split; [reflexivity|]. congruence.
      * destruct M as (Fy & Dy'). rewrite !flagged_app.
        change (flagged (Connect :: x)) with (flagged x).
        rewrite Fl, Fy. cbn in *. split; [reflexivity|]. congruence.
    + exists (Connect :: x). cbn [fst snd].
      change (destroys (Connect :: x)) with (destroys x).
      change (releases (Connect :: x)) with (releases x).
      change (flagged (Connect :: x)) with (flagged x).
      repeat split; auto.
    + exists (Connect :: x). cbn [fst snd].
      change (destroys (Connect :: x)) with (destroys x).
      change (releases (Connect :: x)) with (releases x).
      change (flagged (Connect :: x)) with (flagged x).
      repeat split; auto.
Qed.

Lemma did_updateSession (i : nat) (f : World -> World) (s : Loop) :
  did (updateSession i f s) = did s.
Proof. unfold updateSession. now destruct (nth_error _ _). Qed.

(** Leaving [runMessageLoop] (it returned or it rejected): the [finally]
    block calls the stored destructor once, if there is one, and
    [destroyBluetooth] once; the stored destructor is that of the one
    session that raised its flag.  Nothing was destroyed or released
    before. *)
Lemma runMessageLoop_exit (adapterOk : bool) (opts : Opts)
    (script : list Attempt) :
  let r := runMessageLoop adapterOk opts script in
  fst r = Returned \/ (exists e, fst r = Failed e) ->
  releases (did (snd r)) = 1%nat /\
  destroys (did (snd r)) = flagged (did (snd r)) /\
  (List.length (destroys (did (snd r))) <= 1)%nat /\
  (fst r = Returned ->
   adapterOk = true /\ runOnce opts = true /\
   exists i, destroys (did (snd r)) = [i] /\
             connects (did (snd r)) = S (warnings (did (snd r)))).
Proof.
  cbv zeta. unfold runMessageLoop.
  destruct adapterOk.
  - destruct (runOnce opts) eqn:Ho.
    + destruct (while_once opts script
                  {| sessions := []; destroyScaleSession := None;
                     did := [] |} Ho) as (x & D & Ds & Rl & M).
      destruct (while opts script _) as [status s]. cbn [fst snd] in *.
      destruct status as [|e| |e]; cbn [fst snd] in *;
        [|contradiction| |];
        try (intros [N|(e' & N)]; discriminate).
      intros _. destruct M as (i & Fi & Di & Ci).
      unfold finally. cbn [note destroyScaleSession did].
      rewrite Di. cbn [note did]. rewrite did_updateSession. cbn [note did].
      rewrite D. cbn [app].
      rewrite !releases_app, !destroys_app, !flagged_app, !connects_app,
        !warnings_app, Rl, Ds, Fi, Ci.
      cbn. repeat split; auto. exists i. split; [reflexivity|lia].
    + destruct (while_forever opts script
                  {| sessions := []; destroyScaleSession := None;
                     did := [] |} Ho) as (x & St & _).
      destruct (while opts script _) as [status s]. cbn [fst] in St.
      destruct St as [->|(e & ->)]; cbn [fst];
        intros [N|(e' & N)]; discriminate.
  - cbn. intros _. repeat split; auto; discriminate.
Qed.

Lemma connects_rejected (opts : Opts) (bads rest : list Attempt) (s : Loop) :
  Forall (fun b => connectOk b = false) bads ->
  exists s',
    while opts (bads ++ rest) s = while opts rest s' /\
    sessions s' = sessions s /\
    connects (did s') = (connects (did s) + List.length bads)%nat /\
    warnings (did s') = (warnings (did s) + List.length bads)%nat /\
    delays (did s') = (delays (did s) + List.length bads)%nat.
Proof.
  intros H. revert s. induction H as [|b bads Hb _ IH]; intros s.
  - exists s. cbn. repeat split; lia.
  - cbn [app while]. unfold connectAndHandle. rewrite Hb. cbn [negb].
    destruct (IH (note Delay (note NextIteration
                   (note (Warn "connect rejected") (note Connect s)))))
      as (s' & E & Ss & C & W & Dl).
    exists s'. split; [exact E|]. split; [exact Ss|].
    rewrite C, W, Dl. cbn [note did length].
    rewrite !connects_app, !warnings_app, !delays_app. cbn. lia.
Qed.

Lemma finally_counts (s : Loop) :
  connects (did (finally s)) = connects (did s) /\
  warnings (did (finally s)) = warnings (did s) /\
  delays (did (finally s)) = delays (did s).
Proof.
  unfold finally. cbn [note destroyScaleSession did].
  destruct (destroyScaleSession s); cbn [note did];
    rewrite ?did_updateSession; cbn [note did];
    rewrite !connects_app, !warnings_app, !delays_app; cbn; lia.
Qed.

(** The last pass of a script, on its own. *)
Lemma while_single (opts : Opts) (a : Attempt) (s : Loop) :
  exists x,
    did (snd (while opts [a] s)) = did s ++ Connect :: x /\
    connects x = 0%nat.
Proof.
  cbn [while].
  destruct (connectAndHandle_spec opts a s)
    as (r & s' & x & E & D & _ & C & _).
  rewrite E. destruct r as [i|e| |e].
  - destruct (runOnce opts).
    + exists x. cbn. repeat split; auto.
    + exists (x ++ retried). cbn [while fst snd note setDestructor did].
      split; [rewrite D, <- !app_assoc; reflexivity|].
      rewrite connects_app, C. reflexivity.
  - exists (x ++ caught e). cbn [while fst snd note did].
    split; [rewrite D, <- !app_assoc; reflexivity|].
    rewrite connects_app, C. reflexivity.
  - exists x. cbn. repeat split; auto.
  - exists x. cbn. repeat split; auto.
Qed.

(** The function returns only with run-once set and after a pass that
    completed, all earlier passes having been caught and retried: it has
    connected once more than it has logged an error. *)
Lemma returned_after_completed_pass (opts : Opts) (script : list Attempt) :
  let r := runMessageLoop true opts script in
  fst r = Returned ->
  runOnce opts = true /\
  (exists i, flagged (did (snd r)) = [i]) /\
  connects (did (snd r)) = S (warnings (did (snd r))).
Proof.
  cbv zeta. intros R.
  destruct (runMessageLoop_exit true opts script (or_introl R))
    as (_ & Eq & _ & H).
  destruct (H R) as (_ & Ho & i & Di & Ci).
  split; [exact Ho|]. split; [|exact Ci].
  exists i. now rewrite <- Eq.
Qed.

(** When the connection fails N times and then succeeds,
    [RenphoScale.connect] has been called N+1 times after these N+1
    passes, with at least N warnings and N delays, with run-once set or
    not. *)
Lemma connects_after_failures (opts : Opts) (bads : list Attempt)
    (a : Attempt) :
  Forall (fun b => connectOk b = false) bads ->
  let r := runMessageLoop true opts (bads ++ [a]) in
  connects (did (snd r)) = S (List.length bads) /\
  (List.length bads <= warnings (did (snd r)))%nat /\
  (List.length bads <= delays (did (snd r)))%nat.
Proof.
  intros Hb. cbv zeta.
  unfold runMessageLoop.
  destruct (connects_rejected opts bads [a]
              {| sessions := []; destroyScaleSession := None; did := [] |}
              Hb) as (s' & E & _ & C & W & Dl).
  rewrite E.
  destruct (while_single opts a s') as (x & D & Cx).
  destruct (while opts [a] s') as [status s2]. cbn [snd] in D.
  cbn in C, W, Dl.
  destruct (finally_counts s2) as (F1 & F2 & F3).
  destruct status; cbn [snd];
    rewrite ?F1, ?F2, ?F3, D, ?connects_app, ?warnings_app, ?delays_app;
    change (connects (Connect :: x)) with (S (connects x));
    repeat split; lia.
Qed.

(* ================================================================== *)
(** * Further properties of the decoder *)
(* ================================================================== *)

Lemma index_ext (buf buf' : Buffer) (n : nat) :
  nth_error buf n = nth_error buf' n ->
  index buf (Z.of_nat n) = index buf' (Z.of_nat n).
Proof.
  intros H. unfold index.
  destruct (Z.ltb_spec (Z.of_nat n) 0); [reflexivity|].
  now rewrite Nat2Z.id, H.
Qed.

(** Packets other than weight packets have neither [scaleType] nor
    [weight]. *)
Lemma parse_other (buf : Buffer) :
  switchPacketId (parseIncomingPacket buf) <> WeightDataPacket ->
  get "scaleType" (parseIncomingPacket buf) = VUndefined /\
  get "weight" (parseIncomingPacket buf) = VUndefined.
Proof.
  intros K. rewrite parse_kind in K.
  assert (K0 : switchPacketId
                 [("packetId", index buf 0); ("len", index buf 1);
                  ("checksum", index buf (Z.of_nat (List.length buf) - 1));
                  ("data", VBuffer buf)] <> WeightDataPacket).
  { now rewrite (switchPacketId_first buf) by reflexivity. }
  unfold parseIncomingPacket.
  destruct (switchPacketId _); try (split; reflexivity).
  now contradiction K0.
Qed.

Lemma parse_scaleType (buf : Buffer) :
  switchPacketId (parseIncomingPacket buf) = WeightDataPacket ->
  get "scaleType" (parseIncomingPacket buf) = index buf 2.
Proof.
  intros K.
  assert (K0 : switchPacketId
                 [("packetId", index buf 0); ("len", index buf 1);
                  ("checksum", index buf (Z.of_nat (List.length buf) - 1));
                  ("data", VBuffer buf)] = WeightDataPacket).
  { rewrite (switchPacketId_first buf) by reflexivity.
    rewrite parse_kind in K. exact K. }
  unfold parseIncomingPacket. rewrite K0. reflexivity.
Qed.

Lemma nth_error_last {A} (l : list A) (d : A) :
  l <> [] -> nth_error l (List.length l - 1) = Some (last l d).
Proof.
  induction l as [|x [|y rest] IH]; intros H; [contradiction|reflexivity|].
  replace (List.length (x :: y :: rest) - 1)%nat
    with (S (List.length (y :: rest) - 1))%nat by (cbn [List.length]; lia).
  cbn [nth_error]. rewrite IH by discriminate. reflexivity.
Qed.

(** X1.  The decoder keeps the frame: the packet holds the whole buffer as
    [data], so that two buffers with the same packet are the same buffer;
    [checksum] is the last octet of the buffer, which for a one-octet buffer
    is its [packetId]; and of the empty buffer it makes an unknown packet
    whose [packetId], [len] and [checksum] are all [undefined]. *)
Theorem parseIncomingPacket_keeps_frame :
  (forall buf buf' : Buffer,
      parseIncomingPacket buf = parseIncomingPacket buf' -> buf = buf') /\
  (forall buf : Buffer,
      buf <> [] ->
      get "checksum" (parseIncomingPacket buf)
      = VNumber (Int (octet (last buf x00)))) /\
  (forall b : byte,
      get "checksum" (parseIncomingPacket [b])
      = get "packetId" (parseIncomingPacket [b]) /\
      get "len" (parseIncomingPacket [b]) = VUndefined) /\
  parseIncomingPacket []
  = [("packetId", VUndefined); ("len", VUndefined);
     ("checksum", VUndefined); ("data", VBuffer [])].
Proof.
  split; [|split; [|split]].
  - intros buf buf' E.
    destruct (parse_fields buf) as (_ & _ & _ & D).
    destruct (parse_fields buf') as (_ & _ & _ & D').
    rewrite E in D. congruence.
  - intros buf H.
    destruct (parse_fields buf) as (_ & _ & -> & _).
    replace (Z.of_nat (List.length buf) - 1)
      with (Z.of_nat (List.length buf - 1)).
    + apply index_nth. now apply nth_error_last.
    + destruct buf; [contradiction|]. cbn [List.length]. lia.
  - intros b.
    destruct (parse_fields [b]) as (-> & -> & -> & _).
    split; reflexivity.
  - reflexivity.
Qed.

Lemma parseIncomingPacket_keeps_frame_witness :
  get "checksum" (parseIncomingPacket [x10; x07; x15; x04; x4c; x01; x7e])
  = VNumber (Int (octet (last [x10; x07; x15; x04; x4c; x01; x7e] x00))).
Proof.
  apply (proj1 (proj2 parseIncomingPacket_keeps_frame)
           [x10; x07; x15; x04; x4c; x01; x7e]).
  discriminate.
Defined.

(** X2.  The decoder reads octet 0 for the kind of the packet, octet 2 for
    [scaleType] and octets 3 and 4 for [weight], and nothing else: the
    length octet and the checksum are stored and never checked, so that
    frames that differ in them, or in their lengths, decode to the same
    kind, scale type and weight. *)
Theorem decoding_ignores_len_and_checksum (buf buf' : Buffer) :
  nth_error buf 0 = nth_error buf' 0 ->
  let p := parseIncomingPacket buf in
  let p' := parseIncomingPacket buf' in
  switchPacketId p = switchPacketId p' /\
  (nth_error buf 2 = nth_error buf' 2 ->
   get "scaleType" p = get "scaleType" p') /\
  (nth_error buf 3 = nth_error buf' 3 ->
   nth_error buf 4 = nth_error buf' 4 ->
   get "weight" p = get "weight" p').
Proof.
  intros H0. cbv zeta.
  assert (K : switchPacketId (parseIncomingPacket buf)
              = switchPacketId (parseIncomingPacket buf')).
  { rewrite !parse_kind.
    destruct buf as [|b r], buf' as [|b' r']; try discriminate;
      [reflexivity|].
    cbn in H0. injection H0 as ->. reflexivity. }
  split; [exact K|].
  destruct (switchPacketId (parseIncomingPacket buf)) eqn:Kb.
  1, 2, 4:
    destruct (parse_other buf) as (S1 & W1); [rewrite Kb; discriminate|];
    destruct (parse_other buf') as (S2 & W2); [rewrite <- K; discriminate|];
    rewrite S1, S2, W1, W2; split; reflexivity.
  symmetry in K. split.
  - intros H2. rewrite (parse_scaleType buf Kb), (parse_scaleType buf' K).
    exact (index_ext buf buf' 2 H2).
  - intros H3 H4. rewrite (parse_weight buf Kb), (parse_weight buf' K).
    pose proof (index_ext buf buf' 3 H3) as E3.
    pose proof (index_ext buf buf' 4 H4) as E4.
    change (Z.of_nat 3) with 3 in E3. change (Z.of_nat 4) with 4 in E4.
    now rewrite E3, E4.
Qed.

(** Two frames for 11 kg: the second has another length octet, another
    checksum and a trailing octet. *)
Lemma decoding_ignores_len_and_checksum_witness :
  let p := parseIncomingPacket [x10; x07; x15; x04; x4c; x00; x7e] in
  let p' := parseIncomingPacket [x10; xff; x15; x04; x4c; x00; x00; x33] in
  switchPacketId p = switchPacketId p' /\
  (nth_error [x10; x07; x15; x04; x4c; x00; x7e] 2
   = nth_error [x10; xff; x15; x04; x4c; x00; x00; x33] 2 ->
   get "scaleType" p = get "scaleType" p') /\
  (nth_error [x10; x07; x15; x04; x4c; x00; x7e] 3
   = nth_error [x10; xff; x15; x04; x4c; x00; x00; x33] 3 ->
   nth_error [x10; x07; x15; x04; x4c; x00; x7e] 4
   = nth_error [x10; xff; x15; x04; x4c; x00; x00; x33] 4 ->
   get "weight" p = get "weight" p').
Proof.
  apply (decoding_ignores_len_and_checksum
           [x10; x07; x15; x04; x4c; x00; x7e]
           [x10; xff; x15; x04; x4c; x00; x00; x33]).
  reflexivity.
Defined.

Lemma forall_bool_spec (f : bool -> bool) :
  forall_bool f = true -> forall b, f b = true.
Proof.
  unfold forall_bool. intros H b.
  apply andb_prop in H. destruct H. now destruct b.
Qed.

Lemma forall_byte_spec (f : byte -> bool) :
  forall_byte f = true -> forall b, f b = true.
Proof.
  intros H b. rewrite <- (Byte.of_bits_to_bits b).
  destruct (Byte.to_bits b)
    as (b0 & b1 & b2 & b3 & b4 & b5 & b6 & b7).
  unfold forall_byte in H.
  pose proof (forall_bool_spec _ H b0) as H0. cbv beta in H0.
  pose proof (forall_bool_spec _ H0 b1) as H1. cbv beta in H1.
  pose proof (forall_bool_spec _ H1 b2) as H2. cbv beta in H2.
  pose proof (forall_bool_spec _ H2 b3) as H3. cbv beta in H3.
  pose proof (forall_bool_spec _ H3 b4) as H4. cbv beta in H4.
  pose proof (forall_bool_spec _ H4 b5) as H5. cbv beta in H5.
  pose proof (forall_bool_spec _ H5 b6) as H6. cbv beta in H6.
  exact (forall_bool_spec _ H6 b7).
Qed.

(** Every pair of octets gives a weight from 0 to 655.35. *)
Lemma weights_in_range :
  forall_byte (fun hi => forall_byte (fun lo =>
    let x := PrimFloat.div (Z2float (bigEndianUint16 hi lo)) 100%float in
    PrimFloat.leb 0%float x && PrimFloat.leb x maxWeight)) = true.
Proof. vm_compute. reflexivity. Qed.

(** Adding [undefined] to the shifted octet gives NaN, and so does the
    division. *)
Lemma shifted_plus_undefined :
  forall_byte (fun hi =>
    PrimFloat.is_nan
      (PrimFloat.div
         (PrimFloat.add (Z2float (256 * octet hi)) PrimFloat.nan)
         (Z2float 100))) = true.
Proof. vm_compute. reflexivity. Qed.

(** X3.  The weight of a weight packet.  A frame with id 0x10 and at least
    five octets has a [weight] that is a number from 0 to 655.35 (65535
    hundredths), whatever its other octets; a frame with id 0x10 and fewer
    than five octets is decoded as a weight packet all the same, and its
    [weight] is NaN. *)
Theorem weight_between_0_and_655_35 (buf : Buffer) :
  nth_error buf 0 = Some x10 ->
  let p := parseIncomingPacket buf in
  switchPacketId p = WeightDataPacket /\
  exists x,
    get "weight" p = VNumber (Dbl x) /\
    ((4 < List.length buf)%nat ->
     PrimFloat.leb 0%float x = true /\ PrimFloat.leb x maxWeight = true) /\
    ((List.length buf <= 4)%nat -> PrimFloat.is_nan x = true).
Proof.
  intros H0. cbv zeta.
  assert (K : switchPacketId (parseIncomingPacket buf) = WeightDataPacket).
  { rewrite parse_kind. destruct buf; [discriminate|].
    injection H0 as ->. reflexivity. }
  split; [exact K|]. rewrite (parse_weight buf K).
  destruct (nth_error buf 4) as [lo|] eqn:N4.
  - assert (L : (4 < List.length buf)%nat)
      by (apply nth_error_Some; congruence).
    destruct (nth_error buf 3) as [hi|] eqn:N3;
      [|apply nth_error_None in N3; lia].
    pose proof (index_nth buf 3 hi N3) as E3.
    pose proof (index_nth buf 4 lo N4) as E4.
    change (Z.of_nat 3) with 3 in E3. change (Z.of_nat 4) with 4 in E4.
    rewrite E3, E4, shl8_octet.
    eexists. split; [reflexivity|]. split; [|lia].
    intros _.
    pose proof (forall_byte_spec _
                  (forall_byte_spec _ weights_in_range hi) lo) as R.
    cbv beta zeta in R. apply andb_prop in R. exact R.
  - assert (L : (List.length buf <= 4)%nat) by now apply nth_error_None.
    pose proof (index_beyond buf 4 N4) as E4.
    change (Z.of_nat 4) with 4 in E4. rewrite E4.
    destruct (nth_error buf 3) as [hi|] eqn:N3.
    + pose proof (index_nth buf 3 hi N3) as E3.
      change (Z.of_nat 3) with 3 in E3. rewrite E3, shl8_octet.
      eexists. split; [reflexivity|]. split; [lia|]. intros _.
      pose proof (forall_byte_spec _ shifted_plus_undefined hi) as R.
      exact R.
    + pose proof (index_beyond buf 3 N3) as E3.
      change (Z.of_nat 3) with 3 in E3. rewrite E3.
      eexists. split; [reflexivity|]. split; [lia|]. intros _.
      reflexivity.
Qed.

Lemma weight_between_0_and_655_35_witness :
  let p := parseIncomingPacket [x10; x07; x15; x04; x4c; x01; x7e] in
  switchPacketId p = WeightDataPacket /\
  exists x,
    get "weight" p = VNumber (Dbl x) /\
    ((4 < List.length [x10; x07; x15; x04; x4c; x01; x7e])%nat ->
     PrimFloat.leb 0%float x = true /\ PrimFloat.leb x maxWeight = true) /\
    ((List.length [x10; x07; x15; x04; x4c; x01; x7e] <= 4)%nat ->
     PrimFloat.is_nan x = true).
Proof.
  apply (weight_between_0_and_655_35 [x10; x07; x15; x04; x4c; x01; x7e]).
  reflexivity.
Defined.

(* ================================================================== *)
(** * Further properties of the event emitter *)
(* ================================================================== *)

Lemma EventName_eqb_refl (e : EventName) : EventName_eqb e e = true.
Proof. now destruct e. Qed.

Lemma Handler_eqb_refl (h : Handler) : Handler_eqb h h = true.
Proof.
  induction h as [id t|s e h IH|secs|e]; cbn.
  - now rewrite Nat.eqb_refl, Bool.eqb_reflx.
  - now rewrite Nat.eqb_refl, EventName_eqb_refl, IH.
  - apply N.eqb_refl.
  - apply EventName_eqb_refl.
Qed.

(** [fn === handler] holds of one and the same function only. *)
Lemma Handler_eqb_eq (a b : Handler) : Handler_eqb a b = true -> a = b.
Proof.
  revert b. induction a as [id t|s e h IH|secs|e];
    intros [id' t'|s' e' h'|secs'|e']; cbn; intros H; try discriminate.
  - apply andb_prop in H. destruct H as [H1 H2].
    apply Nat.eqb_eq in H1. apply Bool.eqb_prop in H2. congruence.
  - apply andb_prop in H. destruct H as [H1 H3].
    apply andb_prop in H1. destruct H1 as [H1 H2].
    apply Nat.eqb_eq in H1. apply EventName_eqb_eq in H2.
    apply IH in H3. congruence.
  - apply N.eqb_eq in H. congruence.
  - apply EventName_eqb_eq in H. congruence.
Qed.

Lemma Handler_eqb_neq (a b : Handler) : a <> b -> Handler_eqb a b = false.
Proof.
  intros N. destruct (Handler_eqb a b) eqn:E; [|reflexivity].
  apply Handler_eqb_eq in E. contradiction.
Qed.

(** The wrapper [once] creates is another function than the handler it
    wraps. *)
Lemma wrapper_differs (s : nat) (e : EventName) (h : Handler) :
  wrappedHandler s e h <> h.
Proof.
  revert s e. induction h as [id t|s' e' h IH|secs|e']; intros s e H;
    try discriminate.
  injection H as _ _ H. now apply IH in H.
Qed.

Lemma findIndex_first {A} (p : A -> bool) (l1 l2 : list A) (x : A) :
  (forall y, In y l1 -> p y = false) -> p x = true ->
  findIndex p (l1 ++ x :: l2) = Some (List.length l1).
Proof.
  intros H Hx. induction l1 as [|y l1 IH]; cbn.
  - now rewrite Hx.
  - rewrite (H y (or_introl eq_refl)), IH; [reflexivity|].
    intros z Hz. apply H. now right.
Qed.

Lemma findIndex_none {A} (p : A -> bool) (l : list A) :
  (forall y, In y l -> p y = false) -> findIndex p l = None.
Proof.
  intros H. induction l as [|y l IH]; [reflexivity|]. cbn.
  rewrite (H y (or_introl eq_refl)), IH; [reflexivity|].
  intros z Hz. apply H. now right.
Qed.

Lemma splice_middle {A} (l1 l2 : list A) (x : A) :
  splice (List.length l1) 1 (l1 ++ x :: l2) = l1 ++ l2.
Proof.
  unfold splice.
  rewrite firstn_app, firstn_all, Nat.sub_diag, app_nil_r.
  rewrite skipn_app, skipn_all2 by lia.
  replace (List.length l1 + 1 - List.length l1)%nat with 1%nat by lia.
  reflexivity.
Qed.

Lemma withListeners_same (e : EventName) (L : Listeners) :
  withListeners e (listenersOf e L) L = L.
Proof. now destruct e, L. Qed.

Lemma set_listeners_same (w : World) : set_listeners (listeners w) w = w.
Proof. now destruct w. Qed.

Lemma not_In_eqb (h : Handler) (l : list Handler) :
  ~ In h l -> forall y, In y l -> Handler_eqb y h = false.
Proof.
  intros N y Hy. apply Handler_eqb_neq. intros ->. contradiction.
Qed.

(** [off] with a handler, on the listeners of the event. *)
Lemma off_first (e : EventName) (h : Handler) (l1 l2 : list Handler)
    (w : World) :
  listenersOf e (listeners w) = l1 ++ h :: l2 -> ~ In h l1 ->
  off e (Some h) w
  = (Ok tt, set_listeners (withListeners e (l1 ++ l2) (listeners w)) w).
Proof.
  intros L N. unfold off, bind, getListeners, gets, setListeners, modify.
  rewrite L, (findIndex_first _ l1 l2 h (not_In_eqb h l1 N)
                (Handler_eqb_refl h)).
  now rewrite splice_middle.
Qed.

Lemma off_absent (e : EventName) (h : Handler) (w : World) :
  ~ In h (listenersOf e (listeners w)) -> off e (Some h) w = (Ok tt, w).
Proof.
  intros N. unfold off, bind, getListeners, gets, setListeners, modify, ret.
  now rewrite (findIndex_none _ _ (not_In_eqb h _ N)).
Qed.

(** X4.  [off(eventName, handler)] removes one registration of the handler,
    the earliest: the listeners before it and after it stay, in their order,
    later registrations of the same handler among them; nothing else
    changes.  When the handler is not registered for the event, nothing
    changes at all. *)
Theorem off_removes_earliest_registration (e : EventName) (h : Handler)
    (w : World) :
  (forall l1 l2,
      listenersOf e (listeners w) = l1 ++ h :: l2 -> ~ In h l1 ->
      off e (Some h) w
      = (Ok tt, set_listeners (withListeners e (l1 ++ l2) (listeners w)) w)) /\
  (~ In h (listenersOf e (listeners w)) -> off e (Some h) w = (Ok tt, w)).
Proof.
  split.
  - intros l1 l2. apply off_first.
  - apply off_absent.
Qed.

(** A handler registered twice is still registered once after one
    [off]. *)
Lemma off_removes_earliest_registration_witness :
  let w := exec (on data (Some (External 1 false)) ;;
                 on data (Some (External 2 false)) ;;
                 on data (Some (External 1 false)))%js (newScale goodLink) in
  off data (Some (External 1 false)) w
  = (Ok tt,
     set_listeners
       (withListeners data ([] ++ [External 2 false; External 1 false])
                      (listeners w)) w).
Proof.
  apply (proj1 (off_removes_earliest_registration data (External 1 false)
                  (exec (on data (Some (External 1 false)) ;;
                         on data (Some (External 2 false)) ;;
                         on data (Some (External 1 false)))%js
                        (newScale goodLink)))
           [] [External 2 false; External 1 false]).
  - reflexivity.
  - intros [].
Defined.

Lemma on_spec (e : EventName) (h : Handler) (w : World) :
  on e (Some h) w
  = (Ok tt,
     set_listeners
       (withListeners e (listenersOf e (listeners w) ++ [h]) (listeners w)) w).
Proof. reflexivity. Qed.

Lemma withListeners_twice (e : EventName) (x y : list Handler)
    (L : Listeners) :
  withListeners e x (withListeners e y L) = withListeners e x L.
Proof. now destruct e. Qed.

(** X5.  [on] followed by [off] of the same handler leaves the session
    exactly as it was, when the handler was not registered for the event
    before. *)
Theorem on_then_off_restores (e : EventName) (h : Handler) (w : World) :
  ~ In h (listenersOf e (listeners w)) ->
  (on e (Some h) ;; off e (Some h))%js w = (Ok tt, w).
Proof.
  intros N. unfold bind. rewrite on_spec.
  rewrite (off_first e h (listenersOf e (listeners w)) []).
  - cbn [listeners set_listeners]. rewrite app_nil_r, withListeners_twice.
    rewrite withListeners_same. unfold set_listeners. cbn.
    now destruct w.
  - cbn [listeners set_listeners]. rewrite listenersOf_with.
    now rewrite EventName_eqb_refl.
  - exact N.
Qed.

Lemma on_then_off_restores_witness :
  (on measurement (Some (External 7 false)) ;;
   off measurement (Some (External 7 false)))%js
    (exec (startListening 10) (newScale goodLink))
  = (Ok tt, exec (startListening 10) (newScale goodLink)).
Proof.
  apply (on_then_off_restores measurement (External 7 false)
           (exec (startListening 10) (newScale goodLink))).
  intros [].
Defined.

Lemma splice_all {A} (l : list A) : splice 0 (List.length l) l = [].
Proof.
  unfold splice. cbn [firstn Nat.add app]. now rewrite skipn_all.
Qed.

(** X6.  [off(eventName)] without a handler removes every listener of the
    event and leaves those of the other events; an emission of the event
    then calls nobody. *)
Theorem off_without_handler_clears_event (e : EventName) (w : World) :
  let w' := exec (off e None) w in
  outcome (off e None) w = Ok tt /\
  listenersOf e (listeners w') = [] /\
  (forall e', e' <> e ->
     listenersOf e' (listeners w') = listenersOf e' (listeners w)) /\
  trace w' = trace w /\
  (forall args,
     emit e args w' = (Ok tt, set_trace (trace w' ++ [Emit e args]) w')).
Proof.
  cbv zeta. unfold exec, outcome, off, bind, getListeners, gets,
    setListeners, modify.
  cbn [fst snd]. rewrite splice_all.
  assert (L : listenersOf e (listeners (set_listeners
                (withListeners e [] (listeners w)) w)) = []).
  { cbn [listeners set_listeners]. rewrite listenersOf_with.
    now rewrite EventName_eqb_refl. }
  split; [reflexivity|]. split; [exact L|]. split; [|split].
  - intros e' N. cbn [listeners set_listeners]. rewrite listenersOf_with.
    destruct (EventName_eqb e e') eqn:E; [|reflexivity].
    apply EventName_eqb_eq in E. congruence.
  - reflexivity.
  - intros args.
    rewrite (emit_external e args [] _ L). reflexivity.
Qed.


Lemma nth_error_externals (ids : list nat) (tl : list Handler) (k : nat)
    (id : nat) :
  nth_error ids k = Some id ->
  nth_error (externals ids ++ tl) k = Some (External id false).
Proof.
  intros H. rewrite nth_error_app1.
  - unfold externals. now rewrite nth_error_map, H.
  - unfold externals. rewrite length_map. apply nth_error_Some. congruence.
Qed.

(** [forEach] over a stretch of external listeners that return normally:
    each is called, and the array stays as it is. *)
Lemma forEach_externals (e : EventName) (args : list value)
    (ids : list nat) (tl : list Handler) (n k : nat) (w : World) :
  listenersOf e (listeners w) = externals ids ++ tl ->
  (k + n <= List.length ids)%nat ->
  forEach e (fun fn => callHandler fn args) k n w
  = (Ok tt,
     set_trace (trace w ++ invoked (firstn n (skipn k ids)) args) w).
Proof.
  revert k w. induction n as [|n IH]; intros k w L Hk.
  - cbn. rewrite app_nil_r. now destruct w.
  - cbn [forEach]. unfold bind at 1. unfold getListeners, gets.
    unfold bind at 1. rewrite L.
    destruct (nth_error ids k) as [id|] eqn:N;
      [|apply nth_error_None in N; lia].
    rewrite (nth_error_externals ids tl k id N).
    cbn [callHandler]. unfold bind, observe, modify, ret.
    rewrite IH by (cbn [listeners set_trace]; first [exact L | lia]).
    rewrite (skipn_nth ids k id N). cbn [firstn invoked map].
    unfold set_trace. cbn. now rewrite <- app_assoc.
Qed.

Lemma forEach_split (e : EventName) (fn : Handler -> M unit)
    (n1 n2 k : nat) (w : World) :
  forEach e fn k (n1 + n2) w
  = (forEach e fn k n1 ;; forEach e fn (k + n1) n2)%js w.
Proof.
  revert k w. induction n1 as [|n1 IH]; intros k w.
  - cbn. unfold bind, ret. now rewrite Nat.add_0_r.
  - cbn [Nat.add forEach]. unfold bind.
    destruct (getListeners e w) as [[l|err] w0]; [|reflexivity].
    destruct (match nth_error l k with
              | Some h => fn h
              | None => ret tt
              end w0) as [[[]|err] w1]; [|reflexivity].
    rewrite IH. unfold bind.
    now rewrite <- Nat.add_succ_comm.
Qed.

Lemma externals_not_wrapper (ids : list nat) (s : nat) (e : EventName)
    (h : Handler) :
  ~ In (wrappedHandler s e h) (externals ids).
Proof.
  unfold externals. intros H. apply in_map_iff in H.
  destruct H as (id & H & _). discriminate.
Qed.

Lemma nth_error_after_externals (ids : list nat) (h : Handler)
    (tl : list Handler) :
  nth_error (externals ids ++ h :: tl) (List.length ids) = Some h.
Proof.
  rewrite nth_error_app2 by (unfold externals; rewrite length_map; lia).
  unfold externals. rewrite length_map, Nat.sub_diag. reflexivity.
Qed.

(** An emission over external listeners followed by one more listener:
    the external listeners are called, and then that listener is, the
    array being as it was. *)
Lemma emit_reaches (e : EventName) (args : list value) (ids : list nat)
    (h : Handler) (tl : list Handler) (w : World) :
  listenersOf e (listeners w) = externals ids ++ h :: tl ->
  emit e args w
  = (callHandler h args ;;
     forEach e (fun fn => callHandler fn args) (S (List.length ids))
             (List.length tl))%js
      (set_trace (trace w ++ Emit e args :: invoked ids args) w).
Proof.
  intros L. unfold emit, bind at 1, observe, modify. unfold bind at 1.
  unfold getListeners at 1, gets. cbn [listeners set_trace]. rewrite L.
  unfold externals at 1. rewrite length_app, length_map.
  rewrite forEach_split. unfold bind at 1.
  rewrite (forEach_externals e args ids (h :: tl))
    by (cbn [listeners set_trace]; first [exact L | lia]).
  cbn [skipn]. rewrite firstn_all.
  cbn [List.length forEach]. unfold bind at 1. unfold getListeners at 1, gets.
  unfold bind at 1. cbn [listeners set_trace trace]. rewrite L.
  rewrite nth_error_after_externals. cbn [Nat.add].
  rewrite <- app_assoc. cbn [app]. unfold bind.
  destruct (callHandler h args _) as [[[]|err] w1]; reflexivity.
Qed.

(** X7.  A listener registered with [once] as the last of an event, after
    external listeners that return normally, is called by the next emission
    of the event, after the others and with the arguments of the emission,
    and is registered no more: the emission after that calls the others
    only. *)
Theorem once_listener_called_once (e : EventName) (ids : list nat)
    (s i : nat) (args1 args2 : list value) (w : World) :
  listenersOf e (listeners w)
  = externals ids ++ [wrappedHandler s e (External i false)] ->
  let w1 := exec (emit e args1) w in
  let w2 := exec (emit e args2) w1 in
  outcome (emit e args1) w = Ok tt /\
  trace w1
  = trace w ++ Emit e args1 :: invoked ids args1 ++ [Invoke i args1] /\
  listenersOf e (listeners w1) = externals ids /\
  outcome (emit e args2) w1 = Ok tt /\
  trace w2 = trace w1 ++ Emit e args2 :: invoked ids args2.
Proof.
  intros L. cbv zeta.
  assert (E1 : emit e args1 w
    = (Ok tt,
       set_trace (trace w ++ Emit e args1 :: invoked ids args1
                          ++ [Invoke i args1])
         (set_listeners (withListeners e (externals ids) (listeners w)) w))).
  { rewrite (emit_reaches e args1 ids _ [] w L).
    cbn [List.length forEach callHandler]. unfold bind at 1 2.
    rewrite (off_first e _ (externals ids) [])
      by (cbn [listeners set_trace]; first
          [exact L | apply externals_not_wrapper]).
    rewrite app_nil_r. unfold bind, observe, modify, ret.
    unfold set_trace, set_listeners. cbn.
    now rewrite <- app_assoc. }
  unfold exec, outcome. rewrite E1. cbn [fst snd].
  assert (L1 : listenersOf e (listeners
             (set_trace (trace w ++ Emit e args1 :: invoked ids args1
                                ++ [Invoke i args1])
                (set_listeners (withListeners e (externals ids) (listeners w))
                               w))) = externals ids).
  { cbn [listeners set_trace set_listeners]. rewrite listenersOf_with.
    now rewrite EventName_eqb_refl. }
  rewrite (emit_external e args2 ids _ L1). cbn [fst snd].
  split; [reflexivity|]. split; [reflexivity|]. split; [exact L1|].
  split; reflexivity.
Qed.

(** [scale.once("measurement", h)] after [scale.on("measurement", g)]. *)
Lemma once_listener_called_once_witness :
  let w := exec (on measurement (Some (External 1 false)) ;;
                 once measurement (Some (External 2 false)))%js
                (newScale goodLink) in
  let args1 := [VNumber (Int 1)] in
  let args2 := [VNumber (Int 2)] in
  let w1 := exec (emit measurement args1) w in
  let w2 := exec (emit measurement args2) w1 in
  outcome (emit measurement args1) w = Ok tt /\
  trace w1
  = trace w ++ Emit measurement args1 :: invoked [1%nat] args1
            ++ [Invoke 2 args1] /\
  listenersOf measurement (listeners w1) = externals [1%nat] /\
  outcome (emit measurement args2) w1 = Ok tt /\
  trace w2 = trace w1 ++ Emit measurement args2 :: invoked [1%nat] args2.
Proof.
  apply (once_listener_called_once measurement [1%nat] 0 2
           [VNumber (Int 1)] [VNumber (Int 2)]
           (exec (on measurement (Some (External 1 false)) ;;
                  once measurement (Some (External 2 false)))%js
                 (newScale goodLink))).
  reflexivity.
Defined.

(** X8.  A listener that throws ends the emission: the listeners registered
    before it have been called, those registered after it are not, and the
    exception leaves [emit]. *)
Theorem throwing_listener_ends_emission (e : EventName) (ids : list nat)
    (i : nat) (rest : list Handler) (args : list value) (w : World) :
  listenersOf e (listeners w) = externals ids ++ External i true :: rest ->
  emit e args w
  = (Threw "listener threw",
     set_trace (trace w ++ Emit e args :: invoked ids args
                        ++ [Invoke i args]) w).
Proof.
  intros L. rewrite (emit_reaches e args ids _ rest w L).
  cbn [callHandler]. unfold bind, observe, modify, throw.
  unfold set_trace. cbn. now rewrite <- app_assoc.
Qed.

Lemma throwing_listener_ends_emission_witness :
  let w := exec (on data (Some (External 1 false)) ;;
                 on data (Some (External 2 true)) ;;
                 on data (Some (External 3 false)))%js (newScale goodLink) in
  emit data [] w
  = (Threw "listener threw",
     set_trace (trace w ++ Emit data [] :: invoked [1%nat] []
                        ++ [Invoke 2 []]) w).
Proof.
  apply (throwing_listener_ends_emission data [1%nat] 2 [External 3 false] []
           (exec (on data (Some (External 1 false)) ;;
                  on data (Some (External 2 true)) ;;
                  on data (Some (External 3 false)))%js (newScale goodLink))).
  reflexivity.
Defined.

Lemma findIndex_app_false {A} (p : A -> bool) (l : list A) (x : A) :
  p x = false -> findIndex p (l ++ [x]) = findIndex p l.
Proof.
  intros H. induction l as [|y l IH]; cbn.
  - now rewrite H.
  - now rewrite IH.
Qed.

Lemma findIndex_lt {A} (p : A -> bool) (l : list A) (i : nat) :
  findIndex p l = Some i -> (i < List.length l)%nat.
Proof.
  revert i. induction l as [|y l IH]; intros i H; [discriminate|].
  cbn in H. destruct (p y).
  - injection H as <-. cbn. lia.
  - destruct (findIndex p l) as [j|]; [|discriminate].
    injection H as <-. specialize (IH j eq_refl). cbn. lia.
Qed.

Lemma splice_app {A} (l r : list A) (i : nat) :
  (i < List.length l)%nat -> splice i 1 (l ++ r) = splice i 1 l ++ r.
Proof.
  intros H. unfold splice.
  rewrite firstn_app, skipn_app.
  replace (i - List.length l)%nat with 0%nat by lia.
  replace (i + 1 - List.length l)%nat with 0%nat by lia.
  cbn [firstn skipn]. now rewrite app_nil_r, app_assoc.
Qed.

(** X9.  A handler registered with [once] cannot be taken off with
    [off(eventName, handler)]: what is registered is the wrapper, another
    function, and [off] looks for the handler itself.  The wrapper is still
    registered afterwards, and where the handler was not registered on its
    own [off] has changed nothing. *)
Theorem off_keeps_once_registration (e : EventName) (h : Handler)
    (w : World) :
  let w' := exec (once e (Some h) ;; off e (Some h))%js w in
  outcome (once e (Some h) ;; off e (Some h))%js w = Ok tt /\
  In (wrappedHandler (fresh w) e h) (listenersOf e (listeners w')) /\
  (~ In h (listenersOf e (listeners w)) ->
   w' = exec (once e (Some h)) w /\
   listenersOf e (listeners w')
   = listenersOf e (listeners w) ++ [wrappedHandler (fresh w) e h]).
Proof.
  cbv zeta.
  assert (O : once e (Some h) w
    = (Ok tt,
       set_listeners
         (withListeners e
            (listenersOf e (listeners w) ++ [wrappedHandler (fresh w) e h])
            (listeners w))
         (set_fresh (S (fresh w)) w))) by reflexivity.
  set (wr := wrappedHandler (fresh w) e h) in *.
  set (l := listenersOf e (listeners w)) in *.
  assert (D : Handler_eqb wr h = false)
    by (apply Handler_eqb_neq, wrapper_differs).
  unfold exec, outcome, bind. rewrite O.
  unfold off, bind, getListeners, gets, setListeners, modify, ret.
  cbn [listeners set_listeners set_fresh].
  rewrite listenersOf_with, EventName_eqb_refl.
  rewrite (findIndex_app_false _ l wr D).
  destruct (findIndex (fun fn => Handler_eqb fn h) l) as [j|] eqn:F.
  - cbn [fst snd listeners set_listeners].
    rewrite listenersOf_with, EventName_eqb_refl.
    rewrite (splice_app l [wr] j (findIndex_lt _ l j F)).
    split; [reflexivity|]. split; [apply in_or_app; right; now left|].
    intros N. rewrite (findIndex_none _ l (not_In_eqb h l N)) in F.
    discriminate.
  - cbn [fst snd listeners set_listeners set_fresh].
    rewrite listenersOf_with, EventName_eqb_refl.
    split; [reflexivity|]. split; [apply in_or_app; right; now left|].
    intros _. split; reflexivity.
Qed.

Lemma off_keeps_once_registration_witness :
  let w := newScale goodLink in
  let h := External 1 false in
  let w' := exec (once data (Some h) ;; off data (Some h))%js w in
  w' = exec (once data (Some h)) w /\
  listenersOf data (listeners w')
  = listenersOf data (listeners w) ++ [wrappedHandler (fresh w) data h].
Proof.
  apply (proj2 (proj2 (off_keeps_once_registration data (External 1 false)
                         (newScale goodLink)))).
  intros [].
Defined.

(** X10.  [on] keeps no set: a handler registered twice for an event is
    called twice by each emission of it. *)
Theorem on_registers_duplicates (e : EventName) (ids : list nat) (i : nat)
    (args : list value) (w : World) :
  listenersOf e (listeners w) = externals ids ->
  let w' := exec (on e (Some (External i false)) ;;
                  on e (Some (External i false)))%js w in
  listenersOf e (listeners w')
  = externals ids ++ [External i false; External i false] /\
  emit e args w'
  = (Ok tt,
     set_trace (trace w' ++ Emit e args :: invoked (ids ++ [i; i]) args) w').
Proof.
  intros L. cbv zeta.
  assert (L' : listenersOf e (listeners
                 (exec (on e (Some (External i false)) ;;
                        on e (Some (External i false)))%js w))
               = externals (ids ++ [i; i])).
  { unfold exec, bind. rewrite !on_spec. cbn [snd listeners set_listeners].
    rewrite !listenersOf_with, !EventName_eqb_refl.
    rewrite L, <- app_assoc. unfold externals. now rewrite map_app. }
  split.
  - rewrite L'. unfold externals. now rewrite map_app.
  - apply emit_external. exact L'.
Qed.

Lemma on_registers_duplicates_witness :
  let w := newScale goodLink in
  let w' := exec (on timeout (Some (External 5 false)) ;;
                  on timeout (Some (External 5 false)))%js w in
  listenersOf timeout (listeners w')
  = externals [] ++ [External 5 false; External 5 false] /\
  emit timeout [] w'
  = (Ok tt,
     set_trace (trace w' ++ Emit timeout [] :: invoked ([] ++ [5; 5]%nat) [])
               w').
Proof.
  apply (on_registers_duplicates timeout [] 5 [] (newScale goodLink)).
  reflexivity.
Defined.

Lemma includes_eventNameOf (name : string) :
  includes REGISTERED_LISTENERS name
  = match eventNameOf name with Some _ => true | None => false end.
Proof.
  unfold includes, eventNameOf, REGISTERED_LISTENERS. cbn [existsb].
  destruct (String.eqb name "liveupdate"); [reflexivity|].
  destruct (String.eqb name "measurement"); [reflexivity|].
  destruct (String.eqb name "data"); [reflexivity|].
  destruct (String.eqb name "timeout"); reflexivity.
Qed.

(** X11.  The check of the event name.  The names [getListeners] accepts are
    the four keys of [this.listeners], and for them the methods run as
    typed.  For any other string [emit] and [off] throw "Invalid event"
    before anything is emitted or removed, and so do [on] and [once] when
    given a handler; [on] and [once] without a handler return without
    looking at the name.  In each case the session is left as it was. *)
Theorem invalid_event_name_rejected (name : string) :
  (eventNameOf "liveupdate" = Some liveupdate /\
   eventNameOf "measurement" = Some measurement /\
   eventNameOf "data" = Some data /\
   eventNameOf "timeout" = Some timeout) /\
  (forall e, eventNameOf name = Some e ->
     includes REGISTERED_LISTENERS name = true /\
     forall args h,
       Untyped.emit name args = emit e args /\
       Untyped.on name h = on e h /\
       Untyped.once name h = once e h /\
       Untyped.off name h = off e h) /\
  (includes REGISTERED_LISTENERS name = false ->
     forall w args (h : Handler) (maybe : option Handler),
       let rejected := (Threw ("Invalid event: " ++ name), w) in
       Untyped.emit name args w = rejected /\
       Untyped.off name maybe w = rejected /\
       Untyped.on name (Some h) w = rejected /\
       Untyped.once name (Some h) w = rejected /\
       Untyped.on name None w = (Ok tt, w) /\
       Untyped.once name None w = (Ok tt, w)).
Proof.
  split; [repeat split|]. split.
  - intros e E. pose proof (includes_eventNameOf name) as I.
    rewrite E in I. split; [exact I|].
    intros args h.
    unfold Untyped.emit, Untyped.on, Untyped.once, Untyped.off,
      Untyped.getListeners.
    rewrite I, E. cbn [negb].
    repeat split; try reflexivity; destruct h; reflexivity.
  - intros I w args h maybe. cbv zeta.
    unfold Untyped.emit, Untyped.on, Untyped.once, Untyped.off,
      Untyped.getListeners, bind, throw, ret.
    rewrite I. cbn [negb]. repeat split.
Qed.

(** The name of a packet property is no event. *)
Lemma invalid_event_name_rejected_witness :
  let w := newScale goodLink in
  let h := External 1 false in
  let rejected := (Threw ("Invalid event: " ++ "weight"), w) in
  Untyped.emit "weight" [] w = rejected /\
  Untyped.off "weight" None w = rejected /\
  Untyped.on "weight" (Some h) w = rejected /\
  Untyped.once "weight" (Some h) w = rejected /\
  Untyped.on "weight" None w = (Ok tt, w) /\
  Untyped.once "weight" None w = (Ok tt, w).
Proof.
  apply (proj2 (proj2 (invalid_event_name_rejected "weight")) eq_refl
           (newScale goodLink) [] (External 1 false) None).
Defined.

(* ================================================================== *)
(** * What every notification and every timer keeps *)
(* ================================================================== *)

(** A relation between the session before and after that is kept by the
    elementary changes made while notifications and timers are handled is
    kept by whatever sequence of them, with whatever listeners. *)
Section Invariant.

Variable R : World -> World -> Prop.

Hypothesis R_refl : forall w, R w w.
Hypothesis R_trans : forall a b c, R a b -> R b c -> R a c.
Hypothesis R_observe : forall o w, R w (set_trace (trace w ++ [o]) w).
Hypothesis R_off :
  forall s e h w, R w (exec (off e (Some (wrappedHandler s e h))) w).
Hypothesis R_resetTimer : forall secs w, R w (exec (resetTimer secs) w).
Hypothesis R_raiseFlag : forall w, R w (set_raiseFlag Resolved w).
Hypothesis R_didTimeout : forall w, R w (set_didTimeout true w).
Hypothesis R_unsubscribe : forall w, R w (set_valuechanged false w).
Hypothesis R_destroy : forall w, R w (exec destroy w).
Hypothesis R_fire :
  forall id due w,
    In (id, due) (pending w) -> R w (set_clock due (exec (clearTimeout id) w)).
Hypothesis R_clock : forall t w, R w (set_clock t w).

Lemma keeps_bind {A B} (m : M A) (k : A -> M B) :
  (forall w, R w (exec m w)) ->
  (forall a w, R w (exec (k a) w)) ->
  forall w, R w (exec (bind m k) w).
Proof.
  intros Hm Hk w. specialize (Hm w). unfold exec, bind in *.
  destruct (m w) as [[a|err] w1]; cbn [snd] in *.
  - exact (R_trans _ _ _ Hm (Hk a w1)).
  - exact Hm.
Qed.

Lemma keeps_tryCatch {A} (m : M A) (h : string -> M A) :
  (forall w, R w (exec m w)) ->
  (forall e w, R w (exec (h e) w)) ->
  forall w, R w (exec (tryCatch m h) w).
Proof.
  intros Hm Hh w. specialize (Hm w). unfold exec, tryCatch in *.
  destruct (m w) as [[a|err] w1]; cbn [snd] in *.
  - exact Hm.
  - exact (R_trans _ _ _ Hm (Hh err w1)).
Qed.

Lemma keeps_observe (o : Obs) (w : World) : R w (exec (observe o) w).
Proof. apply R_observe. Qed.

Lemma keeps_still {A} (m : M A) :
  (forall w, snd (m w) = w) -> forall w, R w (exec m w).
Proof. intros H w. unfold exec. rewrite H. apply R_refl. Qed.

Lemma callHandler_keeps (h : Handler) (args : list value) (w : World) :
  R w (exec (callHandler h args) w).
Proof.
  revert w. induction h as [id t|s e h IH|secs|e]; intros w;
    cbn [callHandler].
  - apply keeps_bind; [apply keeps_observe|].
    intros _. destruct t; now apply keeps_still.
  - apply keeps_bind; [apply R_off | intros _; exact IH].
  - apply R_resetTimer.
  - unfold exec, bind, gets, modify, ret.
    destruct (raiseFlag w); cbn [snd]; auto.
Qed.

Lemma forEach_keeps (e : EventName) (args : list value) (n k : nat)
    (w : World) :
  R w (exec (forEach e (fun fn => callHandler fn args) k n) w).
Proof.
  revert k w. induction n as [|n IH]; intros k w; [apply R_refl|].
  cbn [forEach]. apply keeps_bind; [now apply keeps_still|].
  intros l. apply keeps_bind; [|intros _; apply IH].
  destruct (nth_error l k);
    [apply callHandler_keeps | now apply keeps_still].
Qed.

Lemma emit_keeps (e : EventName) (args : list value) (w : World) :
  R w (exec (emit e args) w).
Proof.
  unfold emit. apply keeps_bind; [apply keeps_observe|].
  intros _. apply keeps_bind; [now apply keeps_still|].
  intros l. apply forEach_keeps.
Qed.

Lemma sendCommand_keeps (buf : Buffer) (w : World) :
  R w (exec (sendCommand buf) w).
Proof.
  unfold sendCommand, writeValue, log.
  apply keeps_bind; [apply keeps_observe|]. intros _.
  apply keeps_bind; [now apply keeps_still|]. intros ok.
  apply keeps_bind; [apply keeps_observe|]. intros _.
  destruct ok; now apply keeps_still.
Qed.

Lemma dispatch_keeps (p : Object) (w : World) : R w (exec (dispatch p) w).
Proof.
  unfold dispatch, log.
  destruct (switchPacketId p).
  - apply keeps_bind; [apply keeps_observe|]. intros _.
    apply sendCommand_keeps.
  - apply keeps_bind; [apply keeps_observe|]. intros _.
    apply sendCommand_keeps.
  - apply keeps_bind.
    + unfold dataIndex. destruct (get "data" p); now apply keeps_still.
    + intros flag. destruct (strictEq flag 0); [apply emit_keeps|].
      destruct (strictEq flag 1); [|now apply keeps_still].
      apply keeps_bind; [apply keeps_observe|]. intros _.
      apply keeps_bind; [apply sendCommand_keeps|]. intros _.
      apply emit_keeps.
  - apply keeps_observe.
Qed.

Lemma handlePacket_dispatch (p : Object) :
  handlePacket p
  = (log "silly" "RECV" ;; emit data [VObject p] ;; dispatch p)%js.
Proof. reflexivity. Qed.

Lemma handlePacket_keeps (p : Object) (w : World) :
  R w (exec (handlePacket p) w).
Proof.
  rewrite handlePacket_dispatch. unfold log.
  apply keeps_bind; [apply keeps_observe|]. intros _.
  apply keeps_bind; [apply emit_keeps|]. intros _.
  apply dispatch_keeps.
Qed.

Lemma handleValueChange_keeps (buf : Buffer) (w : World) :
  R w (exec (handleValueChange buf) w).
Proof.
  unfold handleValueChange.
  apply keeps_bind; [now apply keeps_still|]. intros timedOut.
  destruct timedOut; [now apply keeps_still|].
  apply keeps_tryCatch; [apply handlePacket_keeps|].
  intros _. apply keeps_observe.
Qed.

Lemma handleTimeout_keeps (w : World) : R w (exec handleTimeout w).
Proof.
  unfold handleTimeout, log.
  apply keeps_bind; [apply keeps_observe|]. intros _.
  apply keeps_bind; [exact R_didTimeout|]. intros _.
  apply keeps_bind; [apply emit_keeps|]. intros _.
  apply keeps_bind; [apply keeps_observe|]. intros _.
  apply keeps_bind; [exact R_unsubscribe|]. intros _.
  exact R_destroy.
Qed.

Lemma runTimers_keeps (fuel : nat) (t : N) (w : World) :
  R w (exec (runTimers fuel t) w).
Proof.
  revert w. induction fuel as [|fuel IH]; intros w; [apply R_refl|].
  cbn [runTimers]. unfold exec, bind at 1, gets.
  destruct (nextDue t (pending w)) as [[id due]|] eqn:N;
    [|apply R_refl].
  apply nextDue_In in N. destruct N as [Hin _].
  pose proof (R_fire id due w Hin) as F.
  unfold exec, clearTimeout, modify in F. cbn [snd] in F.
  unfold bind at 1 2, clearTimeout, modify.
  refine (R_trans _ _ _ F _).
  match goal with
  | |- R ?x (snd (bind ?m ?k ?x)) =>
      apply (keeps_bind m k)
  end.
  - apply keeps_tryCatch; [apply handleTimeout_keeps|].
    intros e. apply keeps_bind; [apply keeps_observe|].
    intros _. now apply keeps_still.
  - intros _. exact IH.
Qed.

Lemma elapse_keeps (ms : N) (w : World) : R w (exec (elapse ms) w).
Proof.
  unfold elapse.
  apply keeps_bind; [now apply keeps_still|]. intros now.
  apply keeps_bind; [now apply keeps_still|]. intros timers.
  apply keeps_bind; [apply runTimers_keeps|]. intros _.
  intros w0. apply R_clock.
Qed.

Lemma step_keeps (e : Event) (w : World) : R w (exec (step e) w).
Proof.
  destruct e as [buf|ms]; cbn [step]; [|apply elapse_keeps].
  apply keeps_bind; [now apply keeps_still|]. intros sub.
  destruct sub; [apply handleValueChange_keeps | now apply keeps_still].
Qed.

Lemma run_keeps (events : list Event) (w : World) :
  R w (exec (run events) w).
Proof.
  revert w. induction events as [|e rest IH]; intros w; [apply R_refl|].
  cbn [run]. apply keeps_bind; [apply step_keeps | intros _; exact IH].
Qed.

End Invariant.


Lemma StaysClosed_refl (w : World) : StaysClosed w w.
Proof. now constructor. Qed.

Lemma StaysClosed_trans (a b c : World) :
  StaysClosed a b -> StaysClosed b c -> StaysClosed a c.
Proof. intros [] []. constructor; intros; auto; congruence. Qed.

Lemma Quiet_StaysClosed (w w' : World) : Quiet w w' -> StaysClosed w w'.
Proof. intros []. constructor; intros; congruence. Qed.

Lemma StaysClosed_destroy (w : World) : StaysClosed w (exec destroy w).
Proof.
  unfold exec.
  destruct (destroy_spec w)
    as (w' & -> & _ & Dt & _ & Dv & Dl & _ & _ & _ & De & Dn & _).
  cbn [snd]. constructor; intros; try congruence.
  - rewrite De, H. reflexivity.
  - rewrite Dn, H.
    destruct (eventChar w && stopOk (link w))%bool; reflexivity.
Qed.

Lemma Grows_refl (w : World) : Grows w w.
Proof. exists []. now rewrite app_nil_r. Qed.

Lemma Grows_trans (a b c : World) : Grows a b -> Grows b c -> Grows a c.
Proof.
  intros (d1 & T1) (d2 & T2). exists (d1 ++ d2).
  now rewrite T2, T1, app_assoc.
Qed.

Lemma Quiet_Grows (w w' : World) : Quiet w w' -> Grows w w'.
Proof. intros [_ _ _ _ _ _ (d & T & _)]. now exists d. Qed.

Lemma Grows_same (w w' : World) : trace w' = trace w -> Grows w w'.
Proof. intros E. exists []. now rewrite app_nil_r. Qed.

Lemma SingleTimer_filter (w : World) (p : nat * N -> bool) :
  SingleTimer w -> SingleTimer (set_pending (filter p (pending w)) w).
Proof.
  intros [P|(id & due & P & H)].
  - left. cbn. now rewrite P.
  - cbn. unfold SingleTimer. cbn. rewrite P. cbn.
    destruct (p (id, due)); [right; now exists id, due | now left].
Qed.

Lemma SingleTimer_resetTimer (secs : N) (w : World) :
  SingleTimer w -> SingleTimer (exec (resetTimer secs) w).
Proof.
  intros S. unfold exec, resetTimer, bind, gets, modify, ret, setTimeout,
    clearTimeout.
  destruct S as [P|(id & due & P & H)].
  - destruct (timeoutHandle w); cbn; rewrite P; right; cbn;
      eexists; eexists; split; reflexivity.
  - rewrite H. cbn. rewrite P. cbn. rewrite Nat.eqb_refl. cbn.
    right. eexists. eexists. split; reflexivity.
Qed.

Lemma SingleTimer_destroy (w : World) :
  SingleTimer w -> SingleTimer (exec destroy w).
Proof.
  intros S. unfold exec.
  destruct (destroy_spec w)
    as (w' & -> & _ & _ & _ & _ & _ & _ & Dh & Dp & _).
  cbn [snd]. left. rewrite Dp.
  destruct S as [P|(id & due & P & H)].
  - rewrite P. now destruct (timeoutHandle w).
  - rewrite H, P. cbn. now rewrite Nat.eqb_refl.
Qed.

Lemma SingleTimer_same (w w' : World) :
  pending w' = pending w -> timeoutHandle w' = timeoutHandle w ->
  SingleTimer w -> SingleTimer w'.
Proof. unfold SingleTimer. intros -> ->. exact (fun H => H). Qed.

Lemma SingleTimer_run (events : list Event) (w : World) :
  SingleTimer w -> SingleTimer (exec (run events) w).
Proof.
  apply (run_keeps (fun w w' => SingleTimer w -> SingleTimer w')); clear.
  - auto.
  - auto.
  - intros o w. now apply SingleTimer_same.
  - intros s e h w. unfold exec.
    destruct (off_spec e (Some (wrappedHandler s e h)) w)
      as (w' & -> & _ & _ & P & H & _).
    now apply SingleTimer_same.
  - apply SingleTimer_resetTimer.
  - intros w. now apply SingleTimer_same.
  - intros w. now apply SingleTimer_same.
  - intros w. now apply SingleTimer_same.
  - apply SingleTimer_destroy.
  - intros id due w _ S. unfold exec, clearTimeout, modify. cbn [snd].
    apply (SingleTimer_filter w (fun t => negb (Nat.eqb (fst t) id))) in S.
    revert S. apply SingleTimer_same; reflexivity.
  - intros t w. now apply SingleTimer_same.
Qed.

Lemma SingleTimer_emit (e : EventName) (args : list value) (w : World) :
  SingleTimer w -> SingleTimer (exec (emit e args) w).
Proof.
  apply (emit_keeps (fun w w' => SingleTimer w -> SingleTimer w')); clear.
  - auto.
  - auto.
  - intros o w. now apply SingleTimer_same.
  - intros s e h w. unfold exec.
    destruct (off_spec e (Some (wrappedHandler s e h)) w)
      as (w' & -> & _ & _ & P & H & _).
    now apply SingleTimer_same.
  - apply SingleTimer_resetTimer.
  - intros w. now apply SingleTimer_same.
Qed.

Lemma SingleTimer_startListening (secs : N) (w : World) :
  SingleTimer w -> SingleTimer (exec (startListening secs) w).
Proof.
  set (R := fun a b : World => SingleTimer a -> SingleTimer b).
  assert (T : forall a b c, R a b -> R b c -> R a c) by (unfold R; auto).
  assert (Still : forall A (m : M A),
             (forall x, pending (exec m x) = pending x /\
                        timeoutHandle (exec m x) = timeoutHandle x) ->
             forall x, R x (exec m x)).
  { intros A m H x. destruct (H x). unfold R. now apply SingleTimer_same. }
  revert w. change (forall w, R w (exec (startListening secs) w)).
  unfold startListening.
  apply (keeps_bind R T); [now apply Still|]. intros ec.
  destruct ec; [now apply Still|].
  apply (keeps_bind R T); [now apply Still|]. intros _.
  apply (keeps_bind R T); [now apply Still|]. intros ok.
  apply (keeps_bind R T); [destruct ok; now apply Still|]. intros _.
  apply (keeps_bind R T); [now apply Still|]. intros _.
  apply (keeps_bind R T); [now apply Still|]. intros _.
  apply (keeps_bind R T); [now apply Still|]. intros ok'.
  apply (keeps_bind R T); [destruct ok'; now apply Still|]. intros _.
  apply (keeps_bind R T); [now apply Still|]. intros _.
  apply (keeps_bind R T); [exact (SingleTimer_resetTimer secs)|]. intros _.
  now apply Still.
Qed.

(** X12.  A session has at most one timer pending at any time, and it is the
    one [timeoutHandle] holds: this is so of a new instance, and it stays so
    through [on], [once], [off], [emit], [startListening] and [destroy], and
    through every sequence of notifications and of stretches of time,
    whatever the listeners do. *)
Theorem at_most_one_timer_pending :
  (forall l, SingleTimer (newScale l)) /\
  (forall w,
      SingleTimer w ->
      (forall e h,
          SingleTimer (exec (on e h) w) /\
          SingleTimer (exec (once e h) w) /\
          SingleTimer (exec (off e h) w)) /\
      (forall e args, SingleTimer (exec (emit e args) w)) /\
      (forall secs, SingleTimer (exec (startListening secs) w)) /\
      SingleTimer (exec destroy w) /\
      (forall events, SingleTimer (exec (run events) w))).
Proof.
  split; [intros l; now left|].
  intros w S. split; [|split; [|split; [|split]]].
  - intros e h. split; [|split].
    + destruct h; revert S; now apply SingleTimer_same.
    + destruct h; revert S; now apply SingleTimer_same.
    + unfold exec.
      destruct (off_spec e h w) as (w' & -> & _ & _ & P & H & _).
      revert S. now apply SingleTimer_same.
  - intros e args. now apply SingleTimer_emit.
  - intros secs. now apply SingleTimer_startListening.
  - now apply SingleTimer_destroy.
  - intros events. now apply SingleTimer_run.
Qed.

(** A session that listens, gets frames and times out. *)
Lemma at_most_one_timer_pending_witness :
  SingleTimer
    (exec (run [Notify [x12; x00; x00]; Elapse 4000;
                Notify [x10; x07; x15; x04; x4c; x00; x7e]; Elapse 12000])
          (exec (startListening 10) (newScale goodLink))).
Proof.
  apply (proj2 at_most_one_timer_pending
           (exec (startListening 10) (newScale goodLink))).
  right. now exists 0%nat, 10000%N.
Defined.

Lemma Shrinks_run (events : list Event) (w : World) :
  Shrinks w (exec (run events) w).
Proof.
  apply (run_keeps Shrinks); clear.
  - apply Shrinks_refl.
  - apply Shrinks_trans.
  - intros o w. now apply Shrinks_same.
  - intros s e h w. unfold exec.
    now destruct (off_spec e (Some (wrappedHandler s e h)) w)
      as (w' & -> & _ & S & _).
  - intros secs w. unfold exec.
    destruct (resetTimer_spec secs w) as (w' & -> & _ & L).
    now apply Shrinks_same.
  - intros w. now apply Shrinks_same.
  - intros w. now apply Shrinks_same.
  - intros w. now apply Shrinks_same.
  - intros w. unfold exec.
    destruct (destroy_spec w) as (w' & -> & L & _).
    now apply Shrinks_same.
  - intros id due w _. now apply Shrinks_same.
  - intros t w. now apply Shrinks_same.
Qed.

(** X13.  Handling notifications and timers registers no listener: whatever
    frames arrive and however much time passes, every listener registered
    for an event afterwards was registered for it before (listeners go only
    when a once-wrapper takes itself off). *)
Theorem handling_registers_no_listener (events : list Event) (w : World)
    (e : EventName) (h : Handler) :
  In h (listenersOf e (listeners (exec (run events) w))) ->
  In h (listenersOf e (listeners w)).
Proof.
  intros H.
  pose proof (Shrinks_run events w e
                (fun x => In x (listenersOf e (listeners w)))) as S.
  cbv beta in S. rewrite !Forall_forall in S. apply S; auto.
Qed.

Lemma handling_registers_no_listener_witness :
  In (External 2 false)
     (listenersOf data (listeners
        (exec (on data (Some (External 2 false)))
              (newScale goodLink)))).
Proof.
  apply (handling_registers_no_listener
           [Notify [x12; x00; x00]; Elapse 3000]
           (exec (on data (Some (External 2 false))) (newScale goodLink))
           data (External 2 false)).
  cbn. now left.
Defined.

Lemma StaysClosed_run (events : list Event) (w : World) :
  StaysClosed w (exec (run events) w).
Proof.
  apply (run_keeps StaysClosed); clear.
  - apply StaysClosed_refl.
  - apply StaysClosed_trans.
  - intros o w. now constructor.
  - intros s e h w. unfold exec.
    destruct (off_spec e (Some (wrappedHandler s e h)) w) as (w' & -> & Q & _).
    now apply Quiet_StaysClosed.
  - intros secs w. unfold exec.
    destruct (resetTimer_spec secs w) as (w' & -> & Q & _).
    now apply Quiet_StaysClosed.
  - intros w. now constructor.
  - intros w. now constructor.
  - intros w. now constructor.
  - apply StaysClosed_destroy.
  - intros id due w _. now constructor.
  - intros t w. now constructor.
Qed.

(** X14.  Nothing that arrives and no passing of time opens a session again:
    through every sequence of notifications and timers, and whatever the
    listeners do, [eventChar] stays unset once it is unset, the timed-out
    flag stays set once it is set, the listener stays off the characteristic
    and the notifications stay stopped. *)
Theorem closed_session_stays_closed (events : list Event) (w : World) :
  let w' := exec (run events) w in
  (eventChar w = false -> eventChar w' = false) /\
  (didTimeout w = true -> didTimeout w' = true) /\
  (valuechanged w = false -> valuechanged w' = false) /\
  (notifying w = false -> notifying w' = false) /\
  link w' = link w.
Proof.
  cbv zeta. destruct (StaysClosed_run events w) as [Ce Cd Cv Cn Cl].
  repeat split; assumption.
Qed.

(** A session that was destroyed, and what reaches it afterwards. *)
Lemma closed_session_stays_closed_witness :
  let w := exec destroy (exec (startListening 10) (newScale goodLink)) in
  let w' := exec (run [Notify [x12; x00; x00]; Elapse 20000]) w in
  eventChar w' = false /\ notifying w' = false.
Proof.
  split.
  - apply (proj1 (closed_session_stays_closed
                    [Notify [x12; x00; x00]; Elapse 20000]
                    (exec destroy
                          (exec (startListening 10) (newScale goodLink))))).
    reflexivity.
  - apply (proj1 (proj2 (proj2 (proj2 (closed_session_stays_closed
                    [Notify [x12; x00; x00]; Elapse 20000]
                    (exec destroy
                          (exec (startListening 10)
                                (newScale goodLink)))))))).
    reflexivity.
Defined.

(* ================================================================== *)
(** * Further properties of packet handling *)
(* ================================================================== *)

(** The tests [handlePacket] makes on the flag, by the sixth octet. *)
Lemma flag_test (buf : Buffer) (c : byte) :
  strictEq (flagOf (parseIncomingPacket buf)) (octet c)
  = match nth_error buf 5 with
    | Some f => Byte.eqb f c
    | None => false
    end.
Proof.
  unfold flagOf. destruct (parse_fields buf) as (_ & _ & _ & ->).
  destruct (nth_error buf 5) as [f|] eqn:N.
  - pose proof (index_nth buf 5 f N) as E.
    change (Z.of_nat 5) with 5 in E. rewrite E. apply strictEq_octet.
  - pose proof (index_beyond buf 5 N) as E.
    change (Z.of_nat 5) with 5 in E. now rewrite E.
Qed.

Lemma Byte_eqb_neq (a b : byte) : a <> b -> Byte.eqb a b = false.
Proof.
  intros N. destruct (Byte.eqb a b) eqn:E; [|reflexivity].
  apply Byte.byte_dec_bl in E. contradiction.
Qed.

Lemma kind_of_head (buf : Buffer) (b : byte) :
  nth_error buf 0 = Some b ->
  switchPacketId (parseIncomingPacket buf)
  = if Byte.eqb b x12 then FirstPacket
    else if Byte.eqb b x14 then SecondPacket
    else if Byte.eqb b x10 then WeightDataPacket
    else UnknownPacket.
Proof.
  intros H. rewrite parse_kind. destruct buf; [discriminate|].
  now injection H as ->.
Qed.

(** X15.  A weight frame whose flag octet is 0, in a session that has not
    timed out and whose [data] listeners return normally: [liveupdate] is
    emitted once, with [p.weightValue], which is [undefined]; nothing is
    written and no [measurement] is emitted. *)
Theorem unsettled_weight_frame_liveupdate (buf : Buffer) (w : World) :
  didTimeout w = false ->
  Forall peaceful (l_data (listeners w)) ->
  nth_error buf 0 = Some x10 ->
  nth_error buf 5 = Some x00 ->
  let p := parseIncomingPacket buf in
  exists d,
    trace (exec (handleValueChange buf) w) = trace w ++ d /\
    writes d = [] /\
    emissions data d = [[VObject p]] /\
    emissions liveupdate d = [[get "weightValue" p]] /\
    get "weightValue" p = VUndefined /\
    emissions measurement d = [] /\
    emissions timeout d = [].
Proof.
  intros Hd Pd H0 H5. cbv zeta.
  destruct (handleValueChange_spec buf w Hd Pd)
    as (w' & d & E & _ & _ & T & Wr & Da & Tm & Lv & Ms).
  pose proof (kind_of_head buf x10 H0) as K. cbn in K.
  pose proof (flag_test buf x00) as F0. rewrite H5 in F0. cbn in F0.
  pose proof (flag_test buf x01) as F1. rewrite H5 in F1. cbn in F1.
  unfold settled in *. rewrite K, F0, F1 in *.
  cbn [Spec.sends andb] in *.
  unfold exec. rewrite E. cbn [snd]. exists d.
  rewrite parse_no_weightValue. repeat split; assumption.
Qed.

Lemma unsettled_weight_frame_liveupdate_witness :
  let buf := [x10; x07; x15; x04; x4c; x00; x7e] in
  let w := exec (startListening 10) (newScale goodLink) in
  let p := parseIncomingPacket buf in
  exists d,
    trace (exec (handleValueChange buf) w) = trace w ++ d /\
    writes d = [] /\
    emissions data d = [[VObject p]] /\
    emissions liveupdate d = [[get "weightValue" p]] /\
    get "weightValue" p = VUndefined /\
    emissions measurement d = [] /\
    emissions timeout d = [].
Proof.
  apply (unsettled_weight_frame_liveupdate
           [x10; x07; x15; x04; x4c; x00; x7e]
           (exec (startListening 10) (newScale goodLink)));
    try reflexivity.
  repeat constructor.
Defined.

(** X16.  Frames that are emitted as [data] and have no other effect: a
    frame of an unknown kind (the empty frame is one), and a weight frame
    whose flag octet is neither 0 nor 1, or is missing.  Nothing is written,
    neither [liveupdate] nor [measurement] is emitted, and the session goes
    on listening. *)
Theorem frame_without_effect (buf : Buffer) (w : World) :
  didTimeout w = false ->
  Forall peaceful (l_data (listeners w)) ->
  switchPacketId (parseIncomingPacket buf) = UnknownPacket \/
  (nth_error buf 0 = Some x10 /\
   nth_error buf 5 <> Some x00 /\ nth_error buf 5 <> Some x01) ->
  let p := parseIncomingPacket buf in
  let w' := exec (handleValueChange buf) w in
  Steady w w' /\
  exists d,
    trace w' = trace w ++ d /\
    writes d = [] /\
    emissions data d = [[VObject p]] /\
    emissions liveupdate d = [] /\
    emissions measurement d = [] /\
    emissions timeout d = [].
Proof.
  intros Hd Pd H. cbv zeta.
  destruct (handleValueChange_spec buf w Hd Pd)
    as (w' & d & E & St & _ & T & Wr & Da & Tm & Lv & Ms).
  unfold exec. rewrite E. cbn [snd]. split; [exact St|]. exists d.
  destruct H as [K|(H0 & N0 & N1)].
  - rewrite K in *. cbn [Spec.sends] in *. repeat split; assumption.
  - pose proof (kind_of_head buf x10 H0) as K. cbn in K.
    pose proof (flag_test buf x00) as F0.
    pose proof (flag_test buf x01) as F1.
    assert (F0' : strictEq (flagOf (parseIncomingPacket buf)) 0 = false).
    { change 0 with (octet x00). rewrite F0.
      destruct (nth_error buf 5) as [f|]; [|reflexivity].
      apply Byte_eqb_neq. congruence. }
    assert (F1' : settled (parseIncomingPacket buf) = false).
    { unfold settled. change 1 with (octet x01). rewrite F1.
      destruct (nth_error buf 5) as [f|]; [|reflexivity].
      apply Byte_eqb_neq. congruence. }
    rewrite K, F0', F1' in *. cbn [Spec.sends andb] in *.
    repeat split; assumption.
Qed.

(** A weight frame that ends before its flag octet. *)
Lemma frame_without_effect_witness :
  let buf := [x10; x07; x15; x04; x4c] in
  let w := exec (startListening 10) (newScale goodLink) in
  let p := parseIncomingPacket buf in
  let w' := exec (handleValueChange buf) w in
  Steady w w' /\
  exists d,
    trace w' = trace w ++ d /\
    writes d = [] /\
    emissions data d = [[VObject p]] /\
    emissions liveupdate d = [] /\
    emissions measurement d = [] /\
    emissions timeout d = [].
Proof.
  apply (frame_without_effect [x10; x07; x15; x04; x4c]
           (exec (startListening 10) (newScale goodLink))).
  - reflexivity.
  - repeat constructor.
  - right. repeat split; discriminate.
Defined.

(** X17.  When the scale does not take a write, the rejection of
    [writeValue] is caught in [handleValueChange] and logged as a warning:
    one write was attempted, the answer to the frame; after a rejected
    stop packet [measurement] is not emitted; and the session goes on
    listening. *)
Theorem rejected_write_is_logged (buf : Buffer) (b : byte) (w : World) :
  didTimeout w = false ->
  Forall peaceful (l_data (listeners w)) ->
  writeOk (link w) = false ->
  nth_error buf 0 = Some b ->
  b = x12 \/ b = x14 \/ (b = x10 /\ nth_error buf 5 = Some x01) ->
  exists w' d,
    handleValueChange buf w = (Ok tt, w') /\
    Steady w w' /\
    trace w' = trace w ++ d ++ [Log "warn" "Error while handling packet"] /\
    writes d
    = [if Byte.eqb b x12 then magicBytesForFirstPacket
       else if Byte.eqb b x14 then magicBytesForSecondPacket
       else stopPacket] /\
    emissions liveupdate d = [] /\
    emissions measurement d = [].
Proof.
  intros Hd Pd Hw H0 Hb.
  pose proof (kind_of_head buf b H0) as K.
  unfold handleValueChange, bind at 1, gets. rewrite Hd.
  unfold tryCatch, handlePacket, bind at 1, log, observe, modify.
  unfold bind at 1.
  destruct (emit_ok data [VObject (parseIncomingPacket buf)]
              (set_trace (trace w ++ [Log "silly" "RECV"]) w) Pd)
    as (w2 & d1 & E & T & F & Q & _).
  rewrite E. cbn [trace set_trace] in T.
  assert (L : link w2 = link w) by (rewrite (q_link _ _ Q); reflexivity).
  assert (S2 : Steady w w2) by steady_from Q.
  clear E Q.
  destruct Hb as [->|[->|(-> & H5)]].
  - change (switchPacketId (parseIncomingPacket buf) = FirstPacket) in K.
    rewrite K. change (Byte.eqb x12 x12) with true. cbv iota.
    unfold bind, log, observe, modify. rewrite sendCommand_spec.
    cbn [link set_trace trace]. rewrite L, Hw.
    eexists.
    exists (Log "silly" "RECV"
              :: Emit data [VObject (parseIncomingPacket buf)] :: d1
              ++ [Log "debug" "Received handshake packet 1/2";
                  Log "silly" "SEND";
                  WriteValue magicBytesForFirstPacket false]).
    split; [reflexivity|].
    split; [apply (Steady_trans _ _ _ S2); now constructor|].
    split; [cbn [trace set_trace]; rewrite T, <- !app_assoc; cbn [app];
            rewrite <- ?app_assoc; reflexivity|].
    summarize. repeat split.
  - change (switchPacketId (parseIncomingPacket buf) = SecondPacket) in K.
    rewrite K. change (Byte.eqb x14 x12) with false.
    change (Byte.eqb x14 x14) with true. cbv iota.
    unfold bind, log, observe, modify. rewrite sendCommand_spec.
    cbn [link set_trace trace]. rewrite L, Hw.
    eexists.
    exists (Log "silly" "RECV"
              :: Emit data [VObject (parseIncomingPacket buf)] :: d1
              ++ [Log "debug" "Received handshake packet 2/2";
                  Log "silly" "SEND";
                  WriteValue magicBytesForSecondPacket false]).
    split; [reflexivity|].
    split; [apply (Steady_trans _ _ _ S2); now constructor|].
    split; [cbn [trace set_trace]; rewrite T, <- !app_assoc; cbn [app];
            rewrite <- ?app_assoc; reflexivity|].
    summarize. repeat split.
  - change (switchPacketId (parseIncomingPacket buf) = WeightDataPacket)
      in K.
    rewrite K. change (Byte.eqb x10 x12) with false.
    change (Byte.eqb x10 x14) with false. cbv iota.
    unfold bind at 1. rewrite dataIndex_parse.
    pose proof (index_nth buf 5 x01 H5) as E5.
    change (Z.of_nat 5) with 5 in E5. rewrite E5.
    change (strictEq (VNumber (Int (octet x01))) 0) with false.
    change (strictEq (VNumber (Int (octet x01))) 1) with true. cbv iota.
    unfold bind, log, observe, modify. rewrite sendCommand_spec.
    cbn [link set_trace trace]. rewrite L, Hw.
    eexists.
    exists (Log "silly" "RECV"
              :: Emit data [VObject (parseIncomingPacket buf)] :: d1
              ++ [Log "debug" "Received completed measurement packet";
                  Log "silly" "SEND";
                  WriteValue stopPacket false]).
    split; [reflexivity|].
    split; [apply (Steady_trans _ _ _ S2); now constructor|].
    split; [cbn [trace set_trace]; rewrite T, <- !app_assoc; cbn [app];
            rewrite <- ?app_assoc; reflexivity|].
    summarize. repeat split.
Qed.

Lemma rejected_write_is_logged_witness :
  let buf := [x10; x07; x15; x04; x4c; x01; x7e] in
  let w := exec (startListening 10) (newScale deafLink) in
  exists w' d,
    handleValueChange buf w = (Ok tt, w') /\
    Steady w w' /\
    trace w' = trace w ++ d ++ [Log "warn" "Error while handling packet"] /\
    writes d
    = [if Byte.eqb x10 x12 then magicBytesForFirstPacket
       else if Byte.eqb x10 x14 then magicBytesForSecondPacket
       else stopPacket] /\
    emissions liveupdate d = [] /\
    emissions measurement d = [].
Proof.
  apply (rejected_write_is_logged [x10; x07; x15; x04; x4c; x01; x7e] x10
           (exec (startListening 10) (newScale deafLink)));
    try reflexivity.
  - repeat constructor.
  - right. right. split; reflexivity.
Defined.

(** X18.  A [data] listener that throws keeps the frame from being handled:
    the listeners registered after it are not called, nothing is written (a
    handshake frame gets no answer) and neither [liveupdate] nor
    [measurement] is emitted; the exception is caught in [handleValueChange]
    and logged as a warning. *)
Theorem throwing_data_listener_blocks_reply (buf : Buffer)
    (ids : list nat) (i : nat) (rest : list Handler) (w : World) :
  didTimeout w = false ->
  l_data (listeners w) = externals ids ++ External i true :: rest ->
  let p := parseIncomingPacket buf in
  handleValueChange buf w
  = (Ok tt,
     set_trace (trace w ++ Log "silly" "RECV" :: Emit data [VObject p]
                        :: invoked ids [VObject p]
                        ++ [Invoke i [VObject p];
                            Log "warn" "Error while handling packet"]) w).
Proof.
  intros Hd L. cbv zeta.
  unfold handleValueChange, bind at 1, gets. rewrite Hd.
  unfold tryCatch. rewrite handlePacket_dispatch.
  unfold bind at 1, log, observe, modify. unfold bind at 1.
  rewrite (emit_reaches data _ ids _ rest) by exact L.
  cbn [callHandler]. unfold bind, observe, modify, throw.
  unfold set_trace. cbn. rewrite <- !app_assoc. cbn [app].
  rewrite <- ?app_assoc. reflexivity.
Qed.

Lemma throwing_data_listener_blocks_reply_witness :
  let buf := [x12; x00; x00] in
  let w := exec (on data (Some (External 1 true)) ;;
                 startListening 10)%js (newScale goodLink) in
  let p := parseIncomingPacket buf in
  handleValueChange buf w
  = (Ok tt,
     set_trace (trace w ++ Log "silly" "RECV" :: Emit data [VObject p]
                        :: invoked [] [VObject p]
                        ++ [Invoke 1 [VObject p];
                            Log "warn" "Error while handling packet"]) w).
Proof.
  apply (throwing_data_listener_blocks_reply [x12; x00; x00] [] 1
           [resetTimerListener 10]
           (exec (on data (Some (External 1 true)) ;;
                  startListening 10)%js (newScale goodLink)));
    reflexivity.
Defined.

Lemma Grows_dispatch (p : Object) (w : World) : Grows w (exec (dispatch p) w).
Proof.
  apply (dispatch_keeps Grows); clear.
  - apply Grows_refl.
  - apply Grows_trans.
  - intros o w. now exists [o].
  - intros s e h w. unfold exec.
    destruct (off_spec e (Some (wrappedHandler s e h)) w)
      as (w' & -> & Q & _).
    now apply Quiet_Grows.
  - intros secs w. unfold exec.
    destruct (resetTimer_spec secs w) as (w' & -> & Q & _).
    now apply Quiet_Grows.
  - intros w. now apply Grows_same.
Qed.

(** X19.  No exception leaves [handleValueChange], whatever the frame, the
    listeners and the link; and in a session that has not timed out the
    first thing that happens to a frame is its emission as [data], with
    the decoded packet, before anything is written or any other event
    emitted. *)
Theorem handleValueChange_never_throws (buf : Buffer) (w : World) :
  outcome (handleValueChange buf) w = Ok tt /\
  (didTimeout w = false ->
   exists d,
     trace (exec (handleValueChange buf) w)
     = trace w ++ Log "silly" "RECV"
               :: Emit data [VObject (parseIncomingPacket buf)] :: d).
Proof.
  unfold outcome, exec, handleValueChange, bind at 1 2, gets.
  destruct (didTimeout w); [split; [reflexivity | discriminate]|].
  unfold tryCatch. rewrite handlePacket_dispatch.
  unfold bind at 1 3, log, observe, modify. unfold bind at 1 2.
  destruct (emit_spec data [VObject (parseIncomingPacket buf)]
              (set_trace (trace w ++ [Log "silly" "RECV"]) w))
    as (r & w2 & d1 & E & T & _).
  rewrite E. cbn [trace set_trace] in T.
  destruct r as [[]|err].
  - destruct (Grows_dispatch (parseIncomingPacket buf) w2) as (d2 & T2).
    unfold exec in T2.
    destruct (dispatch (parseIncomingPacket buf) w2) as [[[]|err] w3];
      cbn [fst snd] in *; (split; [reflexivity|]); intros _.
    + exists (d1 ++ d2). rewrite T2, T, <- !app_assoc. reflexivity.
    + exists (d1 ++ d2 ++ [Log "warn" "Error while handling packet"]).
      rewrite T2, T, <- !app_assoc. reflexivity.
  - cbn [fst snd]. split; [reflexivity|]. intros _.
    exists (d1 ++ [Log "warn" "Error while handling packet"]).
    rewrite T, <- !app_assoc. reflexivity.
Qed.

Lemma handleValueChange_never_throws_witness :
  let buf := [x12; x00; x00] in
  let w := exec (on data (Some (External 1 true)) ;;
                 startListening 10)%js (newScale deafLink) in
  exists d,
    trace (exec (handleValueChange buf) w)
    = trace w ++ Log "silly" "RECV"
              :: Emit data [VObject (parseIncomingPacket buf)] :: d.
Proof.
  apply (proj2 (handleValueChange_never_throws [x12; x00; x00]
                  (exec (on data (Some (External 1 true)) ;;
                         startListening 10)%js (newScale deafLink)))).
  reflexivity.
Defined.

(* ================================================================== *)
(** * Further properties of the session *)
(* ================================================================== *)

(** [startListening] where the lookups and [startNotifications]
    resolve. *)
Lemma startListening_ok (secs : N) (w : World) :
  eventChar w = false ->
  lookupOk (link w) = true ->
  startOk (link w) = true ->
  exists w',
    startListening secs w = (Ok tt, w') /\
    eventChar w' = true /\ didTimeout w' = false /\
    valuechanged w' = true /\ notifying w' = true /\
    timeoutHandle w' = Some (fresh w) /\
    In (fresh w, (clock w + secs * 1000)%N) (pending w') /\
    listeners w'
    = withListeners data (l_data (listeners w) ++ [resetTimerListener secs])
                    (listeners w).
Proof.
  intros Ec Lo So.
  destruct w as [L th ec dt ck pd fr vc nt [lo so wo sto] rf tr].
  cbn in Ec, Lo, So. subst ec lo so.
  unfold startListening, resetTimer, setTimeout, clearTimeout, on,
    getListeners, setListeners, bind, gets, modify, log, observe, ret.
  destruct th as [id|]; cbn; (eexists; split; [reflexivity|]); cbn;
    repeat split; apply in_or_app; right; now left.
Qed.

(** X20.  [startListening] on a session that is listening does nothing: a
    second call, with whatever window, registers no second listener and
    leaves the timer of the first call as it is. *)
Theorem startListening_twice (a b : N) (w : World) :
  eventChar w = false ->
  lookupOk (link w) = true ->
  startOk (link w) = true ->
  outcome (startListening a) w = Ok tt /\
  startListening b (exec (startListening a) w)
  = (Ok tt, exec (startListening a) w).
Proof.
  intros Ec Lo So. unfold outcome, exec.
  destruct (startListening_ok a w Ec Lo So) as (w' & -> & E & _).
  cbn [fst snd]. split; [reflexivity|].
  unfold startListening, bind, gets. now rewrite E.
Qed.

Lemma startListening_twice_witness :
  outcome (startListening 10) (newScale goodLink) = Ok tt /\
  startListening 30 (exec (startListening 10) (newScale goodLink))
  = (Ok tt, exec (startListening 10) (newScale goodLink)).
Proof.
  apply (startListening_twice 10 30 (newScale goodLink)); reflexivity.
Defined.

(** X21.  [startListening] when the scale does not cooperate.  If a lookup
    rejects, [startListening] rejects and only the log has changed.  If
    [startNotifications] rejects, [startListening] rejects with
    [handleValueChange] already registered on the characteristic; in both
    cases [eventChar] is unset, no timer has been armed and no [data]
    listener registered. *)
Theorem startListening_rejects (secs : N) (w : World) :
  eventChar w = false ->
  (lookupOk (link w) = false ->
   startListening secs w
   = (Threw "characteristic lookup rejected",
      set_trace (trace w ++ [Log "info" "Listening for data packets..."]) w)) /\
  (lookupOk (link w) = true -> startOk (link w) = false ->
   exists w',
     startListening secs w = (Threw "startNotifications rejected", w') /\
     eventChar w' = false /\
     valuechanged w' = true /\
     notifying w' = notifying w /\
     timeoutHandle w' = timeoutHandle w /\
     pending w' = pending w /\
     listeners w' = listeners w).
Proof.
  intros Ec.
  destruct w as [L th ec dt ck pd fr vc nt [lo so wo sto] rf tr].
  cbn in Ec. subst ec. split.
  - cbn. intros ->. reflexivity.
  - cbn. intros -> ->. eexists. split; [reflexivity|]. cbn. repeat split.
Qed.

Lemma startListening_rejects_witness :
  exists w',
    startListening 10 (newScale muteLink)
    = (Threw "startNotifications rejected", w') /\
    eventChar w' = false /\
    valuechanged w' = true /\
    notifying w' = notifying (newScale muteLink) /\
    timeoutHandle w' = timeoutHandle (newScale muteLink) /\
    pending w' = pending (newScale muteLink) /\
    listeners w' = listeners (newScale muteLink).
Proof.
  apply (proj2 (startListening_rejects 10 (newScale muteLink) eq_refl));
    reflexivity.
Defined.

(** X22.  When [stopNotifications] rejects, [destroy] swallows the rejection
    and leaves [eventChar] set, with the timer gone: the session counts as
    listening, so that [startListening] does nothing on it, and every
    further [destroy] tries [stopNotifications] again. *)
Theorem failed_stop_leaves_eventChar_set (w : World) :
  eventChar w = true ->
  stopOk (link w) = false ->
  let w1 := exec destroy w in
  outcome destroy w = Ok tt /\
  eventChar w1 = true /\
  timeoutHandle w1 = None /\
  notifying w1 = notifying w /\
  trace w1
  = trace w ++ [StopNotifications false;
                Log "debug" "Error during destroy(), but that's fine"] /\
  (forall secs, startListening secs w1 = (Ok tt, w1)) /\
  stops (trace (exec destroy w1)) = S (stops (trace w1)).
Proof.
  intros Ec So. cbv zeta. unfold outcome, exec.
  destruct (destroy_spec w)
    as (w1 & -> & _ & _ & _ & _ & Dl & _ & Dh & _ & De & Dn & Dt).
  cbn [fst snd]. rewrite Ec, So in *. cbn [andb negb stopped] in *.
  destruct (destroy_spec w1)
    as (w2 & -> & _ & _ & _ & _ & _ & _ & _ & _ & _ & _ & Dt2).
  cbn [snd]. rewrite De, Dl, So in Dt2. cbn [stopped] in Dt2.
  repeat split; auto.
  - intros secs. unfold startListening, bind, gets. now rewrite De.
  - rewrite Dt2, stops_app. cbn. lia.
Qed.

Lemma failed_stop_leaves_eventChar_set_witness :
  let w1 := exec destroy (exec (startListening 10) (newScale stuckLink)) in
  outcome destroy (exec (startListening 10) (newScale stuckLink)) = Ok tt /\
  eventChar w1 = true /\
  timeoutHandle w1 = None /\
  notifying w1 = notifying (exec (startListening 10) (newScale stuckLink)) /\
  trace w1
  = trace (exec (startListening 10) (newScale stuckLink))
    ++ [StopNotifications false;
        Log "debug" "Error during destroy(), but that's fine"] /\
  (forall secs, startListening secs w1 = (Ok tt, w1)) /\
  stops (trace (exec destroy w1)) = S (stops (trace w1)).
Proof.
  apply (failed_stop_leaves_eventChar_set
           (exec (startListening 10) (newScale stuckLink)));
    reflexivity.
Defined.

(* ================================================================== *)
(** * Further properties of the idle timer *)
(* ================================================================== *)

Lemma callAll_plain_same (l : list Handler) (args : list value) (w : World) :
  Forall plain l -> listeners (exec (callAll l args) w) = listeners w.
Proof.
  intros P. revert w. induction P as [|h l Ph _ IH]; intros w;
    [reflexivity|].
  unfold exec. cbn [callAll]. unfold bind.
  destruct (callHandler_plain h args w Ph) as (r & w1 & -> & L1).
  destruct r as [[]|err]; cbn [snd]; [|exact L1].
  specialize (IH w1). unfold exec in IH. now rewrite IH.
Qed.

(** Without once-wrappers among its listeners an emission leaves every
    listener registered. *)
Lemma emit_plain_same (e : EventName) (args : list value) (w : World) :
  Forall plain (listenersOf e (listeners w)) ->
  listeners (exec (emit e args) w) = listeners w.
Proof.
  intros P. unfold exec. rewrite (emit_plain e args w P).
  unfold bind, observe, modify.
  exact (callAll_plain_same _ args _ P).
Qed.

Lemma NoOnce_same (w w' : World) :
  listeners w' = listeners w -> NoOnce w -> NoOnce w'.
Proof. unfold NoOnce. now intros ->. Qed.

Lemma handleValueChange_plain_same (buf : Buffer) (w : World) :
  NoOnce w -> listeners (exec (handleValueChange buf) w) = listeners w.
Proof.
  set (R := fun a b : World => NoOnce a -> listeners b = listeners a).
  assert (T : forall a b c, R a b -> R b c -> R a c).
  { unfold R. intros a b c H1 H2 Na.
    rewrite (H2 (NoOnce_same a b (H1 Na) Na)). auto. }
  assert (Same : forall A (m : M A),
             (forall x, listeners (exec m x) = listeners x) ->
             forall x, R x (exec m x)) by (unfold R; auto).
  assert (Em : forall e args x, R x (exec (emit e args) x)).
  { intros e args x Nx. apply emit_plain_same, Nx. }
  assert (Sc : forall b x, R x (exec (sendCommand b) x)).
  { intros b. apply Same. intros x. unfold exec.
    now rewrite sendCommand_spec. }
  revert w. change (forall w, R w (exec (handleValueChange buf) w)).
  unfold handleValueChange.
  apply (keeps_bind R T); [now apply Same|]. intros timedOut.
  destruct timedOut; [now apply Same|].
  apply (keeps_tryCatch R T); [|intros _; now apply Same].
  rewrite handlePacket_dispatch.
  apply (keeps_bind R T); [now apply Same|]. intros _.
  apply (keeps_bind R T); [apply Em|]. intros _.
  unfold dispatch. destruct (switchPacketId _).
  - apply (keeps_bind R T); [now apply Same | intros _; apply Sc].
  - apply (keeps_bind R T); [now apply Same | intros _; apply Sc].
  - apply (keeps_bind R T).
    + unfold dataIndex. destruct (get "data" _); now apply Same.
    + intros flag. destruct (strictEq flag 0); [apply Em|].
      destruct (strictEq flag 1); [|now apply Same].
      apply (keeps_bind R T); [now apply Same|]. intros _.
      apply (keeps_bind R T); [apply Sc | intros _; apply Em].
  - now apply Same.
Qed.

(** Before the timer is due nothing happens but the passing of time. *)
Lemma elapse_early (w : World) (id : nat) (due ms : N) :
  pending w = [(id, due)] -> (clock w + ms < due)%N ->
  elapse ms w = (Ok tt, set_clock (clock w + ms) w).
Proof.
  intros P H. unfold elapse, bind, gets. rewrite P.
  cbn [List.length runTimers]. unfold bind, gets. rewrite P.
  cbn [nextDue].
  destruct (N.leb_spec due (clock w + ms)); [lia|]. reflexivity.
Qed.

Lemma peaceful_externals (ids : list nat) (tl : list Handler) :
  Forall peaceful tl -> Forall peaceful (externals ids ++ tl).
Proof.
  intros H. apply Forall_app. split; [|exact H].
  unfold externals. apply Forall_forall. intros h Hin.
  apply in_map_iff in Hin. destruct Hin as (id & <- & _). reflexivity.
Qed.

(** What the specification's table has the session send is what
    [answers] reads off the octets. *)
Lemma answers_sends (buf : Buffer) :
  Spec.sends (switchPacketId (parseIncomingPacket buf))
             (settled (parseIncomingPacket buf))
  = answers buf.
Proof.
  rewrite parse_kind. unfold answers, settled.
  change 1 with (octet x01). rewrite flag_test.
  destruct buf as [|b rest]; [reflexivity|].
  change (nth_error (b :: rest) 0) with (Some b). cbv iota.
  destruct (Byte.eqb b x12); [reflexivity|].
  destruct (Byte.eqb b x14); [reflexivity|].
  destruct (Byte.eqb b x10); [|reflexivity].
  cbn [Spec.sends].
  destruct (nth_error (b :: rest) 5) as [f|]; reflexivity.
Qed.

(** A frame that arrives before the timer is due. *)
Lemma alive_step (secs : N) (ids : list nat) (ms : N) (buf : Buffer)
    (w : World) :
  Alive secs ids w -> (ms < secs * 1000)%N ->
  exists w' d,
    run [Elapse ms; Notify buf] w = (Ok tt, w') /\
    Alive secs ids w' /\
    clock w' = (clock w + ms)%N /\
    eventChar w' = eventChar w /\
    listeners w' = listeners w /\
    trace w' = trace w ++ d /\
    writes d = answers buf /\
    emissions timeout d = [] /\
    emissions data d = [[VObject (parseIncomingPacket buf)]].
Proof.
  intros [Hd Hv Hn No Ld Fl Fm (id & Hh & Hp)] Hms.
  cbn [run step]. unfold bind at 1.
  rewrite (elapse_early w id _ ms Hp) by lia.
  set (w1 := set_clock (clock w + ms) w).
  unfold bind at 1 2, gets, when.
  change (valuechanged w1) with (valuechanged w).
  change (notifying w1) with (notifying w). rewrite Hv, Hn. cbn [andb].
  assert (T1 : Tidy w1).
  { intros t Hin. change (pending w1) with (pending w) in Hin.
    rewrite Hp in Hin. destruct Hin as [<-|[]]. exact Hh. }
  destruct (notification_resets_deadline buf w1 ids secs Hd T1 Ld Fl Fm)
    as (w2 & E & P2 & H2).
  assert (Pd : Forall peaceful (l_data (listeners w1))).
  { change (listeners w1) with (listeners w). rewrite Ld.
    apply peaceful_externals. repeat constructor. }
  destruct (handleValueChange_spec buf w1 Hd Pd)
    as (w2' & d & E' & St & _ & Tr & Wr & Da & Tm & _).
  rewrite E in E'. injection E' as <-.
  pose proof (handleValueChange_plain_same buf w1 No) as L2.
  unfold exec in L2. rewrite E in L2 |- *. cbn [snd] in L2.
  rewrite answers_sends in Wr.
  unfold ret. exists w2, d. split; [reflexivity|].
  destruct St as [Se Sd Sc Sv Sn Sl].
  assert (No2 : NoOnce w2) by now apply (NoOnce_same w1 w2).
  clear T1 E Pd. subst w1.
  cbn [eventChar didTimeout clock valuechanged notifying link listeners
       trace fresh set_clock] in *.
  split; [|repeat split; auto].
  constructor; rewrite ?L2; try assumption; try congruence.
  exists (fresh w). rewrite Sc. split; assumption.
Qed.

Lemma alive_run (secs : N) (ids : list nat) (frames : list (N * Buffer))
    (w : World) :
  Alive secs ids w ->
  Forall (fun f => (fst f < secs * 1000)%N) frames ->
  exists w' d,
    run (arrivals frames) w = (Ok tt, w') /\
    Alive secs ids w' /\
    clock w' = (clock w + fold_right N.add 0 (map fst frames))%N /\
    eventChar w' = eventChar w /\
    listeners w' = listeners w /\
    trace w' = trace w ++ d /\
    writes d
    = flat_map (fun f => answers (snd f)) frames /\
    emissions timeout d = [] /\
    emissions data d
    = map (fun f => [VObject (parseIncomingPacket (snd f))]) frames.
Proof.
  intros A F. revert w A. induction F as [|[ms buf] frames Hms _ IH];
    intros w A.
  - exists w, []. cbn. rewrite app_nil_r, N.add_0_r.
    split; [reflexivity|]. split; [exact A|]. repeat split.
  - destruct (alive_step secs ids ms buf w A Hms)
      as (w1 & d1 & E1 & A1 & C1 & Ec1 & L1 & T1 & W1 & Tm1 & Da1).
    destruct (IH w1 A1)
      as (w2 & d2 & E2 & A2 & C2 & Ec2 & L2 & T2 & W2 & Tm2 & Da2).
    exists w2, (d1 ++ d2).
    split.
    { cbn [arrivals flat_map app fst snd run] in *. unfold bind in *.
      destruct (step (Elapse ms) w) as [[[]|err] wa]; [|discriminate].
      destruct (step (Notify buf) wa) as [[[]|err] wb]; [|discriminate].
      cbn [ret] in E1. injection E1 as ->. exact E2. }
    split; [exact A2|].
    split; [rewrite C2, C1; cbn [map fold_right fst]; lia|].
    split; [congruence|]. split; [congruence|].
    split; [rewrite T2, T1, app_assoc; reflexivity|].
    rewrite writes_app, !emissions_app, W1, W2, Tm1, Tm2, Da1, Da2.
    repeat split.
Qed.

(** X23.  A session that keeps getting frames does not time out.  In a
    listening session whose timer has just been set, without once-wrapped
    listeners and with the listener of [startListening] as the last [data]
    listener, frames that arrive each less than the window after the one
    before are all emitted as [data], a write is made for each that calls
    for an answer, [timeout] is not emitted, the session stays subscribed
    with the same listeners, and after the last frame the timer is due a
    full window later. *)
Theorem frames_in_time_keep_session_alive (secs : N) (ids : list nat)
    (frames : list (N * Buffer)) (w : World) (id : nat) :
  didTimeout w = false -> valuechanged w = true -> notifying w = true ->
  NoOnce w ->
  l_data (listeners w) = externals ids ++ [resetTimerListener secs] ->
  Forall timerFree (l_liveupdate (listeners w)) ->
  Forall timerFree (l_measurement (listeners w)) ->
  timeoutHandle w = Some id ->
  pending w = [(id, (clock w + secs * 1000)%N)] ->
  Forall (fun f => (fst f < secs * 1000)%N) frames ->
  let w' := exec (run (arrivals frames)) w in
  outcome (run (arrivals frames)) w = Ok tt /\
  didTimeout w' = false /\ valuechanged w' = true /\ notifying w' = true /\
  eventChar w' = eventChar w /\
  listeners w' = listeners w /\
  clock w' = (clock w + fold_right N.add 0 (map fst frames))%N /\
  (exists id', pending w' = [(id', (clock w' + secs * 1000)%N)]) /\
  exists d,
    trace w' = trace w ++ d /\
    emissions timeout d = [] /\
    emissions data d
    = map (fun f => [VObject (parseIncomingPacket (snd f))]) frames /\
    writes d
    = flat_map (fun f => answers (snd f)) frames.
Proof.
  intros Hd Hv Hn No Ld Fl Fm Hh Hp F. cbv zeta.
  assert (A : Alive secs ids w).
  { constructor; auto. now exists id. }
  destruct (alive_run secs ids frames w A F)
    as (w' & d & E & [Hd' Hv' Hn' _ _ _ _ (id' & _ & Hp')] & C & Ec & L & T
        & W & Tm & Da).
  unfold outcome, exec. rewrite E. cbn [fst snd].
  do 7 (split; [assumption || reflexivity|]).
  split; [now exists id'|].
  exists d. repeat split; assumption.
Qed.

(** Three frames, four, nine and nine seconds apart, in a ten-second
    window. *)
Lemma frames_in_time_keep_session_alive_witness :
  let w := exec (on data (Some (External 1 false)) ;;
                 startListening 10)%js (newScale goodLink) in
  let frames := [(4000%N, [x12; x00; x00]); (9000%N, [x14; x00; x00]);
                 (9000%N, [x10; x07; x15; x04; x4c; x00; x7e])] in
  let w' := exec (run (arrivals frames)) w in
  outcome (run (arrivals frames)) w = Ok tt /\
  didTimeout w' = false /\ valuechanged w' = true /\ notifying w' = true /\
  eventChar w' = eventChar w /\
  listeners w' = listeners w /\
  clock w' = (clock w + fold_right N.add 0 (map fst frames))%N /\
  (exists id', pending w' = [(id', (clock w' + 10 * 1000)%N)]) /\
  exists d,
    trace w' = trace w ++ d /\
    emissions timeout d = [] /\
    emissions data d
    = map (fun f => [VObject (parseIncomingPacket (snd f))]) frames /\
    writes d
    = flat_map (fun f => answers (snd f)) frames.
Proof.
  apply (frames_in_time_keep_session_alive 10 [1%nat]
           [(4000%N, [x12; x00; x00]); (9000%N, [x14; x00; x00]);
            (9000%N, [x10; x07; x15; x04; x4c; x00; x7e])]
           (exec (on data (Some (External 1 false)) ;;
                  startListening 10)%js (newScale goodLink)) 0);
    try reflexivity.
  - intros []; repeat constructor.
  - constructor.
  - constructor.
  - repeat constructor.
Defined.


Lemma handleTimeout_closes (w : World) :
  Forall peaceful (l_timeout (listeners w)) ->
  eventChar w = true -> stopOk (link w) = true ->
  notifying (exec handleTimeout w) = false.
Proof.
  intros P Ec So. unfold exec, handleTimeout, bind, log, observe, modify.
  match goal with
  | |- context [emit timeout [] ?x] =>
      destruct (emit_ok timeout [] x P) as (w1 & d & E & _ & _ & Q & _)
  end.
  rewrite E.
  match goal with
  | |- context [destroy ?x] =>
      destruct (destroy_spec x)
        as (w2 & D & _ & _ & _ & _ & _ & _ & _ & _ & _ & Dn & _)
  end.
  rewrite D. cbn [snd]. rewrite Dn.
  destruct Q as [qe _ _ _ _ ql _]. cbn in qe, ql |- *.
  now rewrite qe, ql, Ec, So.
Qed.

Lemma elapse_closes (w : World) (id : nat) (due ms : N) :
  timeoutHandle w = Some id ->
  pending w = [(id, due)] ->
  eventChar w = true ->
  stopOk (link w) = true ->
  Forall peaceful (l_timeout (listeners w)) ->
  (due <= clock w + ms)%N ->
  exists w' d,
    elapse ms w = (Ok tt, w') /\
    didTimeout w' = true /\ eventChar w' = false /\
    valuechanged w' = false /\ notifying w' = false /\
    timeoutHandle w' = None /\ pending w' = [] /\
    clock w' = (clock w + ms)%N /\
    trace w' = trace w ++ d /\
    emissions timeout d = [[]] /\
    unsubscriptions d = 1%nat /\
    stops d = 1%nat /\
    writes d = [].
Proof.
  intros Hh Hp Ec So Pt Due.
  unfold elapse, bind at 1 2 3, gets.
  rewrite Hp. cbn [List.length runTimers]. unfold bind at 1, gets.
  rewrite Hp. cbn [nextDue].
  destruct (N.leb_spec due (clock w + ms)); [|lia].
  unfold bind at 1 2 3, clearTimeout, modify. rewrite Hp.
  cbn [filter fst]. rewrite Nat.eqb_refl. cbn [negb].
  unfold tryCatch.
  set (x := set_clock due (set_pending [] w)).
  assert (Tx : Tidy x) by (intros ? []).
  pose proof (handleTimeout_clears x Pt Tx) as Cl.
  pose proof (handleTimeout_closes x Pt Ec So) as Nt.
  destruct (handleTimeout_spec x Pt)
    as (w1 & d & E & F & Hd & Hv & Hh1 & Hl & Hc & He & Tr).
  unfold exec in Cl, Nt. rewrite E in Cl, Nt |- *. cbn [snd] in Cl, Nt.
  change (eventChar x) with (eventChar w) in He, Tr.
  change (link x) with (link w) in He, Tr.
  change (trace x) with (trace w) in Tr.
  rewrite Ec, So in He, Tr. cbn [andb negb stopped] in He, Tr.
  eexists.
  exists ([Log "warn" "timeout"; Emit timeout []] ++ d
          ++ [OffValueChanged] ++ [StopNotifications true]).
  split; [reflexivity|].
  cbn [didTimeout eventChar valuechanged notifying timeoutHandle pending
       clock trace set_clock].
  do 8 (split; [assumption || reflexivity|]).
  rewrite !unsubscriptions_app, !stops_app,
    (unsubscriptions_invokes d F), (stops_invokes d F).
  summarize. repeat split.
Qed.

(** X24.  The timer of a listening session, to the millisecond.  Before it
    is due nothing happens.  When it is due, and the [timeout] listeners
    return normally and [stopNotifications] resolves, the session emits
    [timeout] once, takes its listener off the characteristic, stops the
    notifications and unsets [eventChar]; no timer is left, nothing was
    written, and whatever arrives afterwards leaves no trace. *)
Theorem idle_session_closes_at_deadline (w : World) (id : nat)
    (due ms : N) :
  timeoutHandle w = Some id ->
  pending w = [(id, due)] ->
  eventChar w = true ->
  stopOk (link w) = true ->
  Forall peaceful (l_timeout (listeners w)) ->
  ((clock w + ms < due)%N ->
   elapse ms w = (Ok tt, set_clock (clock w + ms) w)) /\
  ((due <= clock w + ms)%N ->
   let w' := exec (elapse ms) w in
   outcome (elapse ms) w = Ok tt /\
   didTimeout w' = true /\ eventChar w' = false /\
   valuechanged w' = false /\ notifying w' = false /\
   timeoutHandle w' = None /\ pending w' = [] /\
   clock w' = (clock w + ms)%N /\
   (exists d,
       trace w' = trace w ++ d /\
       emissions timeout d = [[]] /\
       unsubscriptions d = 1%nat /\
       stops d = 1%nat /\
       writes d = []) /\
   forall events,
     outcome (run events) w' = Ok tt /\
     trace (exec (run events) w') = trace w').
Proof.
  intros Hh Hp Ec So Pt. split; [exact (elapse_early w id due ms Hp)|].
  intros Due. cbv zeta.
  destruct (elapse_closes w id due ms Hh Hp Ec So Pt Due)
    as (w' & d & E & Hd & He & Hv & Hn & Hh' & Hp' & Hc & Tr & Tm & Un
        & St & Wr).
  unfold outcome, exec. rewrite E. cbn [fst snd].
  do 8 (split; [assumption || reflexivity|]).
  split; [exists d; repeat split; assumption|].
  intros events.
  destruct (closed_session_silent events w' Hp' Hd) as (w2 & -> & T2 & _).
  split; [reflexivity | exact T2].
Qed.

(** A ten-second window: nothing after 9999 ms, [timeout] after
    10000 ms. *)
Lemma idle_session_closes_at_deadline_witness :
  let w := exec (startListening 10) (newScale goodLink) in
  elapse 9999 w = (Ok tt, set_clock (clock w + 9999) w) /\
  didTimeout (exec (elapse 10000) w) = true.
Proof.
  split.
  - apply (proj1 (idle_session_closes_at_deadline
                    (exec (startListening 10) (newScale goodLink))
                    0 10000 9999 eq_refl eq_refl eq_refl eq_refl
                    (Forall_nil _))).
    reflexivity.
  - apply (proj2 (idle_session_closes_at_deadline
                    (exec (startListening 10) (newScale goodLink))
                    0 10000 10000 eq_refl eq_refl eq_refl eq_refl
                    (Forall_nil _))).
    discriminate.
Defined.

(* ================================================================== *)
(** * Further properties of runMessageLoop *)
(* ================================================================== *)

Lemma connectAndHandle_sessions (opts : Opts) (a : Attempt) (s : Loop) :
  (List.length (sessions s)
   <= List.length (sessions (snd (connectAndHandle opts a s))))%nat /\
  forall i, fst (connectAndHandle opts a s) = Resolves i ->
            (i < List.length (sessions (snd (connectAndHandle opts a s))))%nat.
Proof.
  unfold connectAndHandle.
  destruct (connectOk a); cbn [negb].
  - destruct (setUp opts (newScale (gatt a))) as [[[]|e] w].
    + destruct (awaitFlag (events a) w) as [[[]|e] w'];
        [destruct (raiseFlag w')|]; cbn;
        rewrite length_app; cbn; split; try lia;
        intros i H; try discriminate.
      injection H as <-. lia.
    + cbn. rewrite length_app. cbn. split; [lia|]. discriminate.
  - cbn. split; [lia|]. discriminate.
Qed.

Lemma while_stored (opts : Opts) (script : list Attempt) (s : Loop) :
  Stored s -> Stored (snd (while opts script s)).
Proof.
  revert s. induction script as [|a rest IH]; intros s St; [exact St|].
  cbn [while].
  destruct (connectAndHandle_sessions opts a s) as (Le & Lt).
  destruct (connectAndHandle_spec opts a s)
    as (r & s' & x & E & _ & Dd & _).
  rewrite E in Le, Lt |- *. cbn [fst snd] in Le, Lt.
  assert (St' : Stored s').
  { intros i Hi. rewrite Dd in Hi. specialize (St i Hi). lia. }
  destruct r as [i|e| |e].
  - assert (Si : Stored (setDestructor i s')).
    { intros j Hj. cbn in Hj. injection Hj as <-. now apply Lt. }
    destruct (runOnce opts); [exact Si|].
    apply IH. exact Si.
  - apply IH. exact St'.
  - exact St'.
  - exact St'.
Qed.

Lemma nth_error_replaceNth {A} (l : list A) (i : nat) (x : A) :
  (i < List.length l)%nat -> nth_error (replaceNth i x l) i = Some x.
Proof.
  revert i. induction l as [|y l IH]; intros i H; [cbn in H; lia|].
  destruct i; [reflexivity|]. cbn in *. apply IH. lia.
Qed.

(** The session the [finally] block destroys. *)
Lemma finally_destroys (s : Loop) (i : nat) :
  destroyScaleSession s = Some i -> (i < List.length (sessions s))%nat ->
  exists w,
    nth_error (sessions s) i = Some w /\
    nth_error (sessions (finally s)) i = Some (exec destroy w).
Proof.
  intros D L. destruct (nth_error (sessions s) i) as [w|] eqn:N;
    [|apply nth_error_None in N; lia].
  exists w. split; [reflexivity|].
  unfold finally. cbn [note destroyScaleSession]. rewrite D.
  unfold updateSession. cbn [note sessions]. rewrite N.
  cbn [sessions]. now apply nth_error_replaceNth.
Qed.

Lemma did_finally (s : Loop) :
  exists x, did (finally s) = did s ++ Info :: x ++ [DestroyBluetooth] /\
            releases x = 0%nat /\ connects x = 0%nat.
Proof.
  unfold finally. cbn [note destroyScaleSession did].
  destruct (destroyScaleSession s) as [i|]; cbn [note did].
  - rewrite did_updateSession. cbn [note did]. exists [Destroy i].
    rewrite <- !app_assoc. repeat split.
  - exists []. rewrite <- !app_assoc. repeat split.
Qed.

(** X25.  How [runMessageLoop] releases what it holds.  While it is in its
    loop it destroys no session and does not release the Bluetooth
    connection, and neither does it when the process ends on an uncaught
    exception.  When it is left (it returned, or the adapter could not be
    had and it rejected) [destroyBluetooth] has been called exactly once, as
    the last thing done; at most one session has been destroyed, the one
    whose flag was raised.  When it returned, that session has been through
    [destroy]: its timer is cancelled, and [eventChar] is unset if
    [stopNotifications] resolved.  When the adapter could not be had, no
    connection was attempted. *)
Theorem loop_exit_releases_once (adapterOk : bool) (opts : Opts)
    (script : list Attempt) :
  let r := runMessageLoop adapterOk opts script in
  (fst r = Looping \/ (exists e, fst r = Exited e) ->
   releases (did (snd r)) = 0%nat /\ destroys (did (snd r)) = []) /\
  (fst r = Returned \/ (exists e, fst r = Failed e) ->
   releases (did (snd r)) = 1%nat /\
   last (did (snd r)) Connect = DestroyBluetooth /\
   destroys (did (snd r)) = flagged (did (snd r)) /\
   (List.length (destroys (did (snd r))) <= 1)%nat) /\
  (fst r = Returned ->
   exists i w,
     destroys (did (snd r)) = [i] /\
     nth_error (sessions (snd r)) i = Some w /\
     timeoutHandle w = None /\
     (stopOk (link w) = true -> eventChar w = false)) /\
  (adapterOk = false ->
   r = (Failed "defaultAdapter rejected",
        {| sessions := []; destroyScaleSession := None;
           did := [Info; DestroyBluetooth] |})).
Proof.
  cbv zeta.
  pose proof (runMessageLoop_exit adapterOk opts script) as X.
  cbv zeta in X.
  split; [|split; [|split]].
  - unfold runMessageLoop.
    destruct adapterOk; [|intros [N|(e & N)]; discriminate].
    destruct (runOnce opts) eqn:Ho.
    + destruct (while_once opts script
                  {| sessions := []; destroyScaleSession := None;
                     did := [] |} Ho) as (x & D & Ds & Rl & _).
      destruct (while opts script _) as [status s]. cbn [fst snd] in *.
      destruct status; cbn [fst snd];
        intros [N|(e' & N)]; try discriminate;
        rewrite D; cbn; auto.
    + destruct (while_forever opts script
                  {| sessions := []; destroyScaleSession := None;
                     did := [] |} Ho) as (x & St & D & Ds & Rl & _).
      destruct (while opts script _) as [status s]. cbn [fst snd] in *.
      intros _. destruct St as [->|(e & ->)]; cbn [fst snd];
        rewrite D; cbn; auto.
  - intros N. destruct (X N) as (Rl & Eq & Le & _).
    split; [exact Rl|]. split; [|split; assumption].
    unfold runMessageLoop in N |- *.
    destruct (if adapterOk then _ else _) as [status s].
    destruct status; cbn [fst snd] in N |- *;
      try (destruct N as [N|(e' & N)]; discriminate);
      destruct (did_finally s) as (x & -> & _);
      rewrite app_comm_cons, app_assoc; apply last_last.
  - intros Rt.
    destruct (X (or_introl Rt)) as (_ & _ & _ & H).
    destruct (H Rt) as (-> & Ho & i & Di & _).
    exists i.
    unfold runMessageLoop in Rt, Di |- *.
    pose proof (while_stored opts script
                  {| sessions := []; destroyScaleSession := None;
                     did := [] |}) as St.
    destruct (while_once opts script
                {| sessions := []; destroyScaleSession := None;
                   did := [] |} Ho) as (x & D & Ds & _ & M).
    destruct (while opts script _) as [status s]. cbn [fst snd] in *.
    destruct status; cbn [fst snd] in Rt, Di |- *; try discriminate.
    destruct M as (j & _ & Dj & _).
    assert (Stored s) as Ss by (apply St; intros k Hk; discriminate).
    destruct (finally_destroys s j Dj (Ss j Dj)) as (w & _ & Nw).
    assert (i = j).
    { unfold finally in Di. cbn [note destroyScaleSession did] in Di.
      rewrite Dj in Di. cbn [note did] in Di.
      rewrite did_updateSession in Di. cbn [note did] in Di.
      cbn in D. rewrite !destroys_app, D, Ds in Di. cbn in Di.
      congruence. }
    subst j. exists (exec destroy w).
    split; [exact Di|]. split; [exact Nw|].
    unfold exec.
    destruct (destroy_spec w)
      as (w' & -> & _ & _ & _ & _ & Dl & _ & Dh & _ & De & _).
    cbn [snd]. split; [exact Dh|].
    intros So. rewrite Dl in So. rewrite De, So. apply andb_false_r.
  - intros ->. reflexivity.
Qed.

Lemma loop_exit_releases_once_witness :
  let a := {| connectOk := true; gatt := goodLink;
              events := [Notify [x10; x07; x15; x04; x4c; x01; x7e]] |} in
  let r := runMessageLoop true {| onConnect := None; runOnce := true |} [a] in
  exists i w,
    destroys (did (snd r)) = [i] /\
    nth_error (sessions (snd r)) i = Some w /\
    timeoutHandle w = None /\
    (stopOk (link w) = true -> eventChar w = false).
Proof.
  apply (proj1 (proj2 (proj2
           (loop_exit_releases_once true
              {| onConnect := None; runOnce := true |}
              [ {| connectOk := true; gatt := goodLink;
                   events := [Notify [x10; x07; x15; x04; x4c; x01; x7e]]
                |} ])))).
  reflexivity.
Defined.


Lemma exec_bind_ok {A B} (m : M A) (k : A -> M B) (w w1 : World) (a : A) :
  m w = (Ok a, w1) -> exec (bind m k) w = exec (k a) w1.
Proof. intros H. unfold exec, bind. now rewrite H. Qed.

Lemma exec_log {B} (level msg : string) (k : unit -> M B) (w : World) :
  exec (bind (log level msg) k) w
  = exec (k tt) (set_trace (trace w ++ [Log level msg]) w).
Proof. reflexivity. Qed.

Lemma exec_modify {B} (f : World -> World) (k : unit -> M B) (w : World) :
  exec (bind (modify f) k) w = exec (k tt) (f w).
Proof. reflexivity. Qed.

Lemma FlagKept_refl (w : World) : FlagKept w w.
Proof. now constructor. Qed.

Lemma FlagKept_trans (a b c : World) :
  FlagKept a b -> FlagKept b c -> FlagKept a c.
Proof. intros [] []. constructor; auto. Qed.

Lemma FlagKept_same (w w' : World) :
  raiseFlag w' = raiseFlag w -> FlagKept w w'.
Proof. intros E. constructor; now rewrite E. Qed.

Lemma FlagKept_off (e : EventName) (h : option Handler) (w : World) :
  FlagKept w (exec (off e h) w).
Proof.
  apply FlagKept_same.
  unfold exec, off, bind, getListeners, gets, setListeners, modify, ret.
  destruct h; [destruct (findIndex _ _)|]; reflexivity.
Qed.

Lemma FlagKept_resetTimer (secs : N) (w : World) :
  FlagKept w (exec (resetTimer secs) w).
Proof.
  apply FlagKept_same.
  unfold exec, resetTimer, bind, gets, modify, ret, setTimeout,
    clearTimeout.
  destruct (timeoutHandle w); reflexivity.
Qed.

Lemma FlagKept_raise (w : World) : FlagKept w (set_raiseFlag Resolved w).
Proof. constructor; cbn; [discriminate | reflexivity]. Qed.

Lemma FlagKept_destroy (w : World) : FlagKept w (exec destroy w).
Proof.
  apply FlagKept_same. unfold exec.
  now destruct (destroy_spec w) as (w' & -> & _ & _ & _ & _ & _ & Rf & _).
Qed.

Lemma FlagKept_forEach (e : EventName) (args : list value) (n k : nat)
    (w : World) :
  FlagKept w (exec (forEach e (fun fn => callHandler fn args) k n) w).
Proof.
  apply (forEach_keeps FlagKept).
  - apply FlagKept_refl.
  - apply FlagKept_trans.
  - intros o x. now apply FlagKept_same.
  - intros s e' h x. apply FlagKept_off.
  - apply FlagKept_resetTimer.
  - apply FlagKept_raise.
Qed.

Lemma FlagKept_emit (e : EventName) (args : list value) (w : World) :
  FlagKept w (exec (emit e args) w).
Proof.
  apply (emit_keeps FlagKept).
  - apply FlagKept_refl.
  - apply FlagKept_trans.
  - intros o x. now apply FlagKept_same.
  - intros s e' h x. apply FlagKept_off.
  - apply FlagKept_resetTimer.
  - apply FlagKept_raise.
Qed.

(** An emission whose first listener raises the flag resolves the
    promise, whatever the listeners after it do. *)
Lemma emit_raises (e : EventName) (args : list value) (w : World) :
  Headed e w -> raiseFlag w <> Unassigned ->
  raiseFlag (exec (emit e args) w) = Resolved.
Proof.
  intros (tl & L) Hf.
  unfold exec, emit, bind at 1, observe, modify. unfold bind at 1.
  unfold getListeners at 1, gets. cbn [listeners set_trace]. rewrite L.
  cbn [List.length forEach]. unfold bind at 1. unfold getListeners at 1, gets.
  unfold bind at 1. cbn [listeners set_trace]. rewrite L.
  cbn [nth_error callHandler]. unfold bind at 1, gets.
  cbn [raiseFlag set_trace].
  assert (K : forall x, raiseFlag x = Resolved ->
                raiseFlag (snd (forEach e (fun fn => callHandler fn args) 1
                                        (List.length tl) x)) = Resolved).
  { intros x Hx. now apply (FlagKept_forEach e args (List.length tl) 1 x). }
  destruct (raiseFlag w); [contradiction| |];
    unfold modify; apply K; reflexivity.
Qed.

Lemma Headed_same (e : EventName) (w w' : World) :
  listeners w' = listeners w -> Headed e w -> Headed e w'.
Proof. unfold Headed. now intros ->. Qed.

Lemma HeadKept_same (w w' : World) :
  listeners w' = listeners w -> HeadKept w w'.
Proof. intros E e. now apply Headed_same. Qed.

Lemma HeadKept_refl (w : World) : HeadKept w w.
Proof. intros e H. exact H. Qed.

Lemma HeadKept_trans (a b c : World) :
  HeadKept a b -> HeadKept b c -> HeadKept a c.
Proof. intros H1 H2 e H. apply H2, H1, H. Qed.

(** A once-wrapper that takes itself off leaves the first listener where
    it is, when that listener is one that raises the flag. *)
Lemma HeadKept_off (s : nat) (e : EventName) (h : Handler) (w : World) :
  HeadKept w (exec (off e (Some (wrappedHandler s e h))) w).
Proof.
  intros e' (tl & L).
  unfold exec, off, bind, getListeners, gets, setListeners, modify, ret.
  destruct (findIndex _ _) as [i|] eqn:F; cbn [snd]; [|now exists tl].
  unfold Headed. cbn [listeners set_listeners]. rewrite listenersOf_with.
  destruct (EventName_eqb e e') eqn:E; [|now exists tl].
  apply EventName_eqb_eq in E. subst e'. rewrite L in F |- *.
  cbn in F. destruct (findIndex _ tl) as [j|]; [|discriminate].
  injection F as <-. exists (splice j 1 tl). reflexivity.
Qed.

Lemma HeadKept_emit (e : EventName) (args : list value) (w : World) :
  HeadKept w (exec (emit e args) w).
Proof.
  apply (emit_keeps HeadKept).
  - apply HeadKept_refl.
  - apply HeadKept_trans.
  - intros o x. now apply HeadKept_same.
  - apply HeadKept_off.
  - intros secs x. unfold exec.
    destruct (resetTimer_spec secs x) as (w' & -> & _ & L).
    now apply HeadKept_same.
  - intros x. now apply HeadKept_same.
Qed.

Lemma FlagKept_run (events : list Event) (w : World) :
  FlagKept w (exec (run events) w).
Proof.
  apply (run_keeps FlagKept).
  - apply FlagKept_refl.
  - apply FlagKept_trans.
  - intros o x. now apply FlagKept_same.
  - intros s e' h x. apply FlagKept_off.
  - apply FlagKept_resetTimer.
  - apply FlagKept_raise.
  - intros x. now apply FlagKept_same.
  - intros x. now apply FlagKept_same.
  - apply FlagKept_destroy.
  - intros id due x _. now apply FlagKept_same.
  - intros t x. now apply FlagKept_same.
Qed.

Lemma raised_after {A B} (m : M A) (k : A -> M B) (w : World) :
  raiseFlag (exec m w) = Resolved ->
  (forall a x, FlagKept x (exec (k a) x)) ->
  raiseFlag (exec (bind m k) w) = Resolved.
Proof.
  unfold exec, bind. intros H K.
  destruct (m w) as [[a|err] w1]; cbn [snd] in *; [|exact H].
  now apply (K a w1).
Qed.

(** [handleTimeout] resolves the promise when the first [timeout]
    listener is the one that raises the flag. *)
Lemma handleTimeout_raises (w : World) :
  Headed timeout w -> raiseFlag w <> Unassigned ->
  raiseFlag (exec handleTimeout w) = Resolved.
Proof.
  intros H Hf. unfold handleTimeout.
  rewrite exec_log, exec_modify.
  apply raised_after.
  - apply emit_raises; [exact H | exact Hf].
  - intros _ x.
    apply (keeps_bind FlagKept FlagKept_trans);
      [intros y; now apply FlagKept_same|].
    intros _.
    apply (keeps_bind FlagKept FlagKept_trans);
      [intros y; now apply FlagKept_same|].
    intros _. apply FlagKept_destroy.
Qed.

(** The timer of a session whose first [timeout] listener raises the
    flag resolves the promise when it comes due. *)
Lemma elapse_raises (w : World) (id : nat) (due ms : N) :
  pending w = [(id, due)] -> (due <= clock w + ms)%N ->
  Headed timeout w -> raiseFlag w <> Unassigned ->
  raiseFlag (exec (elapse ms) w) = Resolved.
Proof.
  intros Hp Due H Hf.
  unfold exec, elapse, bind at 1 2 3, gets.
  rewrite Hp. cbn [List.length runTimers]. unfold bind at 1, gets.
  rewrite Hp. cbn [nextDue].
  destruct (N.leb_spec due (clock w + ms)); [|lia].
  unfold bind at 1 2 3, clearTimeout, modify. rewrite Hp.
  cbn [filter fst]. rewrite Nat.eqb_refl. cbn [negb].
  unfold tryCatch.
  pose proof (handleTimeout_raises (set_clock due (set_pending [] w)) H Hf)
    as R.
  unfold exec in R.
  destruct (handleTimeout _) as [[[]|err] w1]; cbn [snd] in R |- *;
    exact R.
Qed.

(** A completed measurement resolves the promise of a session whose
    first [measurement] listener raises the flag, when the [data]
    listeners return normally and the stop packet is taken. *)
Lemma settled_frame_raises (buf : Buffer) (w : World) :
  didTimeout w = false ->
  Forall peaceful (l_data (listeners w)) ->
  writeOk (link w) = true ->
  nth_error buf 0 = Some x10 ->
  nth_error buf 5 = Some x01 ->
  Headed measurement w -> raiseFlag w <> Unassigned ->
  raiseFlag (exec (handleValueChange buf) w) = Resolved.
Proof.
  intros Hd Pd Hw H0 H5 H Hf.
  pose proof (kind_of_head buf x10 H0) as K.
  change (switchPacketId (parseIncomingPacket buf) = WeightDataPacket) in K.
  unfold exec, handleValueChange, bind at 1, gets. rewrite Hd.
  unfold tryCatch. rewrite handlePacket_dispatch.
  unfold bind at 1, log, observe, modify. unfold bind at 1.
  pose proof (HeadKept_emit data [VObject (parseIncomingPacket buf)]
                (set_trace (trace w ++ [Log "silly" "RECV"]) w)
                measurement H) as H2.
  pose proof (f_assigned _ _
                (FlagKept_emit data [VObject (parseIncomingPacket buf)]
                   (set_trace (trace w ++ [Log "silly" "RECV"]) w)) Hf)
    as Hf2.
  destruct (emit_ok data [VObject (parseIncomingPacket buf)]
              (set_trace (trace w ++ [Log "silly" "RECV"]) w) Pd)
    as (w2 & d1 & E & _ & _ & Q & _).
  unfold exec in H2, Hf2. rewrite E in H2, Hf2 |- *. cbn [snd] in H2, Hf2.
  assert (L : link w2 = link w) by (rewrite (q_link _ _ Q); reflexivity).
  assert (D : raiseFlag (exec (dispatch (parseIncomingPacket buf)) w2)
              = Resolved).
  { unfold dispatch. rewrite K.
    rewrite (exec_bind_ok _ _ w2 w2 (index buf 5))
      by apply dataIndex_parse.
    pose proof (index_nth buf 5 x01 H5) as E5.
    change (Z.of_nat 5) with 5 in E5. rewrite E5.
    change (strictEq (VNumber (Int (octet x01))) 0) with false.
    change (strictEq (VNumber (Int (octet x01))) 1) with true. cbv iota.
    rewrite exec_log.
    erewrite exec_bind_ok
      by (rewrite sendCommand_spec; cbn [link set_trace];
          rewrite L, Hw; reflexivity).
    apply emit_raises; [|exact Hf2].
    revert H2. now apply Headed_same. }
  unfold exec in D.
  destruct (dispatch _ w2) as [[[]|err] w3]; cbn [snd] in D |- *; exact D.
Qed.


Lemma Appends_refl (w : World) : Appends w w.
Proof. intros e. exists []. now rewrite app_nil_r. Qed.

Lemma Appends_trans (a b c : World) :
  Appends a b -> Appends b c -> Appends a c.
Proof.
  intros H1 H2 e. destruct (H1 e) as (x & E1). destruct (H2 e) as (y & E2).
  exists (x ++ y). now rewrite E2, E1, app_assoc.
Qed.

Lemma Appends_same (w w' : World) :
  listeners w' = listeners w -> Appends w w'.
Proof. intros E e. exists []. now rewrite E, app_nil_r. Qed.

Lemma Appends_on (e : EventName) (h : option Handler) (w : World) :
  Appends w (exec (on e h) w).
Proof.
  destruct h as [h|]; [|apply Appends_refl].
  intros e'. unfold exec. rewrite on_spec.
  cbn [snd listeners set_listeners]. rewrite listenersOf_with.
  destruct (EventName_eqb e e') eqn:E.
  - apply EventName_eqb_eq in E. subst e'. now exists [h].
  - exists []. now rewrite app_nil_r.
Qed.

Lemma SetUpKeeps_trans (a b c : World) :
  SetUpKeeps a b -> SetUpKeeps b c -> SetUpKeeps a c.
Proof.
  intros [L1 A1] [L2 A2]. split; [congruence|].
  exact (Appends_trans _ _ _ A1 A2).
Qed.

Lemma SetUpKeeps_same (w w' : World) :
  link w' = link w -> listeners w' = listeners w -> SetUpKeeps w w'.
Proof. intros L E. split; [exact L | now apply Appends_same]. Qed.

Lemma SetUpKeeps_on (e : EventName) (h : option Handler) (w : World) :
  SetUpKeeps w (exec (on e h) w).
Proof.
  split; [now destruct h | apply Appends_on].
Qed.

Lemma SetUpKeeps_register (r : Registration) (w : World) :
  SetUpKeeps w (exec (register r) w).
Proof.
  destruct r as [e id t|e id t]; cbn [register]; [apply SetUpKeeps_on|].
  unfold once.
  apply (keeps_bind SetUpKeeps SetUpKeeps_trans);
    [intros x; now apply SetUpKeeps_same|]. intros serial.
  apply (keeps_bind SetUpKeeps SetUpKeeps_trans);
    [intros x; now apply SetUpKeeps_same|]. intros _.
  apply SetUpKeeps_on.
Qed.

Lemma SetUpKeeps_registerAll (rs : list Registration) (w : World) :
  SetUpKeeps w (exec (registerAll rs) w).
Proof.
  revert w. induction rs as [|r rs IH]; intros w;
    [now apply SetUpKeeps_same|].
  cbn [registerAll].
  apply (keeps_bind SetUpKeeps SetUpKeeps_trans);
    [apply SetUpKeeps_register | intros _; exact IH].
Qed.

Lemma SetUpKeeps_rest (opts : Opts) (w : World) :
  SetUpKeeps w
    (exec (callOnConnect opts ;; startListening 10 ;;
           modify (set_raiseFlag Waiting))%js w).
Proof.
  assert (Same : forall A (m : M A),
             (forall x, link (exec m x) = link x /\
                        listeners (exec m x) = listeners x) ->
             forall x, SetUpKeeps x (exec m x)).
  { intros A m H x. destruct (H x). now apply SetUpKeeps_same. }
  revert w.
  apply (keeps_bind SetUpKeeps SetUpKeeps_trans).
  { unfold callOnConnect. destruct (onConnect opts) as [f|];
      [|now apply Same].
    apply (keeps_bind SetUpKeeps SetUpKeeps_trans);
      [apply SetUpKeeps_registerAll|].
    intros _. destruct (throws f); now apply Same. }
  intros _.
  apply (keeps_bind SetUpKeeps SetUpKeeps_trans); [|intros _; now apply Same].
  unfold startListening.
  apply (keeps_bind SetUpKeeps SetUpKeeps_trans); [now apply Same|].
  intros ec. destruct ec; [now apply Same|].
  apply (keeps_bind SetUpKeeps SetUpKeeps_trans); [now apply Same|].
  intros _.
  apply (keeps_bind SetUpKeeps SetUpKeeps_trans); [now apply Same|].
  intros ok.
  apply (keeps_bind SetUpKeeps SetUpKeeps_trans);
    [destruct ok; now apply Same|]. intros _.
  apply (keeps_bind SetUpKeeps SetUpKeeps_trans); [now apply Same|].
  intros _.
  apply (keeps_bind SetUpKeeps SetUpKeeps_trans); [now apply Same|].
  intros _.
  apply (keeps_bind SetUpKeeps SetUpKeeps_trans); [now apply Same|].
  intros ok'.
  apply (keeps_bind SetUpKeeps SetUpKeeps_trans);
    [destruct ok'; now apply Same|]. intros _.
  apply (keeps_bind SetUpKeeps SetUpKeeps_trans); [now apply Same|].
  intros _.
  apply (keeps_bind SetUpKeeps SetUpKeeps_trans).
  - intros x. unfold exec.
    destruct (resetTimer_spec 10 x) as (x' & -> & Q & L).
    apply SetUpKeeps_same; [apply (q_link _ _ Q) | exact L].
  - intros _. apply SetUpKeeps_on.
Qed.

(** In a session as [connectAndHandle] sets it up, the link is the one
    of the device and the first listeners of [timeout] and of
    [measurement] are those that raise the flag, whatever the on-connect
    callback registered. *)
Lemma setUp_heads (opts : Opts) (l : Link) :
  let w := exec (setUp opts) (newScale l) in
  link w = l /\ Headed timeout w /\ Headed measurement w.
Proof.
  cbv zeta.
  set (w0 := exec (on timeout (Some (raiseFlagListener timeout)) ;;
                   on measurement (Some (raiseFlagListener measurement)))%js
                  (newScale l)).
  assert (E0 : exec (setUp opts) (newScale l)
               = exec (callOnConnect opts ;; startListening 10 ;;
                       modify (set_raiseFlag Waiting))%js w0)
    by reflexivity.
  rewrite E0. destruct (SetUpKeeps_rest opts w0) as [L A].
  split; [exact L|]. unfold Headed. split.
  - destruct (A timeout) as (x & E). exists x. now rewrite E.
  - destruct (A measurement) as (x & E). exists x. now rewrite E.
Qed.

Lemma setUp_ok (opts : Opts) (l : Link) :
  outcome (setUp opts) (newScale l) = Ok tt ->
  let w := exec (setUp opts) (newScale l) in
  didTimeout w = false /\ valuechanged w = true /\ notifying w = true /\
  raiseFlag w = Waiting /\
  (calmOpts opts -> allPeaceful w) /\
  exists id, pending w = [(id, 10000%N)] /\ clock w = 0%N.
Proof.
  intros O. cbv zeta. unfold outcome, exec in *.
  destruct (setUp_spec opts l) as (r & w & E & H).
  rewrite E in O |- *. cbn [fst snd] in O |- *. subst r.
  destruct (_ || _ || _)%bool; [destruct H as (e & H); discriminate|].
  destruct H as (_ & _ & Hd & Hv & Hn & _ & C & P & Rf & Pf).
  do 5 (split; [assumption|]).
  destruct (pending w) as [|[id due] [|t rest]]; try discriminate.
  cbn in P. injection P as ->. now exists id.
Qed.

(** X26.  The end of a session is always signalled.  In a session as
    [connectAndHandle] sets it up the promise is pending; it is resolved
    when the ten seconds pass without a frame, whatever listeners the
    on-connect callback registered (once-wrappers included, and listeners
    that throw: the promise is resolved before they are called), and it is
    resolved by a completed measurement when the [data] listeners return
    normally and the stop packet is taken; once resolved it stays
    resolved. *)
Theorem session_end_raises_flag (opts : Opts) (l : Link) :
  outcome (setUp opts) (newScale l) = Ok tt ->
  let w := exec (setUp opts) (newScale l) in
  raiseFlag w = Waiting /\
  (forall ms,
      (10000 <= ms)%N -> raiseFlag (exec (step (Elapse ms)) w) = Resolved) /\
  (forall buf,
      Forall peaceful (l_data (listeners w)) ->
      writeOk l = true ->
      nth_error buf 0 = Some x10 ->
      nth_error buf 5 = Some x01 ->
      raiseFlag (exec (step (Notify buf)) w) = Resolved) /\
  (forall w' events,
      raiseFlag w' = Resolved ->
      raiseFlag (exec (run events) w') = Resolved).
Proof.
  intros O. cbv zeta.
  destruct (setUp_ok opts l O) as (Hd & Hv & Hn & Rf & _ & id & Hp & Hc).
  destruct (setUp_heads opts l) as (L & Ht & Hm).
  assert (Hf : raiseFlag (exec (setUp opts) (newScale l)) <> Unassigned)
    by (rewrite Rf; discriminate).
  split; [exact Rf|]. split; [|split].
  - intros ms Hms. cbn [step].
    apply (elapse_raises _ id 10000 ms Hp); auto. rewrite Hc. lia.
  - intros buf Pd Hw H0 H5.
    unfold exec at 1. rewrite (step_Notify buf _ Hv Hn).
    apply settled_frame_raises; auto. now rewrite L.
  - intros w' events R. now apply (f_resolved _ _ (FlagKept_run events w')).
Qed.

(** A callback that subscribes a throwing listener and a once-listener to
    [timeout]. *)
Lemma session_end_raises_flag_witness :
  let opts := {| onConnect :=
                   Some {| registrations := [RegisterOn timeout 1 true;
                                             RegisterOnce timeout 2 false];
                           throws := false |};
                 runOnce := false |} in
  let w := exec (setUp opts) (newScale goodLink) in
  raiseFlag w = Waiting /\
  (forall ms,
      (10000 <= ms)%N -> raiseFlag (exec (step (Elapse ms)) w) = Resolved) /\
  (forall buf,
      Forall peaceful (l_data (listeners w)) ->
      writeOk goodLink = true ->
      nth_error buf 0 = Some x10 ->
      nth_error buf 5 = Some x01 ->
      raiseFlag (exec (step (Notify buf)) w) = Resolved) /\
  (forall w' events,
      raiseFlag w' = Resolved ->
      raiseFlag (exec (run events) w') = Resolved).
Proof.
  apply (session_end_raises_flag
           {| onConnect :=
                Some {| registrations := [RegisterOn timeout 1 true;
                                          RegisterOnce timeout 2 false];
                        throws := false |};
              runOnce := false |} goodLink).
  reflexivity.
Defined.

(* ================================================================== *)
(** * Sessions whose listeners return normally *)
(* ================================================================== *)

Lemma handleValueChange_returns (buf : Buffer) (w : World) :
  outcome (handleValueChange buf) w = Ok tt.
Proof.
  unfold outcome, handleValueChange, bind, gets, tryCatch.
  destruct (didTimeout w); [reflexivity|].
  now destruct (handlePacket _ w) as [[[]|err] w'].
Qed.

Lemma Shrinks_handleTimeout (w : World) : Shrinks w (exec handleTimeout w).
Proof.
  apply (handleTimeout_keeps Shrinks); clear;
    first [ exact Shrinks_refl
          | exact Shrinks_trans
          | intros s e h w; unfold exec;
            now destruct (off_spec e (Some (wrappedHandler s e h)) w)
              as (w' & -> & _ & S & _)
          | intros secs w; unfold exec;
            destruct (resetTimer_spec secs w) as (w' & -> & _ & L);
            now apply Shrinks_same
          | intros w; unfold exec;
            destruct (destroy_spec w) as (w' & -> & L & _);
            now apply Shrinks_same
          | intros; now apply Shrinks_same ].
Qed.

Lemma Shrinks_step (e : Event) (w : World) : Shrinks w (exec (step e) w).
Proof.
  pose proof (Shrinks_run [e] w) as H. unfold exec in *.
  cbn [run] in H. unfold bind, ret in H.
  now destruct (step e w) as [[[]|err] w'].
Qed.

(** No timer callback throws when the [timeout] listeners return
    normally. *)
Lemma runTimers_calm (fuel : nat) (t : N) (w : World) :
  Forall peaceful (l_timeout (listeners w)) ->
  outcome (runTimers fuel t) w = Ok tt.
Proof.
  revert w. induction fuel as [|fuel IH]; intros w P; [reflexivity|].
  cbn [runTimers]. unfold outcome, bind at 1, gets.
  destruct (nextDue t (pending w)) as [[id due]|]; [|reflexivity].
  unfold bind at 1 2, clearTimeout, modify. unfold bind at 1, tryCatch.
  match goal with
  | |- context [handleTimeout ?x] =>
      pose proof (Shrinks_handleTimeout x timeout peaceful P) as P1;
      destruct (handleTimeout_spec x P) as (w1 & d & E & _)
  end.
  unfold exec in P1. rewrite E in P1 |- *. cbn [snd] in P1.
  exact (IH w1 P1).
Qed.

Lemma step_calm (e : Event) (w : World) :
  Forall peaceful (l_timeout (listeners w)) ->
  outcome (step e) w = Ok tt.
Proof.
  intros P. destruct e as [buf|ms]; cbn [step].
  - unfold outcome, bind, gets, when.
    destruct (valuechanged w && notifying w)%bool; [|reflexivity].
    apply handleValueChange_returns.
  - pose proof (runTimers_calm (List.length (pending w)) (clock w + ms)%N
                  w P) as H.
    unfold outcome, elapse, bind, gets in *.
    now destruct (runTimers _ _ w) as [[[]|err] w1].
Qed.

Lemma awaitFlag_calm (events : list Event) (w : World) :
  Forall peaceful (l_timeout (listeners w)) ->
  outcome (awaitFlag events) w = Ok tt.
Proof.
  revert w. induction events as [|e rest IH]; intros w P; [reflexivity|].
  cbn [awaitFlag]. unfold outcome, bind at 1, gets.
  pose proof (step_calm e w P) as S.
  pose proof (Shrinks_step e w timeout peaceful P) as P1.
  unfold outcome, exec in S, P1.
  destruct (raiseFlag w); try reflexivity;
    unfold bind; destruct (step e w) as [[[]|err] w1];
    cbn [fst snd] in S, P1; try discriminate; exact (IH w1 P1).
Qed.

Lemma awaitFlag_resolved (events : list Event) (w : World) :
  raiseFlag w = Resolved -> awaitFlag events w = (Ok tt, w).
Proof.
  intros R. destruct events; cbn [awaitFlag]; [reflexivity|].
  unfold bind, gets. now rewrite R.
Qed.

(** With listeners that return normally no pass ends the process. *)
Lemma connectAndHandle_calm (opts : Opts) (a : Attempt) (s : Loop) :
  calmOpts opts ->
  forall e, fst (connectAndHandle opts a s) <> Exits e.
Proof.
  intros Ca e. unfold connectAndHandle.
  destruct (connectOk a); cbn [negb]; [|discriminate].
  destruct (setUp_spec opts (gatt a)) as (r & w & -> & F).
  destruct (_ || _ || _)%bool; [destruct F as (err & ->); discriminate|].
  destruct F as (-> & _ & _ & _ & _ & _ & _ & _ & _ & A).
  pose proof (awaitFlag_calm (events a) w (A Ca timeout)) as O.
  unfold outcome in O.
  destruct (awaitFlag (events a) w) as [[[]|err] w']; [|discriminate].
  destruct (raiseFlag w'); discriminate.
Qed.

Lemma while_calm (opts : Opts) (script : list Attempt) (s : Loop) :
  calmOpts opts ->
  forall e, fst (while opts script s) <> Exited e.
Proof.
  intros Ca e. revert s.
  induction script as [|a rest IH]; intros s; [discriminate|].
  cbn [while]. pose proof (connectAndHandle_calm opts a s Ca) as N.
  destruct (connectAndHandle opts a s) as [[i|err| |err] s'].
  - destruct (runOnce opts); [discriminate | apply IH].
  - apply IH.
  - discriminate.
  - now contradiction (N err).
Qed.

Lemma runMessageLoop_calm (adapterOk : bool) (opts : Opts)
    (script : list Attempt) :
  calmOpts opts ->
  forall e, fst (runMessageLoop adapterOk opts script) <> Exited e.
Proof.
  intros Ca e. unfold runMessageLoop.
  destruct adapterOk; [|discriminate].
  pose proof (while_calm opts script
                {| sessions := []; destroyScaleSession := None; did := [] |}
                Ca) as N.
  destruct (while opts script _) as [[|err| |err] s]; cbn [fst] in *;
    try discriminate.
  now contradiction (N err).
Qed.

(** X27.  With run-once set, [runMessageLoop] returns when its first session
    ends, the listeners registered by the on-connect callback returning
    normally: the session is set up and then gets no frame for ten seconds,
    or (the stop packet taken) a completed measurement.  One connection has
    been made; the session is destroyed and the Bluetooth connection
    released in the [finally] block, and the attempts that would have
    followed are not made. *)
Theorem run_once_returns_when_session_ends (opts : Opts) (a : Attempt)
    (rest : list Attempt) (e : Event) (more : list Event) :
  runOnce opts = true ->
  connectOk a = true ->
  outcome (setUp opts) (newScale (gatt a)) = Ok tt ->
  calmOpts opts ->
  events a = e :: more ->
  match e with
  | Elapse ms => (10000 <= ms)%N
  | Notify buf =>
      writeOk (gatt a) = true /\
      nth_error buf 0 = Some x10 /\ nth_error buf 5 = Some x01
  end ->
  let r := runMessageLoop true opts (a :: rest) in
  fst r = Returned /\
  did (snd r)
  = [Connect; Created 0; Flagged 0; Info; Destroy 0; DestroyBluetooth].
Proof.
  intros Ho Co O Ca Ev He. cbv zeta.
  destruct (setUp_ok opts (gatt a) O)
    as (Hd & Hv & Hn & Rf & Pf & id & Hp & Hc).
  destruct (setUp_heads opts (gatt a)) as (L & Ht & Hm).
  assert (Hf : raiseFlag (exec (setUp opts) (newScale (gatt a)))
               <> Unassigned) by (rewrite Rf; discriminate).
  assert (R : raiseFlag (exec (step e)
                           (exec (setUp opts) (newScale (gatt a))))
              = Resolved).
  { destruct e as [buf|ms].
    - destruct He as (Hw & H0 & H5).
      unfold exec at 1. rewrite (step_Notify buf _ Hv Hn).
      apply settled_frame_raises; auto.
      + exact (Pf Ca data).
      + now rewrite L.
    - cbn [step]. apply (elapse_raises _ id 10000 ms Hp); auto.
      rewrite Hc. lia. }
  pose proof (step_calm e _ (Pf Ca timeout)) as S.
  unfold outcome in O, S. unfold exec at 1 in R.
  change (exec (setUp opts) (newScale (gatt a)))
    with (snd (setUp opts (newScale (gatt a)))) in Rf, R, S.
  unfold runMessageLoop. cbn [while]. unfold connectAndHandle.
  rewrite Co. cbn [negb].
  destruct (setUp opts (newScale (gatt a))) as [[[]|err] w];
    cbn [fst snd] in O, Rf, R, S |- *; [|discriminate].
  rewrite Ev. cbn [awaitFlag]. unfold bind, gets. rewrite Rf.
  destruct (step e w) as [[[]|err] w1]; cbn [fst snd] in R, S;
    [|discriminate].
  rewrite (awaitFlag_resolved more _ R), R, Ho.
  cbn [fst snd]. split; [reflexivity|].
  unfold finally. cbn [note setDestructor addSession destroyScaleSession
                       did sessions].
  rewrite did_updateSession. reflexivity.
Qed.

(** An idle scale, and run-once. *)
Lemma run_once_returns_when_session_ends_witness :
  let opts := {| onConnect := None; runOnce := true |} in
  let a := {| connectOk := true; gatt := goodLink;
              events := [Elapse 10000] |} in
  let r := runMessageLoop true opts [a; a] in
  fst r = Returned /\
  did (snd r)
  = [Connect; Created 0; Flagged 0; Info; Destroy 0; DestroyBluetooth].
Proof.
  apply (run_once_returns_when_session_ends
           {| onConnect := None; runOnce := true |}
           {| connectOk := true; gatt := goodLink;
              events := [Elapse 10000] |}
           [ {| connectOk := true; gatt := goodLink;
                events := [Elapse 10000] |} ]
           (Elapse 10000) []); reflexivity.
Defined.

(* ================================================================== *)
(** * The loop and the sessions it leaves behind *)
(* ================================================================== *)

(** C2 on the code.  With run-once unset, whatever the attempts bring,
    [runMessageLoop] never returns (it stays in its loop, unless a
    listener that throws ends the process) and never calls the destructor
    of any session: after a session has raised its flag the loop goes on
    to the delay and the next connection with that session left as it
    is. *)
Theorem loop_never_destroys_ended_session (opts : Opts)
    (script : list Attempt) :
  runOnce opts = false ->
  let r := runMessageLoop true opts script in
  (fst r = Looping \/ exists e, fst r = Exited e) /\
  (calmOpts opts -> fst r = Looping) /\
  destroys (did (snd r)) = [].
Proof.
  intros Ho. cbv zeta.
  destruct (runMessageLoop_forever opts script Ho) as (St & Ds & _).
  split; [exact St|]. split; [|exact Ds].
  intros Ca. destruct St as [St|(e & St)]; [exact St|].
  now contradiction (runMessageLoop_calm true opts script Ca e).
Qed.

(** The failing input of C2: run-once is unset and the first session ends
    with a settled weight.  The loop goes from the raised flag straight to
    "Next iteration!" and the delay; the session it leaves behind still has
    [eventChar] set, its timer pending and the characteristic notifying. *)
Lemma loop_never_destroys_ended_session_witness :
  let opts := {| onConnect := None; runOnce := false |} in
  let first := {| connectOk := true; gatt := goodLink;
                  events := [Notify [x10; x07; x15; x04; x4c; x01; x7e]] |} in
  let second := {| connectOk := true; gatt := goodLink; events := [] |} in
  let r := runMessageLoop true opts [first; second] in
  (fst r = Looping /\ destroys (did (snd r)) = []) /\
  did (snd r)
  = [Connect; Created 0; Flagged 0; NextIteration; Delay;
     Connect; Created 1] /\
  map (fun w => (eventChar w, notifying w, List.length (pending w)))
      (sessions (snd r))
  = [(true, true, 1%nat); (true, true, 1%nat)].
Proof.
  cbv zeta. split; [|split; reflexivity].
  destruct (loop_never_destroys_ended_session
              {| onConnect := None; runOnce := false |}
              [ {| connectOk := true; gatt := goodLink;
                   events := [Notify [x10; x07; x15; x04; x4c; x01; x7e]] |};
                {| connectOk := true; gatt := goodLink; events := [] |} ]
              eq_refl) as (_ & L & D).
  split; [exact (L I) | exact D].
Defined.

(** What the loop has done only grows from pass to pass, and every pass
    begins with a connection attempt. *)
Lemma while_begins (opts : Opts) (a : Attempt) (rest : list Attempt)
    (s : Loop) :
  exists y, did (snd (while opts (a :: rest) s)) = did s ++ Connect :: y.
Proof.
  assert (G : forall script s0,
             exists y, did (snd (while opts script s0)) = did s0 ++ y).
  { intros script s0. destruct (runOnce opts) eqn:Ho.
    - destruct (while_once opts script s0 Ho) as (y & D & _). now exists y.
    - destruct (while_forever opts script s0 Ho) as (y & _ & D & _).
      now exists y. }
  cbn [while].
  destruct (connectAndHandle_spec opts a s)
    as (r & s' & x & E & D & _).
  rewrite E. destruct r as [i|e| |e].
  - destruct (runOnce opts).
    + exists x. exact D.
    + destruct (G rest (note Delay (note NextIteration
                                      (setDestructor i s')))) as (y & ->).
      exists (x ++ retried ++ y). cbn. rewrite D.
      now rewrite <- !app_assoc.
  - destruct (G rest (note Delay (note NextIteration (note (Warn e) s'))))
      as (y & ->).
    exists (x ++ caught e ++ y). cbn. rewrite D. now rewrite <- !app_assoc.
  - exists x. exact D.
  - exists x. exact D.
Qed.

(** C3 on the code.  With run-once set, a pass that rejects (the
    connection, the on-connect callback or [startListening] failed) does
    not end the loop.  After that first iteration the function is still
    in its loop: it has logged the error, and it has gone through
    "Next iteration!" and the delay; when the scale is tried again, the
    next thing it does is to connect once more.  It returns only after a
    later pass has completed, having connected at least twice, once more
    than it has logged an error. *)
Theorem run_once_retries_failed_attempt (opts : Opts) (a : Attempt)
    (rest : list Attempt) :
  runOnce opts = true ->
  connectOk a = false \/
  (exists f, onConnect opts = Some f /\ throws f = true) \/
  lookupOk (gatt a) = false \/ startOk (gatt a) = false ->
  let first := runMessageLoop true opts [a] in
  let r := runMessageLoop true opts (a :: rest) in
  fst first = Looping /\
  (exists e x,
      did (snd first) = Connect :: x ++ [Warn e; NextIteration; Delay] /\
      connects x = 0%nat /\ destroys x = [] /\ releases x = 0%nat) /\
  (exists y,
      did (snd r) = did (snd first) ++ y /\
      (rest <> [] -> exists y', y = Connect :: y')) /\
  (fst r = Returned ->
   (2 <= connects (did (snd r)))%nat /\
   connects (did (snd r)) = S (warnings (did (snd r)))).
Proof.
  intros Ho Bad. cbv zeta.
  set (s0 := {| sessions := []; destroyScaleSession := None; did := [] |}).
  destruct (connectAndHandle_rejects opts a s0 Bad) as (e & Re).
  destruct (connectAndHandle_spec opts a s0)
    as (r & s1 & x & E & D & _ & C & _ & _ & Ds & Rl & _).
  rewrite E in Re. cbn [fst] in Re. subst r.
  set (s2 := note Delay (note NextIteration (note (Warn e) s1))).
  assert (D2 : did s2 = Connect :: x ++ [Warn e; NextIteration; Delay]).
  { unfold s2. cbn [note did]. rewrite D. cbn [did s0 app].
    now rewrite <- !app_assoc. }
  assert (F : runMessageLoop true opts [a] = (Looping, s2)).
  { unfold runMessageLoop. fold s0. now rewrite (while_rejects _ _ _ _ _ _ E). }
  assert (W : while opts (a :: rest) s0 = while opts rest s2)
    by exact (while_rejects _ _ _ _ _ _ E).
  rewrite F. cbn [fst snd].
  split; [reflexivity|].
  split; [exists e, x; repeat split; assumption|].
  assert (P : exists y,
             did (snd (runMessageLoop true opts (a :: rest))) = did s2 ++ y /\
             (rest <> [] -> exists y', y = Connect :: y')).
  { unfold runMessageLoop. fold s0. rewrite W.
    destruct (while_once opts rest s2 Ho) as (y & Dy & _).
    assert (B : rest <> [] ->
                exists y', did (snd (while opts rest s2))
                           = did s2 ++ Connect :: y').
    { destruct rest as [|b more]; [congruence|]. intros _.
      apply while_begins. }
    destruct (while opts rest s2) as [status s3]. cbn [snd] in Dy, B.
    destruct status as [|err| |err]; cbn [snd].
    - destruct (did_finally s3) as (z & -> & _).
      exists (y ++ Info :: z ++ [DestroyBluetooth]).
      split; [rewrite Dy; now rewrite <- app_assoc|].
      intros N. destruct (B N) as (y' & Ey).
      rewrite Dy in Ey. apply app_inv_head in Ey. subst y.
      now eexists.
    - destruct (did_finally s3) as (z & -> & _).
      exists (y ++ Info :: z ++ [DestroyBluetooth]).
      split; [rewrite Dy; now rewrite <- app_assoc|].
      intros N. destruct (B N) as (y' & Ey).
      rewrite Dy in Ey. apply app_inv_head in Ey. subst y.
      now eexists.
    - exists y. split; [exact Dy|].
      intros N. destruct (B N) as (y' & Ey).
      rewrite Dy in Ey. apply app_inv_head in Ey. now exists y'.
    - exists y. split; [exact Dy|].
      intros N. destruct (B N) as (y' & Ey).
      rewrite Dy in Ey. apply app_inv_head in Ey. now exists y'. }
  split; [exact P|].
  intros Rt.
  destruct (returned_after_completed_pass opts (a :: rest) Rt)
    as (_ & _ & Cn).
  split; [|exact Cn].
  destruct P as (y & Dy & _). rewrite Cn, Dy, D2.
  rewrite warnings_app.
  change (Connect :: x ++ [Warn e; NextIteration; Delay])
    with ((Connect :: x) ++ [Warn e; NextIteration; Delay]).
  rewrite warnings_app. cbn. lia.
Qed.

(** The failing input of C3: run-once is set and the scale cannot be
    reached at first.  The first iteration ends in the [catch] block, and
    the function returns after the second attempt, which completes with a
    settled weight. *)
Lemma run_once_retries_failed_attempt_witness :
  let opts := {| onConnect := None; runOnce := true |} in
  let failing := {| connectOk := false; gatt := goodLink; events := [] |} in
  let completing :=
    {| connectOk := true; gatt := goodLink;
       events := [Notify [x10; x07; x15; x04; x4c; x01; x7e]] |} in
  let r := runMessageLoop true opts [failing; completing] in
  fst (runMessageLoop true opts [failing]) = Looping /\
  did (snd (runMessageLoop true opts [failing]))
  = [Connect; Warn "connect rejected"; NextIteration; Delay] /\
  fst r = Returned /\
  connects (did (snd r)) = 2%nat /\
  did (snd r)
  = [Connect; Warn "connect rejected"; NextIteration; Delay;
     Connect; Created 0; Flagged 0; Info; Destroy 0; DestroyBluetooth].
Proof.
  cbv zeta.
  destruct (run_once_retries_failed_attempt
              {| onConnect := None; runOnce := true |}
              {| connectOk := false; gatt := goodLink; events := [] |}
              [ {| connectOk := true; gatt := goodLink;
                   events := [Notify [x10; x07; x15; x04; x4c; x01; x7e]] |} ]
              eq_refl (or_introl eq_refl)) as (L & _).
  split; [exact L|]. repeat split.
Defined.

(* ================================================================== *)
(** * A timeout listener that throws *)
(* ================================================================== *)

(** An emission of [timeout] in a supervised session whose first listener
    after the supervisor's own throws: the promise is resolved, the
    listener is called, and its exception leaves [emit]. *)
Lemma emit_second_throws (id : nat) (tl : list Handler)
    (args : list value) (w : World) :
  l_timeout (listeners w)
  = raiseFlagListener timeout :: External id true :: tl ->
  raiseFlag w = Waiting ->
  emit timeout args w
  = (Threw "listener threw",
     set_trace (trace w ++ [Emit timeout args; Invoke id args])
               (set_raiseFlag Resolved w)).
Proof.
  intros L Rf.
  unfold emit, bind at 1, observe, modify. unfold bind at 1.
  unfold getListeners at 1, gets. cbn [listeners set_trace listenersOf].
  rewrite L. cbn [List.length forEach].
  unfold bind at 1. unfold getListeners at 1, gets.
  unfold bind at 1. cbn [listeners set_trace listenersOf]. rewrite L.
  cbn [nth_error callHandler]. unfold bind at 1, gets.
  cbn [raiseFlag set_trace]. rewrite Rf. unfold modify.
  unfold bind at 1. unfold getListeners at 1, gets.
  unfold bind at 1. cbn [listeners set_trace set_raiseFlag listenersOf].
  rewrite L. cbn [nth_error callHandler].
  unfold bind, observe, modify, throw.
  cbn [trace set_trace set_raiseFlag]. rewrite <- app_assoc.
  reflexivity.
Qed.

Lemma handleTimeout_throws (id : nat) (tl : list Handler) (w : World) :
  l_timeout (listeners w)
  = raiseFlagListener timeout :: External id true :: tl ->
  raiseFlag w = Waiting ->
  handleTimeout w
  = (Threw "listener threw",
     set_trace (trace w ++ [Log "warn" "timeout"; Emit timeout [];
                            Invoke id []])
               (set_raiseFlag Resolved (set_didTimeout true w))).
Proof.
  intros L Rf.
  unfold handleTimeout, bind at 1, log, observe, modify.
  unfold bind at 1, modify. unfold bind at 1.
  rewrite (emit_second_throws id tl) by assumption.
  cbn [trace set_trace set_didTimeout set_raiseFlag].
  rewrite <- app_assoc. reflexivity.
Qed.

(** The timer of such a session comes due: the exception escapes the
    callback of [setTimeout].  The flag is set and the promise resolved,
    and nothing of the teardown has happened: the listener is still on
    the characteristic and [stopNotifications] was not called. *)
Lemma elapse_throws (id tid : nat) (due ms : N) (tl : list Handler)
    (w : World) :
  l_timeout (listeners w)
  = raiseFlagListener timeout :: External id true :: tl ->
  raiseFlag w = Waiting ->
  pending w = [(tid, due)] -> (due <= clock w + ms)%N ->
  elapse ms w
  = (Threw "listener threw",
     set_trace (trace w ++ [Log "warn" "timeout"; Emit timeout [];
                            Invoke id []; Uncaught "listener threw"])
               (set_raiseFlag Resolved
                  (set_didTimeout true
                     (set_clock due (set_pending [] w))))).
Proof.
  intros L Rf Hp Due.
  unfold elapse, bind at 1 2 3, gets.
  rewrite Hp. cbn [List.length runTimers]. unfold bind at 1, gets.
  rewrite Hp. cbn [nextDue].
  destruct (N.leb_spec due (clock w + ms)); [|lia].
  unfold bind at 1 2 3, clearTimeout, modify. rewrite Hp.
  cbn [filter fst]. rewrite Nat.eqb_refl. cbn [negb].
  unfold tryCatch.
  rewrite (handleTimeout_throws id tl) by assumption.
  unfold bind, observe, modify, throw.
  cbn [trace set_trace set_didTimeout set_raiseFlag set_clock set_pending].
  rewrite <- app_assoc. reflexivity.
Qed.

(** The listeners of [timeout] in a session as [connectAndHandle] sets
    it up, when the first thing the on-connect callback does is to
    subscribe a listener to [timeout]. *)
Lemma setUp_second (opts : Opts) (f : OnConnect) (id : nat) (t : bool)
    (more : list Registration) (l : Link) :
  onConnect opts = Some f ->
  registrations f = RegisterOn timeout id t :: more ->
  exists tl,
    l_timeout (listeners (exec (setUp opts) (newScale l)))
    = raiseFlagListener timeout :: External id t :: tl.
Proof.
  intros Ho Hr.
  set (rest := {| onConnect := Some {| registrations := more;
                                       throws := throws f |};
                  runOnce := runOnce opts |}).
  set (w1 := exec (on timeout (Some (raiseFlagListener timeout)) ;;
                   on measurement (Some (raiseFlagListener measurement)) ;;
                   on timeout (Some (External id t)))%js
                  (newScale l)).
  assert (E : exec (setUp opts) (newScale l)
              = exec (callOnConnect rest ;; startListening 10 ;;
                      modify (set_raiseFlag Waiting))%js w1).
  { unfold setUp, callOnConnect. rewrite Ho, Hr. reflexivity. }
  rewrite E. destruct (SetUpKeeps_rest rest w1) as [_ A].
  destruct (A timeout) as (x & Ex). exists x. exact Ex.
Qed.

(** X28.  A listener of [timeout] that throws ends the process.  The
    on-connect callback subscribes it first of all, the session is set up
    and gets no frame for ten seconds: the timer fires, the supervisor's
    listener resolves the promise, the listener is called and its exception
    escapes the timer callback.  With run-once set or not, [runMessageLoop]
    neither returns nor retries; the [finally] block does not run, so that
    neither the session nor the Bluetooth connection is released; the
    session is left with the flag set, the listener still on the
    characteristic and the notifications on. *)
Theorem throwing_timeout_listener_ends_process (opts : Opts)
    (f : OnConnect) (id : nat) (more : list Registration) (a : Attempt)
    (rest : list Attempt) (ms : N) (later : list Event) :
  onConnect opts = Some f -> throws f = false ->
  registrations f = RegisterOn timeout id true :: more ->
  connectOk a = true ->
  lookupOk (gatt a) = true -> startOk (gatt a) = true ->
  events a = Elapse ms :: later -> (10000 <= ms)%N ->
  let r := runMessageLoop true opts (a :: rest) in
  let w := exec (setUp opts) (newScale (gatt a)) in
  fst r = Exited "listener threw" /\
  did (snd r) = [Connect; Created 0] /\
  exists w',
    sessions (snd r) = [w'] /\
    trace w' = trace w ++ [Log "warn" "timeout"; Emit timeout [];
                           Invoke id []; Uncaught "listener threw"] /\
    didTimeout w' = true /\ raiseFlag w' = Resolved /\
    valuechanged w' = true /\ notifying w' = true /\ eventChar w' = true.
Proof.
  intros Ho Ht Hr Co Hl Hs Ev Hms. cbv zeta.
  destruct (setUp_second opts f id true more (gatt a) Ho Hr) as (tl & L).
  destruct (setUp_spec opts (gatt a)) as (r & w & E & F).
  rewrite Ho in F. cbn [orb negb] in F.
  rewrite Ht, Hl, Hs in F. cbn [orb negb] in F.
  destruct F as (-> & Ec & Hd & Hv & Hn & _ & C & P & Rf & _).
  unfold exec in L |- *. rewrite E in L |- *. cbn [snd] in L |- *.
  destruct (pending w) as [|[tid due] [|t0 ts]] eqn:Hp; try discriminate.
  cbn in P. injection P as ->.
  assert (Due : (10000 <= clock w + ms)%N) by (rewrite C; lia).
  assert (X : runMessageLoop true opts (a :: rest)
              = (Exited "listener threw",
                 {| sessions :=
                      [set_trace (trace w ++ [Log "warn" "timeout";
                                              Emit timeout []; Invoke id [];
                                              Uncaught "listener threw"])
                         (set_raiseFlag Resolved
                            (set_didTimeout true
                               (set_clock 10000 (set_pending [] w))))];
                    destroyScaleSession := None;
                    did := [Connect; Created 0] |})).
  { unfold runMessageLoop. cbn [while]. unfold connectAndHandle.
    rewrite Co. cbn [negb]. rewrite E, Ev. cbn [awaitFlag].
    unfold bind at 1, gets. rewrite Rf. unfold bind at 1. cbn [step].
    rewrite (elapse_throws id tid 10000 ms tl w L Rf Hp Due).
    reflexivity. }
  rewrite X. cbn [fst snd did sessions].
  split; [reflexivity|]. split; [reflexivity|].
  eexists. split; [reflexivity|].
  cbn [trace didTimeout raiseFlag valuechanged notifying eventChar
       set_trace set_raiseFlag set_didTimeout set_clock set_pending].
  repeat split; assumption.
Qed.

(** The callback subscribes a throwing listener to [timeout], and
    run-once is set. *)
Lemma throwing_timeout_listener_ends_process_witness :
  let opts := {| onConnect :=
                   Some {| registrations := [RegisterOn timeout 1 true];
                           throws := false |};
                 runOnce := true |} in
  let a := {| connectOk := true; gatt := goodLink;
              events := [Elapse 10000] |} in
  let r := runMessageLoop true opts [a; a] in
  fst r = Exited "listener threw" /\
  did (snd r) = [Connect; Created 0].
Proof.
  cbv zeta.
  destruct (throwing_timeout_listener_ends_process
              {| onConnect :=
                   Some {| registrations := [RegisterOn timeout 1 true];
                           throws := false |};
                 runOnce := true |}
              {| registrations := [RegisterOn timeout 1 true];
                 throws := false |}
              1%nat []
              {| connectOk := true; gatt := goodLink;
                 events := [Elapse 10000] |}
              [ {| connectOk := true; gatt := goodLink;
                   events := [Elapse 10000] |} ]
              10000%N []
              eq_refl eq_refl eq_refl eq_refl eq_refl eq_refl eq_refl
              ltac:(reflexivity)) as (S & D & _).
  split; assumption.
Defined.
